(** * bench_analyze: parsing BENCH lines and computing scaling metrics

    A shallow embedding of [tools/bench_analyze.py].  Python [int] is [Z],
    Python [float] is an IEEE-754 binary64 value ([spec_float] at precision
    53 and maximal exponent 1024), [str] is [string], exceptions are an
    explicit error result, [dict]s are association lists in insertion
    order. *)

From Stdlib Require Import ZArith List String Ascii Bool Lia Sorted SpecFloat DecimalString.
Import ListNotations.

Local Open Scope string_scope.
Local Open Scope list_scope.
Local Open Scope Z_scope.

(** ** Exceptions *)

Inductive exn : Type :=
| ValueError
| OverflowError
| ZeroDivisionError
| FileNotFoundError
| SystemExit (msg : string).

Inductive result (A : Type) : Type :=
| Ok (a : A)
| Raise (e : exn).

Arguments Ok {A} a.
Arguments Raise {A} e.

Definition bind {A B : Type} (r : result A) (k : A -> result B) : result B :=
  match r with
  | Ok a => k a
  | Raise e => Raise e
  end.

Notation "x <- r ;; k" := (bind r (fun x => k))
  (at level 61, r at next level, right associativity).

(** ** Python floats *)

Module PyFloat.

Definition float : Type := spec_float.

Definition prec : Z := 53.
Definition emax : Z := 1024.

Definition zero : float := S754_zero false.
Definition one : float := S754_finite false 4503599627370496 (-52).

Definition is_nan (x : float) : bool :=
  match x with S754_nan => true | _ => false end.

Definition ltb (x y : float) : bool := SFltb x y.
Definition leb (x y : float) : bool := SFleb x y.
Definition eqb (x y : float) : bool := SFeqb x y.

(** [x > y] *)
Definition gtb (x y : float) : bool := SFltb y x.

(** [float(n)] for an [int]: round to nearest even, [OverflowError] when
    the integer is too large for a double. *)
Definition of_int (n : Z) : result float :=
  match binary_normalize prec emax n 0 false with
  | S754_infinity _ => Raise OverflowError
  | x => Ok x
  end.

(** [x / y] on two floats: [ZeroDivisionError] on a zero divisor. *)
Definition truediv (x y : float) : result float :=
  if eqb y zero then Raise ZeroDivisionError
  else Ok (SFdiv prec emax x y).

(** [x / n] for a float and an [int]. *)
Definition truediv_int (x : float) (n : Z) : result float :=
  y <- of_int n ;; truediv x y.

End PyFloat.

Abbreviation float := PyFloat.float.

(** ** Records *)

Record BenchRow : Type := mkBenchRow {
  version : string;
  n_bats : Z;
  iters : Z;
  procs : Z;
  threads : Z;
  time_s : float
}.

(** The property [BenchRow.p]. *)
Definition p (self : BenchRow) : Z :=
  if (version self =? "openmp")%string then threads self
  else if (version self =? "mpi")%string then procs self
  else 1.

Definition group_key (row : BenchRow) : string * Z * Z :=
  (version row, n_bats row, iters row).

(** ** Text: character classes, [str.strip], [int()] and [float()]

    A character is an [ascii] standing for the code point of the same
    number, so the model is exact on text whose code points are below 256
    (the whitespace and decimal-digit tables of CPython restricted to that
    range). *)

Module Text.

(** [str.isspace] on one character; the regex class [\s] uses the same
    table. *)
Definition is_space (a : ascii) : bool :=
  let n := N_of_ascii a in
  ((9 <=? n) && (n <=? 13) || (28 <=? n) && (n <=? 32)
   || (n =? 133) || (n =? 160))%N.

(** [\d] and [0-9] coincide below 256. *)
Definition is_digit (a : ascii) : bool :=
  let n := N_of_ascii a in ((48 <=? n) && (n <=? 57))%N.

Definition digit_value (a : ascii) : Z := Z.of_N (N_of_ascii a) - 48.

Fixpoint lstrip (s : string) : string :=
  match s with
  | String a s' => if is_space a then lstrip s' else s
  | EmptyString => s
  end.

Fixpoint rstrip (s : string) : string :=
  match s with
  | String a s' =>
      match rstrip s' with
      | EmptyString => if is_space a then EmptyString else String a EmptyString
      | t => String a t
      end
  | EmptyString => EmptyString
  end.

(** [s.strip()] *)
Definition strip (s : string) : string := rstrip (lstrip s).

(** The value of a run of decimal digits read after [acc]; [None] when a
    character is not a digit. *)
Fixpoint digits_value (s : string) (acc : Z) : option Z :=
  match s with
  | EmptyString => Some acc
  | String a s' =>
      if is_digit a then digits_value s' (10 * acc + digit_value a) else None
  end.

(** [sys.int_info.default_max_str_digits]: the greatest number of digits
    that [int()] reads. *)
Definition max_str_digits : nat := 4300.

(** The token has more digits than [int()] reads. *)
Definition too_long (s : string) : bool := (max_str_digits <? String.length s)%nat.

(** [int(s)] on a token of [\d+], the only tokens that reach it: the value
    of a non-empty run of digits, and [ValueError] on a run of more than
    4300 digits.  Any other text is rejected here; signs, underscores and
    surrounding whitespace, which [int()] reads, cannot occur in a token of
    [\d+]. *)
Definition py_int (s : string) : result Z :=
  match s with
  | EmptyString => Raise ValueError
  | _ => match digits_value s 0 with
         | Some n => if too_long s then Raise ValueError else Ok n
         | None => Raise ValueError
         end
  end.

(** Splits at the first ["."]: the text before it and, when there is one,
    the text after it. *)
Fixpoint split_dot (s : string) : string * option string :=
  match s with
  | EmptyString => (EmptyString, None)
  | String a s' =>
      if Ascii.eqb a "."%char then (EmptyString, Some s')
      else let '(i, f) := split_dot s' in (String a i, f)
  end.

Fixpoint pow10 (k : nat) : positive :=
  match k with
  | O => 1%positive
  | S k' => (10 * pow10 k')%positive
  end.

(** The double nearest to [n / 10^k] for [n >= 0], ties to even; a value
    too large becomes infinity, as in [float("1" + "0" * 400)]. *)
Definition decimal_to_float (n : Z) (k : nat) : float :=
  match n with
  | Zpos m =>
      SFdiv PyFloat.prec PyFloat.emax
        (S754_finite false m 0) (S754_finite false (pow10 k) 0)
  | _ => PyFloat.zero
  end.

(** [float(s)] on a token of [[0-9.]+], the only tokens that reach it:
    digits with at most one dot and at least one digit, of any length; any
    other text is rejected here.  Signs, exponents, underscores and the
    names of the infinities and of the NaN, which [float()] reads, cannot
    occur in a token of [[0-9.]+]. *)
Definition py_float (s : string) : result float :=
  let '(i, f) := split_dot s in
  let f' := match f with Some t => t | None => EmptyString end in
  match (String.length i + String.length f')%nat with
  | O => Raise ValueError
  | _ => match digits_value (i ++ f') 0 with
         | Some n => Ok (decimal_to_float n (String.length f'))
         | None => Raise ValueError
         end
  end.

End Text.

(** ** Regular expressions

    The fragment of Python's [re] that [BENCH_RE] is written in, with the
    backtracking semantics of [re.match]: repetitions are greedy and give
    characters back one at a time, the first successful path wins. *)

Module Re.

Inductive cclass : Type :=
| Space        (* \s *)
| NonSpace     (* \S *)
| Digit        (* \d *)
| DigitOrDot.  (* [0-9.] *)

Definition in_class (c : cclass) (a : ascii) : bool :=
  match c with
  | Space => Text.is_space a
  | NonSpace => negb (Text.is_space a)
  | Digit => Text.is_digit a
  | DigitOrDot => Text.is_digit a || Ascii.eqb a "."%char
  end.

Inductive regex : Type :=
| Eps
| Bol                               (* ^ *)
| Eol                               (* $ *)
| Lit (s : string)
| Plus (c : cclass)                 (* c+ *)
| Star (c : cclass)                 (* c* *)
| Group (name : string) (r : regex) (* (?P<name>r) *)
| Seq (r1 r2 : regex).

(** A match object: the named groups and the text each one matched. *)
Definition Match : Type := list (string * string).

(** [$] matches at the end of the text and just before a final newline. *)
Definition at_end (s : string) : bool :=
  match s with
  | EmptyString => true
  | String a EmptyString => Ascii.eqb a "010"%char
  | _ => false
  end.

Fixpoint strip_prefix (l s : string) : option string :=
  match l, s with
  | EmptyString, _ => Some s
  | String a l', String b s' => if Ascii.eqb a b then strip_prefix l' s' else None
  | String _ _, EmptyString => None
  end.

(** Greedy repetition of a class: takes the longest run first and, when the
    continuation fails, retries with one character less.  [n] counts the
    characters taken so far. *)
Fixpoint rep {A : Type} (c : cclass) (s : string) (n : nat)
    (k : nat -> string -> option A) : option A :=
  match s with
  | String a s' =>
      if in_class c a then
        match rep c s' (S n) k with
        | Some r => Some r
        | None => k n s
        end
      else k n s
  | EmptyString => k n s
  end.

(** [go r pos s m k]: match [r] at offset [pos], where [s] is the text that
    remains, then continue with [k]. *)
Fixpoint go (r : regex) (pos : nat) (s : string) (m : Match)
    (k : nat -> string -> Match -> option Match) : option Match :=
  match r with
  | Eps => k pos s m
  | Bol => if Nat.eqb pos 0 then k pos s m else None
  | Eol => if at_end s then k pos s m else None
  | Lit l =>
      match strip_prefix l s with
      | Some s' => k (pos + String.length l)%nat s' m
      | None => None
      end
  | Plus c =>
      match s with
      | String a s' =>
          if in_class c a
          then rep c s' 1%nat (fun n s'' => k (pos + n)%nat s'' m)
          else None
      | EmptyString => None
      end
  | Star c => rep c s 0%nat (fun n s'' => k (pos + n)%nat s'' m)
  | Group name r' =>
      go r' pos s m
        (fun pos' s' m' => k pos' s' ((name, substring 0 (pos' - pos) s) :: m'))
  | Seq r1 r2 => go r1 pos s m (fun pos' s' m' => go r2 pos' s' m' k)
  end.

(** [r.match(s)] *)
Definition re_match (r : regex) (s : string) : option Match :=
  go r 0%nat s [] (fun _ _ m => Some m).

Fixpoint seq (rs : list regex) : regex :=
  match rs with
  | [] => Eps
  | [r] => r
  | r :: rs' => Seq r (seq rs')
  end.

(** [m.group(name)] *)
Fixpoint group (m : Match) (name : string) : string :=
  match m with
  | [] => EmptyString
  | (n, v) :: m' => if (n =? name)%string then v else group m' name
  end.

(** The declarative reading of the same fragment: [matches r pos s m pos'
    s' m'] when [r] can consume a prefix of [s] from the offset [pos],
    leaving [s'] at [pos'] and turning the groups [m] into [m']. *)
Fixpoint all_in (c : cclass) (t : string) : bool :=
  match t with
  | EmptyString => true
  | String a t' => in_class c a && all_in c t'
  end.

Fixpoint matches (r : regex) (pos : nat) (s : string) (m : Match)
    (pos' : nat) (s' : string) (m' : Match) : Prop :=
  match r with
  | Eps => pos' = pos /\ s' = s /\ m' = m
  | Bol => pos = 0%nat /\ pos' = pos /\ s' = s /\ m' = m
  | Eol => at_end s = true /\ pos' = pos /\ s' = s /\ m' = m
  | Lit l => s = (l ++ s')%string /\ pos' = (pos + String.length l)%nat /\ m' = m
  | Plus c =>
      exists t, t <> EmptyString /\ all_in c t = true /\ s = (t ++ s')%string /\
                pos' = (pos + String.length t)%nat /\ m' = m
  | Star c =>
      exists t, all_in c t = true /\ s = (t ++ s')%string /\
                pos' = (pos + String.length t)%nat /\ m' = m
  | Group name r' =>
      exists m'', matches r' pos s m pos' s' m'' /\
                  m' = (name, substring 0 (pos' - pos) s) :: m''
  | Seq r1 r2 =>
      exists p1 s1 m1, matches r1 pos s m p1 s1 m1 /\ matches r2 p1 s1 m1 pos' s' m'
  end.

End Re.

(** ** The parser *)

Definition BENCH_RE : Re.regex :=
  Re.seq
    [ Re.Bol; Re.Lit "BENCH"; Re.Plus Re.Space;
      Re.Lit "version="; Re.Group "version" (Re.Plus Re.NonSpace); Re.Plus Re.Space;
      Re.Lit "n_bats="; Re.Group "n_bats" (Re.Plus Re.Digit); Re.Plus Re.Space;
      Re.Lit "iters="; Re.Group "iters" (Re.Plus Re.Digit); Re.Plus Re.Space;
      Re.Lit "procs="; Re.Group "procs" (Re.Plus Re.Digit); Re.Plus Re.Space;
      Re.Lit "threads="; Re.Group "threads" (Re.Plus Re.Digit); Re.Plus Re.Space;
      Re.Lit "time_s="; Re.Group "time_s" (Re.Plus Re.DigitOrDot);
      Re.Star Re.Space; Re.Eol ].

(** The body of the loop of [parse_lines] for one line: [None] when the
    line is skipped. *)
Definition parse_line (line : string) : result (option BenchRow) :=
  let line := Text.strip line in
  match Re.re_match BENCH_RE line with
  | None => Ok None
  | Some m =>
      let v := Re.group m "version" in
      n <- Text.py_int (Re.group m "n_bats") ;;
      i <- Text.py_int (Re.group m "iters") ;;
      pr <- Text.py_int (Re.group m "procs") ;;
      th <- Text.py_int (Re.group m "threads") ;;
      t <- Text.py_float (Re.group m "time_s") ;;
      Ok (Some (mkBenchRow v n i pr th t))
  end.

(** The loop of [parse_lines], with the list [rows] built so far. *)
Fixpoint parse_loop (lines : list string) (rows : list BenchRow)
    : result (list BenchRow) :=
  match lines with
  | [] => Ok rows
  | line :: lines' =>
      o <- parse_line line ;;
      match o with
      | None => parse_loop lines' rows
      | Some row => parse_loop lines' (rows ++ [row])
      end
  end.

Definition parse_lines (lines : list string) : result (list BenchRow) :=
  parse_loop lines [].

(** ** Python containers and builtins used by the metrics engine *)

Module Py.

(** A [for] loop whose body may raise: [body] takes the state and the
    current element. *)
Fixpoint for_each {A S : Type} (xs : list A) (body : S -> A -> result S) (s : S)
    : result S :=
  match xs with
  | [] => Ok s
  | x :: xs' => s' <- body s x ;; for_each xs' body s'
  end.

(** A [dict] in insertion order. *)
Definition dict (K V : Type) : Type := list (K * V).

Fixpoint dict_get {K V : Type} (eqb : K -> K -> bool) (d : dict K V) (k : K)
    : option V :=
  match d with
  | [] => None
  | (k', v) :: d' => if eqb k' k then Some v else dict_get eqb d' k
  end.

(** [d[k] = v]: an existing key keeps its place and takes the new value, a
    new key goes last. *)
Fixpoint dict_set {K V : Type} (eqb : K -> K -> bool) (d : dict K V) (k : K) (v : V)
    : dict K V :=
  match d with
  | [] => [(k, v)]
  | (k', v') :: d' =>
      if eqb k' k then (k', v) :: d' else (k', v') :: dict_set eqb d' k v
  end.

(** [list(d.values())] *)
Definition values {K V : Type} (d : dict K V) : list V := map snd d.

(** Insertion into a strictly increasing list; an element already there is
    not repeated. *)
Fixpoint insert_sorted {A : Type} (cmp : A -> A -> comparison) (x : A) (l : list A)
    : list A :=
  match l with
  | [] => [x]
  | y :: l' =>
      match cmp x y with
      | Lt => x :: l
      | Eq => l
      | Gt => y :: insert_sorted cmp x l'
      end
  end.

(** [sorted({f(r) for r in rows})] *)
Definition sorted_set {A : Type} (cmp : A -> A -> comparison) (xs : list A) : list A :=
  fold_right (insert_sorted cmp) [] xs.

(** [min(xs, key=key)]: the current best is replaced by an element whose
    key is strictly below its key, so the first element with the least key
    is returned; [None] stands for the [ValueError] on an empty sequence. *)
Fixpoint min_from {A K : Type} (ltb : K -> K -> bool) (key : A -> K)
    (best : A) (xs : list A) : A :=
  match xs with
  | [] => best
  | x :: xs' => min_from ltb key (if ltb (key x) (key best) then x else best) xs'
  end.

Definition py_min {A K : Type} (ltb : K -> K -> bool) (key : A -> K) (xs : list A)
    : option A :=
  match xs with
  | [] => None
  | x :: xs' => Some (min_from ltb key x xs')
  end.

(** [str(n)] for an [int]. *)
Definition str_of_int (n : Z) : string :=
  DecimalString.NilZero.string_of_int (Z.to_int n).

End Py.

Definition pair_compare (a b : Z * Z) : comparison :=
  match Z.compare (fst a) (fst b) with
  | Eq => Z.compare (snd a) (snd b)
  | c => c
  end.

Definition pair_eqb (a b : Z * Z) : bool :=
  Z.eqb (fst a) (fst b) && Z.eqb (snd a) (snd b).

(** ** Metrics *)

Module Metric.

(** One row of the report: the dictionaries built by the two passes all
    have these twelve keys. *)
Record t : Type := mk {
  mode : string;
  version : string;
  n_bats : Z;
  iters : Z;
  procs : Z;
  threads : Z;
  p : Z;
  time_s : float;
  baseline_n_bats : Z;
  T_base_s : float;
  speedup : float;
  efficiency : float
}.

(** The key of the final deduplication. *)
Definition key (m : t) : string * string * Z * Z * Z * Z :=
  (mode m, version m, n_bats m, iters m, procs m, threads m).

Definition key_eqb (a b : string * string * Z * Z * Z * Z) : bool :=
  let '(m1, v1, n1, i1, p1, t1) := a in
  let '(m2, v2, n2, i2, p2, t2) := b in
  (m1 =? m2)%string && (v1 =? v2)%string
  && Z.eqb n1 n2 && Z.eqb i1 i2 && Z.eqb p1 p2 && Z.eqb t1 t2.

End Metric.

Definition is_sequential (r : BenchRow) : bool := (version r =? "sequential")%string.

Definition find_baseline (rows : list BenchRow) (n_bats0 iters0 : Z) : result float :=
  let candidates :=
    filter (fun r => is_sequential r && Z.eqb (n_bats r) n_bats0 && Z.eqb (iters r) iters0)
           rows in
  match Py.py_min PyFloat.ltb (fun t => t) (map time_s candidates) with
  | None =>
      Raise (SystemExit ("Missing sequential baseline for n_bats=" ++ Py.str_of_int n_bats0
                         ++ " iters=" ++ Py.str_of_int iters0))
  | Some t => Ok t
  end.

(** [t / time_s if time_s > 0 else 0.0] *)
Definition speedup_of (t : float) (time : float) : result float :=
  if PyFloat.gtb time PyFloat.zero then PyFloat.truediv t time else Ok PyFloat.zero.

(** [speedup / p if p > 0 else 0.0] *)
Definition efficiency_of (speedup : float) (par : Z) : result float :=
  if 0 <? par then PyFloat.truediv_int speedup par else Ok PyFloat.zero.

(** The first loop of [_strong_metrics]: a size whose [find_baseline]
    raises [SystemExit] gets no entry. *)
Definition strong_baselines (rows : list BenchRow) : result (Py.dict (Z * Z) float) :=
  let sizes := Py.sorted_set pair_compare (map (fun r => (n_bats r, iters r)) rows) in
  Py.for_each sizes
    (fun baselines '(n, it) =>
       match find_baseline rows n it with
       | Ok t => Ok (Py.dict_set pair_eqb baselines (n, it) t)
       | Raise (SystemExit _) => Ok baselines
       | Raise e => Raise e
       end)
    [].

(** The body of the second loop of [_strong_metrics]. *)
Definition strong_step (baselines : Py.dict (Z * Z) float)
    (out : list Metric.t) (r : BenchRow) : result (list Metric.t) :=
  let key := (n_bats r, iters r) in
  match Py.dict_get pair_eqb baselines key with
  | None => Ok out
  | Some t1 =>
      let par := p r in
      speedup <- speedup_of t1 (time_s r) ;;
      eff <- efficiency_of speedup par ;;
      Ok (out ++ [Metric.mk "strong" (version r) (n_bats r) (iters r) (procs r)
                    (threads r) par (time_s r) (n_bats r) t1 speedup eff])
  end.

Definition _strong_metrics (rows : list BenchRow) : result (list Metric.t) :=
  baselines <- strong_baselines rows ;;
  Py.for_each rows (strong_step baselines) [].

Definition _weak_baseline (rows : list BenchRow) (iters0 : Z) (version0 : string)
    : option BenchRow :=
  let seq := filter (fun r => Z.eqb (iters r) iters0 && is_sequential r && Z.eqb (p r) 1) rows in
  match seq with
  | _ :: _ => Py.py_min Z.ltb n_bats seq
  | [] =>
      let same :=
        filter (fun r => Z.eqb (iters r) iters0 && (version r =? version0)%string
                         && Z.eqb (p r) 1) rows in
      match same with
      | _ :: _ => Py.py_min Z.ltb n_bats same
      | [] => None
      end
  end.

(** The metric of one candidate record of the weak pass. *)
Definition weak_step (base_n : Z) (t_base : float)
    (out : list Metric.t) (r : BenchRow) : result (list Metric.t) :=
  let par := p r in
  weak_speedup <- speedup_of t_base (time_s r) ;;
  let weak_eff := weak_speedup in
  Ok (out ++ [Metric.mk "weak" (version r) (n_bats r) (iters r) (procs r)
                (threads r) par (time_s r) base_n t_base weak_speedup weak_eff]).

(** The entry added for the baseline record itself. *)
Definition baseline_metric (baseline : BenchRow) : Metric.t :=
  Metric.mk "weak" (version baseline) (n_bats baseline) (iters baseline)
    (procs baseline) (threads baseline) 1 (time_s baseline)
    (n_bats baseline) (time_s baseline) PyFloat.one PyFloat.one.

(** The body of the two nested loops of [_weak_metrics] for one
    [(iters, version)] pair. *)
Definition weak_pair (rows : list BenchRow) (iters0 : Z)
    (out : list Metric.t) (version0 : string) : result (list Metric.t) :=
  if (version0 =? "sequential")%string then Ok out
  else
    match _weak_baseline rows iters0 version0 with
    | None => Ok out
    | Some baseline =>
        let t_base := time_s baseline in
        let base_n := n_bats baseline in
        let candidates :=
          filter (fun r => Z.eqb (iters r) iters0 && (version r =? version0)%string) rows in
        out' <- Py.for_each candidates (weak_step base_n t_base) out ;;
        Ok (out' ++ [baseline_metric baseline])
    end.

(** The list [out] of [_weak_metrics] before the deduplication. *)
Definition weak_out (rows : list BenchRow) : result (list Metric.t) :=
  let iters_set := Py.sorted_set Z.compare (map iters rows) in
  Py.for_each iters_set
    (fun out iters0 =>
       Py.for_each (Py.sorted_set String.compare (map version rows))
         (weak_pair rows iters0) out)
    [].

(** The final loop of [_weak_metrics]: [uniq[key] = m] for every [m]. *)
Definition dedup (out : list Metric.t) : list Metric.t :=
  Py.values
    (fold_left (fun uniq m => Py.dict_set Metric.key_eqb uniq (Metric.key m) m) out []).

Definition _weak_metrics (rows : list BenchRow) : result (list Metric.t) :=
  out <- weak_out rows ;;
  Ok (dedup out).

Definition compute_metrics (rows : list BenchRow) : result (list Metric.t) :=
  strong <- _strong_metrics rows ;;
  weak <- _weak_metrics rows ;;
  Ok (strong ++ weak).

(** ** The reporter and [main]

    The outside world is the text of the input file ([None] when it cannot
    be opened) and what the run leaves behind: the directories and files it
    creates and the lines it prints.  The calls to the operating system and
    to the chart library are taken on their successful path: the output
    directory can be created, the table and the charts can be written.
    What is proved of [main] below is about the runs that end before
    anything is written. *)

Module World.

Inductive content : Type :=
| Csv (header : list string) (rows : list Metric.t)
| Png.

Record t : Type := mk {
  dirs : list string;
  files : Py.dict string content;
  stdout : list string
}.

(** [os.makedirs(d, exist_ok=True)], for a directory that can be created:
    a path that is not empty and not a regular file. *)
Definition makedirs (w : t) (d : string) : t :=
  mk (if existsb (String.eqb d) (dirs w) then dirs w else dirs w ++ [d])
     (files w) (stdout w).

Definition write_file (w : t) (path : string) (c : content) : t :=
  mk (dirs w) (Py.dict_set String.eqb (files w) path c) (stdout w).

Definition print (w : t) (line : string) : t :=
  mk (dirs w) (files w) (stdout w ++ [line]).

End World.

Fixpoint ends_with_slash (s : string) : bool :=
  match s with
  | EmptyString => false
  | String a EmptyString => Ascii.eqb a "/"%char
  | String _ s' => ends_with_slash s'
  end.

(** [os.path.join(a, b)] on POSIX paths: an absolute [b] replaces [a]. *)
Definition path_join (a b : string) : string :=
  match b with
  | String "/" _ => b
  | _ =>
      match a with
      | EmptyString => b
      | _ => if ends_with_slash a then a ++ b else a ++ "/" ++ b
      end
  end.

Definition fieldnames : list string :=
  ["mode"; "version"; "n_bats"; "iters"; "procs"; "threads"; "p"; "time_s";
   "baseline_n_bats"; "T_base_s"; "speedup"; "efficiency"].

Definition plot_key : Type := string * string * Z * Z.

Definition plot_key_eqb (a b : plot_key) : bool :=
  let '(m1, v1, n1, i1) := a in
  let '(m2, v2, n2, i2) := b in
  (m1 =? m2)%string && (v1 =? v2)%string && Z.eqb n1 n2 && Z.eqb i1 i2.

(** [groups.setdefault(key, []).append(m)] *)
Definition group_add (groups : Py.dict plot_key (list Metric.t)) (m : Metric.t)
    : Py.dict plot_key (list Metric.t) :=
  let key := (Metric.mode m, Metric.version m, Metric.n_bats m, Metric.iters m) in
  match Py.dict_get plot_key_eqb groups key with
  | Some ms => Py.dict_set plot_key_eqb groups key (ms ++ [m])
  | None => Py.dict_set plot_key_eqb groups key [m]
  end.

(** The three files written by [plot_group]. *)
Definition plot_group (outdir : string) (key : plot_key) (w : World.t) : World.t :=
  let '(mode, version, n, it) := key in
  let name kind :=
    path_join outdir
      (version ++ "_" ++ mode ++ "_" ++ kind ++ "_nb" ++ Py.str_of_int n
       ++ "_it" ++ Py.str_of_int it ++ ".png") in
  let w := World.write_file w (name "time") World.Png in
  let w := World.write_file w (name "speedup") World.Png in
  World.write_file w (name "efficiency") World.Png.

Definition try_plot (matplotlib : bool) (metrics : list Metric.t) (outdir : string)
    (w : World.t) : World.t :=
  if negb matplotlib then
    World.print w
      "matplotlib not available; skipping plots. Install with: pip install matplotlib"
  else
    let groups := fold_left group_add metrics [] in
    fold_left
      (fun w '(key, ms) =>
         let '(_, version, _, _) := key in
         if (version =? "sequential")%string then w
         else if (List.length (Py.sorted_set Z.compare (map Metric.p ms)) <? 1)%nat then w
         else plot_group outdir key w)
      groups w.

(** [main], with [--input] already read: [input] is the text of the input
    file. *)
Definition main (input : option (list string)) (outdir : string) (matplotlib : bool)
    (w : World.t) : World.t * result unit :=
  let w := World.makedirs w outdir in
  match input with
  | None => (w, Raise FileNotFoundError)
  | Some f =>
      match parse_lines f with
      | Raise e => (w, Raise e)
      | Ok [] => (w, Raise (SystemExit "No BENCH lines found in input."))
      | Ok rows =>
          match compute_metrics rows with
          | Raise e => (w, Raise e)
          | Ok metrics =>
              let csv_path := path_join outdir "bench_metrics.csv" in
              let w := World.write_file w csv_path (World.Csv fieldnames metrics) in
              let w := World.print w ("Wrote " ++ csv_path) in
              (try_plot matplotlib metrics outdir w, Ok tt)
          end
      end
  end.

(** ** Closed forms used by the statements

    What the two passes compute, written without the error result: the
    theorems below show that the code agrees with them. *)

(** The value of [t / time if time > 0 else 0.0]. *)
Definition speedup_val (t time : float) : float :=
  if PyFloat.gtb time PyFloat.zero then SFdiv PyFloat.prec PyFloat.emax t time
  else PyFloat.zero.

(** The weak metric of the candidate [r] against the baseline record [b]. *)
Definition weak_metric (b r : BenchRow) : Metric.t :=
  Metric.mk "weak" (version r) (n_bats r) (iters r) (procs r) (threads r)
    (p r) (time_s r) (n_bats b) (time_s b)
    (speedup_val (time_s b) (time_s r)) (speedup_val (time_s b) (time_s r)).

Definition weak_candidates (rows : list BenchRow) (iters0 : Z) (version0 : string)
    : list BenchRow :=
  filter (fun r => Z.eqb (iters r) iters0 && (version r =? version0)%string) rows.

(** What one [(iters, version)] pair appends to [out]. *)
Definition pair_out (rows : list BenchRow) (iters0 : Z) (version0 : string)
    : list Metric.t :=
  if (version0 =? "sequential")%string then []
  else
    match _weak_baseline rows iters0 version0 with
    | None => []
    | Some b => map (weak_metric b) (weak_candidates rows iters0 version0)
                ++ [baseline_metric b]
    end.

Definition weak_out_list (rows : list BenchRow) : list Metric.t :=
  flat_map
    (fun i => flat_map (pair_out rows i)
                       (Py.sorted_set String.compare (map version rows)))
    (Py.sorted_set Z.compare (map iters rows)).

(** The last entry of [out] that has the key [k]. *)
Definition last_with (k : string * string * Z * Z * Z * Z) (out : list Metric.t)
    : option Metric.t :=
  find (fun m => Metric.key_eqb (Metric.key m) k) (rev out).

(** A record belongs to the strong-scaling group [(n, it)]. *)
Definition in_group (n it : Z) (r : BenchRow) : bool :=
  pair_eqb (n_bats r, iters r) (n, it).

Definition seq_in_group (n it : Z) (r : BenchRow) : bool :=
  is_sequential r && Z.eqb (n_bats r) n && Z.eqb (iters r) it.

(** The entry of the dictionary [baselines] for a size. *)
Definition baseline_entry (rows : list BenchRow) (key : Z * Z) : option float :=
  match find_baseline rows (fst key) (snd key) with
  | Ok t => Some t
  | Raise _ => None
  end.

Definition baselines_step (rows : list BenchRow)
    (baselines : Py.dict (Z * Z) float) (key : Z * Z) : Py.dict (Z * Z) float :=
  match baseline_entry rows key with
  | Some t => Py.dict_set pair_eqb baselines key t
  | None => baselines
  end.

(** What a metric of the strong table is: the record [r] it comes from and
    the result [t1] of [find_baseline] for the size of [r]. *)
Definition strong_metric_of (rows : list BenchRow) (m : Metric.t) : Prop :=
  exists r t1,
    In r rows /\
    find_baseline rows (n_bats r) (iters r) = Ok t1 /\
    efficiency_of (speedup_val t1 (time_s r)) (p r) = Ok (Metric.efficiency m) /\
    m = Metric.mk "strong" (version r) (n_bats r) (iters r) (procs r) (threads r)
          (p r) (time_s r) (n_bats r) t1 (speedup_val t1 (time_s r))
          (Metric.efficiency m).

(** The two tiers of [_weak_baseline]: the records it looks for first and
    the records it falls back to. *)
Definition seq_tier (iters0 : Z) (r : BenchRow) : Prop :=
  iters r = iters0 /\ version r = "sequential" /\ p r = 1.

Definition same_tier (iters0 : Z) (version0 : string) (r : BenchRow) : Prop :=
  iters r = iters0 /\ version r = version0 /\ p r = 1.

(** [uniq[key] = m] *)
Definition uniq_step (uniq : Py.dict (string * string * Z * Z * Z * Z) Metric.t)
    (m : Metric.t) : Py.dict (string * string * Z * Z * Z * Z) Metric.t :=
  Py.dict_set Metric.key_eqb uniq (Metric.key m) m.

Definition seq_tierb (iters0 : Z) (r : BenchRow) : bool :=
  Z.eqb (iters r) iters0 && is_sequential r && Z.eqb (p r) 1.

Definition same_tierb (iters0 : Z) (version0 : string) (r : BenchRow) : bool :=
  Z.eqb (iters r) iters0 && (version r =? version0)%string && Z.eqb (p r) 1.

Definition float_eq_dec (x y : float) : {x = y} + {x <> y}.
Proof.
  decide equality; try apply Bool.bool_dec; try apply Z.eq_dec; apply Pos.eq_dec.
Defined.

Definition metric_eq_dec (x y : Metric.t) : {x = y} + {x <> y}.
Proof.
  decide equality; try apply float_eq_dec; try apply Z.eq_dec; apply string_dec.
Defined.

(** The last entry of [l] with the key [k], if any, is [x]. *)
Definition ends_with (k : string * string * Z * Z * Z * Z) (x : Metric.t)
    (l : list Metric.t) : Prop :=
  last_with k l = None \/ last_with k l = Some x.

(** The times that [float()] gives on the tokens of [BENCH_RE]: never a
    NaN, never below zero. *)
Definition valid_time (t : float) : Prop :=
  PyFloat.is_nan t = false /\ PyFloat.leb PyFloat.zero t = true.

(** The record that a metric reports. *)
Definition row_of_metric (m : Metric.t) : BenchRow :=
  mkBenchRow (Metric.version m) (Metric.n_bats m) (Metric.iters m)
    (Metric.procs m) (Metric.threads m) (Metric.time_s m).

(** The size of the record has an entry in [baselines]. *)
Definition has_baseline (baselines : Py.dict (Z * Z) float) (r : BenchRow) : bool :=
  match Py.dict_get pair_eqb baselines (n_bats r, iters r) with
  | Some _ => true
  | None => false
  end.

(** ** Definitions for the further properties *)

(** [BENCH_RE] matches the stripped line. *)
Definition line_matches (line : string) : bool :=
  match Re.re_match BENCH_RE (Text.strip line) with
  | Some _ => true
  | None => false
  end.

(** The fields of a match on which the constructor of the record raises:
    an integer token that [int()] rejects for its length, or a time token
    that [float()] rejects. *)
Definition rejected (m : Re.Match) : Prop :=
  (exists name, In name ["n_bats"; "iters"; "procs"; "threads"] /\
                Text.too_long (Re.group m name) = true)
  \/ Text.py_float (Re.group m "time_s") = Raise ValueError.

(** A token of [\d+] within the bound of [int()]: a non-empty run of at
    most 4300 digits. *)
Definition int_token (t : string) : Prop :=
  t <> EmptyString /\ Re.all_in Re.Digit t = true /\
  (String.length t <= Text.max_str_digits)%nat.

(** A token of [[0-9.]+] that is a decimal numeral: digits, or digits
    around one dot, with a digit on one side of it at least. *)
Definition time_token (t : string) : Prop :=
  (t <> EmptyString /\ Re.all_in Re.Digit t = true)
  \/ exists a b, t = (a ++ "." ++ b)%string /\
                 Re.all_in Re.Digit a = true /\ Re.all_in Re.Digit b = true /\
                 (a ++ b)%string <> EmptyString.

(** What holds of every record of the parser. *)
Definition well_formed_row (r : BenchRow) : Prop :=
  version r <> EmptyString /\ Re.all_in Re.NonSpace (version r) = true /\
  0 <= n_bats r /\ 0 <= iters r /\ 0 <= procs r /\ 0 <= threads r /\
  valid_time (time_s r).

(** A line of the grammar of [BENCH_RE], built from its six tokens and the
    separators between them. *)
Definition bench_line (v n i pr th t w1 w2 w3 w4 w5 w6 : string) : string :=
  ("BENCH" ++ w1 ++ "version=" ++ v ++ w2 ++ "n_bats=" ++ n ++ w3
   ++ "iters=" ++ i ++ w4 ++ "procs=" ++ pr ++ w5 ++ "threads=" ++ th ++ w6
   ++ "time_s=" ++ t)%string.

(** A non-empty run of whitespace. *)
Definition separator (w : string) : Prop :=
  w <> EmptyString /\ Re.all_in Re.Space w = true.

(** The text is empty or starts with a character outside the class. *)
Definition stops (c : Re.cclass) (s : string) : bool :=
  match s with
  | EmptyString => true
  | String a _ => negb (Re.in_class c a)
  end.

(** The key under which [try_plot] files a metric. *)
Definition plot_key_of (m : Metric.t) : plot_key :=
  (Metric.mode m, Metric.version m, Metric.n_bats m, Metric.iters m).

(** The plot keys of a list in the order of their first occurrence. *)
Fixpoint first_plot_keys (l : list plot_key) : list plot_key :=
  match l with
  | [] => []
  | k :: l' => k :: filter (fun k' => negb (plot_key_eqb k k')) (first_plot_keys l')
  end.

(** The members of a group, the empty list for a key that has none. *)
Definition group_members (groups : Py.dict plot_key (list Metric.t)) (key : plot_key)
    : list Metric.t :=
  match Py.dict_get plot_key_eqb groups key with
  | Some ms => ms
  | None => []
  end.

(** ** Concrete inputs *)

(** The records of a text, or none when the parser raises. *)
Definition rows_of (lines : list string) : list BenchRow :=
  match parse_lines lines with
  | Ok rows => rows
  | Raise _ => []
  end.

Definition metrics_of (rows : list BenchRow) : list Metric.t :=
  match compute_metrics rows with
  | Ok ms => ms
  | Raise _ => []
  end.

(** A line whose [time_s] token matches the class of digits and dots and is
    not a number. *)
Definition dotted_time_lines : list string :=
  ["BENCH version=mpi n_bats=1 iters=1 procs=1 threads=1 time_s=1.2.3"].

(** Lines that do not match the grammar, among them one with a field that
    is not a number. *)
Definition unmatched_lines : list string :=
  ["starting the run";
   "BENCH version=mpi n_bats=abc iters=10 procs=2 threads=1 time_s=1.5";
   "done"].

(** Scenario A: a sequential record and a shared-memory record. *)
Definition scenario_A_lines : list string :=
  ["BENCH version=sequential n_bats=100 iters=10 procs=1 threads=1 time_s=10.0";
   "BENCH version=openmp n_bats=100 iters=10 procs=1 threads=4 time_s=2.5"].

Definition scenario_A : list BenchRow := Eval vm_compute in rows_of scenario_A_lines.

Definition scenario_A_metrics : list Metric.t :=
  Eval vm_compute in metrics_of scenario_A.

(** The strong metric of the shared-memory record of scenario A. *)
Definition scenario_A_openmp : Metric.t :=
  Eval vm_compute in
    nth 1 scenario_A_metrics
      (Metric.mk "" "" 0 0 0 0 0 PyFloat.zero 0 PyFloat.zero PyFloat.zero PyFloat.zero).

(** Scenario B: the size (100, 10) has a shared-memory record only, the
    size (200, 10) has a sequential record as well. *)
Definition scenario_B_lines : list string :=
  ["BENCH version=openmp n_bats=100 iters=10 procs=1 threads=4 time_s=2.5";
   "BENCH version=sequential n_bats=200 iters=10 procs=1 threads=1 time_s=8.0";
   "BENCH version=openmp n_bats=200 iters=10 procs=1 threads=2 time_s=4.0"].

Definition scenario_B : list BenchRow := Eval vm_compute in rows_of scenario_B_lines.

(** Scenario C: shared-memory records whose size grows with the number of
    threads, at a constant time. *)
Definition scenario_C_lines : list string :=
  ["BENCH version=openmp n_bats=100 iters=10 procs=1 threads=1 time_s=5.0";
   "BENCH version=openmp n_bats=200 iters=10 procs=1 threads=2 time_s=5.0";
   "BENCH version=openmp n_bats=400 iters=10 procs=1 threads=4 time_s=5.0"].

Definition scenario_C : list BenchRow := Eval vm_compute in rows_of scenario_C_lines.

Definition scenario_C_baseline : BenchRow :=
  Eval vm_compute in hd (mkBenchRow "" 0 0 0 0 PyFloat.zero) scenario_C.

(** A shared-memory record whose number of threads, 10^309, is too large for
    a double, in a group with a sequential record. *)
Definition huge_threads_lines : list string :=
  ["BENCH version=sequential n_bats=1 iters=1 procs=1 threads=1 time_s=1.0";
   "BENCH version=openmp n_bats=1 iters=1 procs=1 threads=1000000000000000000000000000000000000000000000000000000000000000000000000000000000000000000000000000000000000000000000000000000000000000000000000000000000000000000000000000000000000000000000000000000000000000000000000000000000000000000000000000000000000000000000000000000000000000000000000000000000000000000000 time_s=1.0"].

(** A record whose [n_bats] token has 4301 digits. *)
Definition long_int_lines : list string :=
  [("BENCH version=mpi n_bats="
    ++ string_of_list_ascii (repeat "7"%char 4301)
    ++ " iters=1 procs=1 threads=1 time_s=1.0")%string].

(** Scenario D: two sequential runs of the same size, 10.0 s and 9.0 s. *)
Definition scenario_D_lines : list string :=
  ["BENCH version=sequential n_bats=100 iters=10 procs=1 threads=1 time_s=10.0";
   "BENCH version=sequential n_bats=100 iters=10 procs=1 threads=1 time_s=9.0"].

Definition scenario_D : list BenchRow := Eval vm_compute in rows_of scenario_D_lines.

(** A shared-memory record at [p = 1] whose time is zero. *)
Definition zero_time_lines : list string :=
  ["BENCH version=openmp n_bats=100 iters=10 procs=1 threads=1 time_s=0"].

Definition zero_time : list BenchRow := Eval vm_compute in rows_of zero_time_lines.

Definition float_9 : float := Eval vm_compute in Text.decimal_to_float 90 1.

Definition empty_world : World.t := World.mk [] [] [].

Definition strong_of (rows : list BenchRow) : list Metric.t :=
  match _strong_metrics rows with
  | Ok ms => ms
  | Raise _ => []
  end.

Definition weak_of (rows : list BenchRow) : list Metric.t :=
  match _weak_metrics rows with
  | Ok ms => ms
  | Raise _ => []
  end.

(** The keys of a list in the order of their first occurrence. *)
Fixpoint first_occurrences (l : list (string * string * Z * Z * Z * Z))
    : list (string * string * Z * Z * Z * Z) :=
  match l with
  | [] => []
  | k :: l' => k :: filter (fun k' => negb (Metric.key_eqb k k')) (first_occurrences l')
  end.

(** Two shared-memory records at [p = 1] with the same size: a tie for the
    weak baseline. *)
Definition tie_lines : list string :=
  ["BENCH version=openmp n_bats=200 iters=10 procs=1 threads=1 time_s=9.0";
   "BENCH version=openmp n_bats=100 iters=10 procs=1 threads=1 time_s=6.0";
   "BENCH version=openmp n_bats=100 iters=10 procs=1 threads=1 time_s=5.0"].

Definition tie_rows : list BenchRow := Eval vm_compute in rows_of tie_lines.

Definition tie_baseline : BenchRow :=
  Eval vm_compute in nth 1 tie_rows (mkBenchRow "" 0 0 0 0 PyFloat.zero).

(** * Verification *)

(** ** The derived parallelism *)

(** C10: the derived parallelism is [threads] for "openmp", [procs] for
    "mpi" and 1 for every other version token. *)
Theorem p_cases (r : BenchRow) :
  (version r = "openmp" -> p r = threads r) /\
  (version r = "mpi" -> p r = procs r) /\
  (version r <> "openmp" -> version r <> "mpi" -> p r = 1).
Proof.
  unfold p. repeat split.
  - intros ->. reflexivity.
  - intros ->. reflexivity.
  - intros H1 H2.
    apply String.eqb_neq in H1, H2. now rewrite H1, H2.
Qed.

(** ** Float comparisons *)

Section FloatOrder.

Lemma SFcompare_finite_pos (m1 m2 : positive) (e1 e2 : Z) :
  SFcompare (S754_finite false m1 e1) (S754_finite false m2 e2) =
  Some match Z.compare e1 e2 with
       | Lt => Lt
       | Gt => Gt
       | Eq => Pos.compare m1 m2
       end.
Proof. reflexivity. Qed.

Lemma SFcompare_finite_neg (m1 m2 : positive) (e1 e2 : Z) :
  SFcompare (S754_finite true m1 e1) (S754_finite true m2 e2) =
  Some match Z.compare e1 e2 with
       | Lt => Gt
       | Gt => Lt
       | Eq => CompOpp (Pos.compare m1 m2)
       end.
Proof. reflexivity. Qed.

Ltac order_cases :=
  repeat match goal with
         | |- context [Z.compare ?a ?b] => destruct (Z.compare_spec a b)
         | |- context [Pos.compare ?a ?b] => destruct (Pos.compare_spec a b)
         | H : context [Z.compare ?a ?b] |- _ => destruct (Z.compare_spec a b)
         | H : context [Pos.compare ?a ?b] |- _ => destruct (Pos.compare_spec a b)
         end;
  simpl in *; try reflexivity; try discriminate; try lia.

Lemma leb_trans (a b c : float) :
  PyFloat.leb a b = true -> PyFloat.leb b c = true -> PyFloat.leb a c = true.
Proof.
  unfold PyFloat.leb, SFleb.
  destruct a as [sa|sa| |sa ma ea], b as [sb|sb| |sb mb eb], c as [sc|sc| |sc mc ec];
    try (destruct sa); try (destruct sb); try (destruct sc);
    rewrite ?SFcompare_finite_pos, ?SFcompare_finite_neg;
    try (simpl; congruence);
    intros Hab Hbc; order_cases.
Qed.

Lemma ltb_false_leb (a b : float) :
  PyFloat.is_nan a = false -> PyFloat.is_nan b = false ->
  PyFloat.ltb a b = false -> PyFloat.leb b a = true.
Proof.
  unfold PyFloat.leb, PyFloat.ltb, SFleb, SFltb.
  destruct a as [sa|sa| |sa ma ea], b as [sb|sb| |sb mb eb];
    try (destruct sa); try (destruct sb);
    rewrite ?SFcompare_finite_pos, ?SFcompare_finite_neg;
    try (simpl; congruence);
    intros _ _ Hab; order_cases.
Qed.

Lemma ltb_leb (a b : float) : PyFloat.ltb a b = true -> PyFloat.leb a b = true.
Proof.
  unfold PyFloat.leb, PyFloat.ltb, SFleb, SFltb.
  destruct (SFcompare a b) as [[]|]; congruence.
Qed.

Lemma leb_refl (a : float) : PyFloat.is_nan a = false -> PyFloat.leb a a = true.
Proof.
  unfold PyFloat.leb, SFleb.
  destruct a as [sa|sa| |sa ma ea]; try (destruct sa);
    rewrite ?SFcompare_finite_pos, ?SFcompare_finite_neg;
    try (simpl; congruence); intros _; rewrite Z.compare_refl, Pos.compare_refl; reflexivity.
Qed.

(** A float that is [> 0] is not [== 0]: the guard of [speedup_of] keeps the
    zero divisor away. *)
Lemma gtb_zero_not_eqb (x : float) :
  PyFloat.gtb x PyFloat.zero = true -> PyFloat.eqb x PyFloat.zero = false.
Proof. destruct x as [s|s| |s m e]; try destruct s; cbv; congruence. Qed.

(** For a float that is not a NaN, "not [> 0]" is "[<= 0]". *)
Lemma not_gtb_zero_leb (x : float) :
  PyFloat.is_nan x = false ->
  PyFloat.gtb x PyFloat.zero = false <-> PyFloat.leb x PyFloat.zero = true.
Proof. destruct x as [s|s| |s m e]; try destruct s; cbv; intuition congruence. Qed.

End FloatOrder.

(** ** Rounding to a double

    Two facts about [binary_round_aux]: a non-negative mantissa never
    rounds to a NaN, and a positive mantissa at an exponent that is not
    below [emin] never rounds to zero. *)

Section Rounding.

Lemma iter_pos_inv {A : Type} (f : A -> A) (Q : Z -> A -> Prop) :
  (forall k y, 0 <= k -> Q k y -> Q (k + 1) (f y)) ->
  forall n k x, 0 <= k -> Q k x -> Q (k + Zpos n) (iter_pos f n x).
Proof.
  intros Hstep. induction n as [n IH|n IH|]; intros k x Hk Hx; simpl.
  - replace (k + Zpos n~1) with (k + 1 + Zpos n + Zpos n) by lia.
    apply IH; [lia|]. apply IH; [lia|]. apply Hstep; assumption.
  - replace (k + Zpos n~0) with (k + Zpos n + Zpos n) by lia.
    apply IH; [lia|]. apply IH; assumption.
  - apply Hstep; assumption.
Qed.

Lemma shr_1_bounds (y : shr_record) :
  0 <= shr_m y ->
  0 <= shr_m (shr_1 y) /\ shr_m y + 1 <= 2 * (shr_m (shr_1 y) + 1).
Proof.
  destruct y as [m r s]. simpl.
  destruct m as [|[q|q|]|q]; simpl; intros H; lia.
Qed.

Lemma shr_nonneg (y : shr_record) (e n : Z) :
  0 <= shr_m y -> 0 <= shr_m (fst (shr y e n)).
Proof.
  intros Hy. destruct n as [|q|q]; simpl; try exact Hy.
  apply (iter_pos_inv shr_1 (fun _ z => 0 <= shr_m z)) with (k := 0) (n := q);
    [|lia|exact Hy].
  intros k z _ Hz. apply shr_1_bounds, Hz.
Qed.

Lemma shr_record_of_loc_m (m : Z) (l : location) : shr_m (shr_record_of_loc m l) = m.
Proof. destruct l as [|[]]; reflexivity. Qed.

Lemma round_nearest_even_ge (m : Z) (l : location) : m <= round_nearest_even m l.
Proof.
  destruct l as [|[]]; simpl; try lia. destruct (Z.even m); lia.
Qed.

Lemma digits2_pos_lower (m : positive) : 2 ^ (Zpos (digits2_pos m) - 1) <= Zpos m.
Proof.
  induction m as [m IH|m IH|]; cbn [digits2_pos].
  - rewrite Pos2Z.inj_succ. replace (Z.succ (Zpos (digits2_pos m)) - 1)
      with (Z.succ (Zpos (digits2_pos m) - 1)) by lia.
    rewrite Z.pow_succ_r by lia. lia.
  - rewrite Pos2Z.inj_succ. replace (Z.succ (Zpos (digits2_pos m)) - 1)
      with (Z.succ (Zpos (digits2_pos m) - 1)) by lia.
    rewrite Z.pow_succ_r by lia. lia.
  - simpl. lia.
Qed.

(** Shifting a positive mantissa to its canonical exponent leaves it
    positive, when the exponent is not below [emin]. *)
Lemma shr_fexp_pos (m e : Z) (l : location) :
  0 < m -> emin PyFloat.prec PyFloat.emax <= e ->
  0 < shr_m (fst (shr_fexp PyFloat.prec PyFloat.emax m e l)) /\
  emin PyFloat.prec PyFloat.emax <= snd (shr_fexp PyFloat.prec PyFloat.emax m e l).
Proof.
  intros Hm He. unfold shr_fexp.
  destruct m as [|q|q]; try lia. simpl Zdigits2.
  pose proof (digits2_pos_lower q) as Hd.
  set (d := Zpos (digits2_pos q)) in *.
  assert (fexp PyFloat.prec PyFloat.emax (d + e) - e <= d - 1) as Hn.
  { unfold fexp, emin, PyFloat.prec, PyFloat.emax in *. lia. }
  destruct (fexp PyFloat.prec PyFloat.emax (d + e) - e) as [|n|n] eqn:En; simpl.
  - rewrite shr_record_of_loc_m. split; [lia | exact He].
  - split; [|lia].
    assert (0 <= shr_m (iter_pos shr_1 n (shr_record_of_loc (Zpos q) l)) /\
            Zpos q < 2 ^ (0 + Zpos n)
                     * (shr_m (iter_pos shr_1 n (shr_record_of_loc (Zpos q) l)) + 1))
      as [H0 H1].
    { apply (iter_pos_inv shr_1
               (fun k z => 0 <= shr_m z /\ Zpos q < 2 ^ k * (shr_m z + 1))).
      - intros k z Hk [Hz0 Hz1]. destruct (shr_1_bounds z Hz0) as [B0 B1].
        split; [exact B0|]. rewrite Z.pow_add_r by lia.
        change (2 ^ 1) with 2. assert (0 < 2 ^ k) by (apply Z.pow_pos_nonneg; lia).
        nia.
      - lia.
      - rewrite shr_record_of_loc_m. simpl. lia. }
    simpl in H1.
    assert (2 ^ Zpos n <= 2 ^ (d - 1)) as Hp by (apply Z.pow_le_mono_r; lia).
    assert (0 < 2 ^ Zpos n) by (apply Z.pow_pos_nonneg; lia).
    nia.
  - rewrite shr_record_of_loc_m. split; [lia | exact He].
Qed.

Lemma shr_fexp_nonneg (m e : Z) (l : location) :
  0 <= m -> 0 <= shr_m (fst (shr_fexp PyFloat.prec PyFloat.emax m e l)).
Proof.
  intros Hm. unfold shr_fexp. apply shr_nonneg. rewrite shr_record_of_loc_m. exact Hm.
Qed.

Lemma binary_round_aux_not_zero (sx : bool) (m e : Z) (l : location) :
  0 < m -> emin PyFloat.prec PyFloat.emax <= e ->
  PyFloat.eqb (binary_round_aux PyFloat.prec PyFloat.emax sx m e l) PyFloat.zero = false.
Proof.
  intros Hm He. unfold binary_round_aux.
  pose proof (shr_fexp_pos m e l Hm He) as H1.
  destruct (shr_fexp PyFloat.prec PyFloat.emax m e l) as [mrs' e'].
  simpl in H1. destruct H1 as [H1 He'].
  pose proof (shr_fexp_pos
                (round_nearest_even (shr_m mrs') (loc_of_shr_record mrs')) e' loc_Exact)
    as H2.
  destruct (shr_fexp PyFloat.prec PyFloat.emax _ e' loc_Exact) as [mrs'' e''].
  simpl in H2.
  assert (0 < shr_m mrs'') as H3.
  { apply H2; [|exact He'].
    pose proof (round_nearest_even_ge (shr_m mrs') (loc_of_shr_record mrs')). lia. }
  destruct (shr_m mrs'') as [|q|q]; try lia.
  destruct (_ <=? _); destruct sx; reflexivity.
Qed.

(** The result of rounding a non-negative mantissa has the sign it was
    given. *)
Lemma binary_round_aux_sign (sx : bool) (m e : Z) (l : location) :
  0 <= m ->
  match binary_round_aux PyFloat.prec PyFloat.emax sx m e l with
  | S754_nan => False
  | S754_zero s | S754_infinity s | S754_finite s _ _ => s = sx
  end.
Proof.
  intros Hm. unfold binary_round_aux.
  pose proof (shr_fexp_nonneg m e l Hm) as H1.
  destruct (shr_fexp PyFloat.prec PyFloat.emax m e l) as [mrs' e'].
  simpl in H1.
  pose proof (shr_fexp_nonneg
                (round_nearest_even (shr_m mrs') (loc_of_shr_record mrs')) e' loc_Exact)
    as H2.
  destruct (shr_fexp PyFloat.prec PyFloat.emax _ e' loc_Exact) as [mrs'' e''].
  simpl in H2.
  assert (0 <= shr_m mrs'') as H3.
  { apply H2. pose proof (round_nearest_even_ge (shr_m mrs') (loc_of_shr_record mrs')).
    lia. }
  destruct (shr_m mrs'') as [|q|q]; try reflexivity; [|lia].
  destruct (_ <=? _); reflexivity.
Qed.

(** The quotient of two positive mantissas is a double that is not a NaN
    and not below zero. *)
Lemma SFdiv_pos_valid (m1 m2 : positive) (e1 e2 : Z) :
  let q := SFdiv PyFloat.prec PyFloat.emax
             (S754_finite false m1 e1) (S754_finite false m2 e2) in
  PyFloat.is_nan q = false /\ PyFloat.leb PyFloat.zero q = true.
Proof.
  cbn [SFdiv xorb]. unfold SFdiv_core_binary.
  set (s := _ - _ - _).
  set (m' := match s with Zpos _ => Z.shiftl (Zpos m1) s | Z0 => Zpos m1 | Zneg _ => 0 end).
  assert (0 <= m') as Hm'.
  { unfold m'. destruct s; try lia. apply Z.shiftl_nonneg. lia. }
  pose proof (Z.div_pos m' (Zpos m2) Hm' eq_refl) as Hq.
  unfold Z.div in Hq.
  destruct (Z.div_eucl m' (Zpos m2)) as [q r].
  pose proof (binary_round_aux_sign false q
                (Z.min (fexp PyFloat.prec PyFloat.emax
                          (Zdigits2 (Zpos m1) + e1 - (Zdigits2 (Zpos m2) + e2)))
                       (e1 - e2))
                (new_location (Zpos m2) r) Hq) as Hs.
  destruct (binary_round_aux _ _ _ _ _ _) as [sg|sg| |sg mz ez];
    try contradiction; subst sg; split; reflexivity.
Qed.

(** [float(n)] of a positive [int] is not zero: the division by [p] cannot
    meet a zero divisor. *)
Lemma of_int_pos_not_zero (n : Z) (y : float) :
  0 < n -> PyFloat.of_int n = Ok y -> PyFloat.eqb y PyFloat.zero = false.
Proof.
  intros Hn. unfold PyFloat.of_int.
  destruct n as [|q|q]; try lia. simpl binary_normalize.
  assert (PyFloat.eqb (binary_round PyFloat.prec PyFloat.emax false q 0) PyFloat.zero
          = false) as Hz.
  { unfold binary_round.
    destruct (shl_align q 0 _) as [mz ez] eqn:Es.
    apply binary_round_aux_not_zero; [lia|].
    unfold shl_align in Es.
    destruct (fexp PyFloat.prec PyFloat.emax (Zpos (digits2_pos q) + 0) - 0) eqn:Ed;
      injection Es as <- <-;
      unfold fexp, emin, PyFloat.prec, PyFloat.emax in *; lia. }
  destruct (binary_round PyFloat.prec PyFloat.emax false q 0);
    intros [= <-]; exact Hz.
Qed.

End Rounding.

(** ** Loops, dictionaries, sorted sets and [min] *)

Section ForEach.

Context {A S : Type}.

(** A loop whose body never raises is a left fold. *)
Lemma for_each_pure (f : S -> A -> S) (body : S -> A -> result S) (xs : list A) :
  (forall s x, In x xs -> body s x = Ok (f s x)) ->
  forall s, Py.for_each xs body s = Ok (fold_left f xs s).
Proof.
  induction xs as [|x xs IH]; intros Hbody s; simpl.
  - reflexivity.
  - rewrite Hbody by (left; reflexivity). simpl.
    apply IH. intros s' y Hy. apply Hbody. right; exact Hy.
Qed.

(** Invariant rule for a loop that ends normally. *)
Lemma for_each_inv (I : S -> Prop) (body : S -> A -> result S) (xs : list A) :
  (forall s x s', In x xs -> I s -> body s x = Ok s' -> I s') ->
  forall s s', I s -> Py.for_each xs body s = Ok s' -> I s'.
Proof.
  induction xs as [|x xs IH]; intros Hbody s s' Hs Hrun; simpl in Hrun.
  - injection Hrun as <-. exact Hs.
  - destruct (body s x) as [s1|e] eqn:Hb; simpl in Hrun; [|discriminate].
    apply (IH (fun s0 y s0' Hy => Hbody s0 y s0' (or_intror Hy)) s1 s').
    + apply (Hbody s x s1); [left; reflexivity | exact Hs | exact Hb].
    + exact Hrun.
Qed.

(** A loop raises only what its body raises. *)
Lemma for_each_raise (body : S -> A -> result S) (xs : list A) :
  forall s e, Py.for_each xs body s = Raise e ->
              exists s' x, In x xs /\ body s' x = Raise e.
Proof.
  induction xs as [|x xs IH]; intros s e Hrun; simpl in Hrun.
  - discriminate.
  - destruct (body s x) as [s1|e1] eqn:Hb; simpl in Hrun.
    + destruct (IH s1 e Hrun) as [s' [y [Hy Hb']]].
      exists s', y. split; [right; exact Hy | exact Hb'].
    + injection Hrun as <-. exists s, x. split; [left; reflexivity | exact Hb].
Qed.

End ForEach.

Section Dict.

Context {K V : Type}.
Variable eqb : K -> K -> bool.
Hypothesis eqb_spec : forall a b, eqb a b = true <-> a = b.

Lemma eqb_refl' (a : K) : eqb a a = true.
Proof. apply eqb_spec. reflexivity. Qed.

Lemma dict_get_set (d : Py.dict K V) (k k' : K) (v : V) :
  Py.dict_get eqb (Py.dict_set eqb d k v) k' =
  if eqb k k' then Some v else Py.dict_get eqb d k'.
Proof.
  induction d as [|[k0 v0] d IH]; simpl.
  - reflexivity.
  - destruct (eqb k0 k) eqn:E0; simpl.
    + apply eqb_spec in E0. subst k0.
      destruct (eqb k k'); reflexivity.
    + destruct (eqb k0 k') eqn:E1.
      * apply eqb_spec in E1. subst k0.
        destruct (eqb k k') eqn:E2; [|reflexivity].
        apply eqb_spec in E2. subst k'. rewrite eqb_refl' in E0. discriminate.
      * exact IH.
Qed.

Lemma dict_get_In (d : Py.dict K V) (k : K) (v : V) :
  Py.dict_get eqb d k = Some v -> In (k, v) d.
Proof.
  induction d as [|[k0 v0] d IH]; simpl; [discriminate|].
  destruct (eqb k0 k) eqn:E.
  - apply eqb_spec in E. subst k0. intros [= ->]. left; reflexivity.
  - intros H. right. apply IH, H.
Qed.

Lemma dict_set_keys (d : Py.dict K V) (k : K) (v : V) :
  map fst (Py.dict_set eqb d k v) =
  if existsb (fun k0 => eqb k0 k) (map fst d) then map fst d else map fst d ++ [k].
Proof.
  induction d as [|[k0 v0] d IH]; simpl.
  - reflexivity.
  - destruct (eqb k0 k) eqn:E; simpl.
    + reflexivity.
    + rewrite IH. destruct (existsb _ _); reflexivity.
Qed.

Lemma dict_set_NoDup (d : Py.dict K V) (k : K) (v : V) :
  NoDup (map fst d) -> NoDup (map fst (Py.dict_set eqb d k v)).
Proof.
  intros Hd. rewrite dict_set_keys.
  destruct (existsb _ _) eqn:E; [exact Hd|].
  apply NoDup_app; [exact Hd | repeat constructor; simpl; tauto |].
  intros x Hx [Hk|[]]. subst x.
  assert (existsb (fun k0 => eqb k0 k) (map fst d) = true) as E'
    by (apply existsb_exists; exists k; split; [exact Hx | apply eqb_refl']).
  congruence.
Qed.

Lemma dict_set_In (d : Py.dict K V) (k : K) (v : V) (k' : K) (v' : V) :
  In (k', v') (Py.dict_set eqb d k v) -> In (k', v') d \/ (k', v') = (k, v).
Proof.
  induction d as [|[k0 v0] d IH]; simpl.
  - intros [H|[]]. right. symmetry. exact H.
  - destruct (eqb k0 k) eqn:E; simpl.
    + apply eqb_spec in E. subst k0.
      intros [H|H]; [right; symmetry; exact H | left; right; exact H].
    + intros [H|H]; [left; left; exact H|].
      destruct (IH H) as [H'|H']; [left; right; exact H' | right; exact H'].
Qed.

End Dict.

Section SortedSet.

Context {A : Type}.
Variable cmp : A -> A -> comparison.
Hypothesis cmp_eq : forall a b, cmp a b = Eq -> a = b.

Lemma insert_sorted_In (x y : A) (l : list A) :
  In y (Py.insert_sorted cmp x l) <-> y = x \/ In y l.
Proof.
  induction l as [|z l IH]; simpl.
  - intuition congruence.
  - destruct (cmp x z) eqn:E; simpl.
    + apply cmp_eq in E. subst z. intuition congruence.
    + intuition congruence.
    + rewrite IH. intuition congruence.
Qed.

Lemma sorted_set_In (x : A) (xs : list A) :
  In x (Py.sorted_set cmp xs) <-> In x xs.
Proof.
  unfold Py.sorted_set.
  induction xs as [|y xs IH]; simpl.
  - tauto.
  - rewrite insert_sorted_In, IH. intuition congruence.
Qed.

(** For a comparison that is a strict order, the result is strictly
    increasing: it is [sorted] of the set of the elements. *)
Hypothesis cmp_antisym : forall a b, cmp b a = CompOpp (cmp a b).
Hypothesis cmp_lt_trans : forall a b c, cmp a b = Lt -> cmp b c = Lt -> cmp a c = Lt.

Lemma insert_sorted_increasing (x : A) (l : list A) :
  StronglySorted (fun a b => cmp a b = Lt) l ->
  StronglySorted (fun a b => cmp a b = Lt) (Py.insert_sorted cmp x l).
Proof.
  induction l as [|y l IH]; intros Hl; simpl.
  - repeat constructor.
  - apply StronglySorted_inv in Hl. destruct Hl as [Hl Hy].
    destruct (cmp x y) eqn:E.
    + constructor; assumption.
    + constructor; [constructor; assumption|].
      constructor; [exact E|].
      rewrite Forall_forall in Hy |- *. intros z Hz.
      apply cmp_lt_trans with y; [exact E | apply Hy, Hz].
    + constructor; [apply IH, Hl|].
      rewrite Forall_forall in Hy |- *. intros z Hz.
      apply insert_sorted_In in Hz. destruct Hz as [->|Hz]; [|apply Hy, Hz].
      rewrite cmp_antisym, E. reflexivity.
Qed.

Lemma sorted_set_increasing (xs : list A) :
  StronglySorted (fun a b => cmp a b = Lt) (Py.sorted_set cmp xs).
Proof.
  unfold Py.sorted_set. induction xs as [|x xs IH]; simpl.
  - constructor.
  - apply insert_sorted_increasing, IH.
Qed.

End SortedSet.

Lemma iters_set_increasing (rows : list BenchRow) :
  StronglySorted Z.lt (Py.sorted_set Z.compare (map iters rows)).
Proof.
  apply (sorted_set_increasing Z.compare Z.compare_eq).
  - intros a b. apply Z.compare_antisym.
  - intros a b c Hab Hbc. change (a < b) in Hab. change (b < c) in Hbc.
    change (a < c). lia.
Qed.

Section Min.

Context {A K : Type}.
Variable ltb : K -> K -> bool.
Variable key : A -> K.

Lemma min_from_In (best : A) (xs : list A) :
  In (Py.min_from ltb key best xs) (best :: xs).
Proof.
  revert best. induction xs as [|x xs IH]; intros best; simpl.
  - left; reflexivity.
  - destruct (IH (if ltb (key x) (key best) then x else best)) as [H|H].
    + destruct (ltb (key x) (key best)); rewrite <- H; tauto.
    + tauto.
Qed.

Lemma py_min_In (xs : list A) (a : A) :
  Py.py_min ltb key xs = Some a -> In a xs.
Proof.
  destruct xs as [|x xs]; simpl; [discriminate|].
  intros [= <-]. apply min_from_In.
Qed.

(** [le] is the order that [ltb] decides on the keys that satisfy [D]. *)
Variable le : K -> K -> Prop.
Variable D : K -> Prop.
Hypothesis le_refl : forall a, D a -> le a a.
Hypothesis le_trans : forall a b c, le a b -> le b c -> le a c.
Hypothesis ltb_le : forall a b, ltb a b = true -> le a b.
Hypothesis nltb_le : forall a b, D a -> D b -> ltb a b = false -> le b a.

Lemma min_from_le (best : A) (xs : list A) :
  Forall (fun x => D (key x)) (best :: xs) ->
  forall x, In x (best :: xs) -> le (key (Py.min_from ltb key best xs)) (key x).
Proof.
  revert best. induction xs as [|y xs IH]; intros best HD x Hx.
  - destruct Hx as [<-|[]]. simpl. apply le_refl. now inversion HD.
  - simpl.
    inversion HD as [|? ? Hb HD']; subst. inversion HD' as [|? ? Hy HD'']; subst.
    set (best' := if ltb (key y) (key best) then y else best).
    assert (D (key best')) as Hb' by (unfold best'; destruct (ltb _ _); assumption).
    assert (le (key best') (key best) /\ le (key best') (key y)) as [L1 L2].
    { unfold best'. destruct (ltb (key y) (key best)) eqn:E.
      - split; [apply ltb_le, E | apply le_refl, Hy].
      - split; [apply le_refl, Hb | apply nltb_le; assumption]. }
    assert (forall z, In z (best' :: xs) ->
                      le (key (Py.min_from ltb key best' xs)) (key z)) as IH'
      by (apply IH; constructor; assumption).
    destruct Hx as [<-|[<-|Hx]].
    + apply le_trans with (key best'); [apply IH'; left; reflexivity | exact L1].
    + apply le_trans with (key best'); [apply IH'; left; reflexivity | exact L2].
    + apply IH'. right; exact Hx.
Qed.

Lemma py_min_le (xs : list A) (a : A) :
  Forall (fun x => D (key x)) xs ->
  Py.py_min ltb key xs = Some a ->
  forall x, In x xs -> le (key a) (key x).
Proof.
  destruct xs as [|y xs]; simpl; [discriminate|].
  intros HD [= <-]. apply min_from_le, HD.
Qed.

End Min.

(** ** The matcher against the declarative reading *)

Lemma strip_prefix_Some (l s s' : string) :
  Re.strip_prefix l s = Some s' -> s = (l ++ s')%string.
Proof.
  revert s. induction l as [|a l IH]; intros s; simpl.
  - intros [= ->]. reflexivity.
  - destruct s as [|b s]; [discriminate|].
    destruct (Ascii.eqb a b) eqn:E; [|discriminate].
    apply Ascii.eqb_eq in E. subst b. intros H. rewrite (IH s H). reflexivity.
Qed.

(** A successful repetition took a run of characters of the class. *)
Lemma rep_sound {A : Type} (c : Re.cclass) (s : string) :
  forall (n : nat) (k : nat -> string -> option A) (res : A),
    Re.rep c s n k = Some res ->
    exists t s', s = (t ++ s')%string /\ Re.all_in c t = true /\
                 k (n + String.length t)%nat s' = Some res.
Proof.
  induction s as [|a s IH]; intros n k res H; simpl in H.
  - exists EmptyString, EmptyString. rewrite Nat.add_0_r. auto.
  - destruct (Re.in_class c a) eqn:Ea.
    + destruct (Re.rep c s (S n) k) as [r|] eqn:Er.
      * injection H as ->. destruct (IH _ _ _ Er) as [t [s' [-> [Ht Hk]]]].
        exists (String a t), s'. simpl. rewrite Ea, Ht.
        rewrite Nat.add_succ_r. auto.
      * exists EmptyString, (String a s). rewrite Nat.add_0_r. auto.
    + exists EmptyString, (String a s). rewrite Nat.add_0_r. auto.
Qed.

(** Every result of the matcher is a match in the declarative reading. *)
Lemma go_sound (r : Re.regex) :
  forall pos s m k res,
    Re.go r pos s m k = Some res ->
    exists pos' s' m', Re.matches r pos s m pos' s' m' /\ k pos' s' m' = Some res.
Proof.
  induction r as [| | |l|c|c|name r IH|r1 IH1 r2 IH2]; intros pos s m k res H;
    simpl in H.
  - exists pos, s, m. simpl. auto.
  - destruct (Nat.eqb pos 0) eqn:E; [|discriminate].
    apply Nat.eqb_eq in E. exists pos, s, m. simpl. auto.
  - destruct (Re.at_end s) eqn:E; [|discriminate].
    exists pos, s, m. simpl. auto.
  - destruct (Re.strip_prefix l s) as [s'|] eqn:E; [|discriminate].
    exists (pos + String.length l)%nat, s', m. simpl.
    split; [|exact H]. split; [exact (strip_prefix_Some _ _ _ E) | auto].
  - destruct s as [|a s]; [discriminate|].
    destruct (Re.in_class c a) eqn:Ea; [|discriminate].
    apply rep_sound in H. destruct H as [t [s' [-> [Ht Hk]]]].
    exists (pos + String.length (String a t))%nat, s', m. split; [|exact Hk].
    simpl. exists (String a t). simpl. rewrite Ea, Ht.
    repeat split. discriminate.
  - apply rep_sound in H. destruct H as [t [s' [-> [Ht Hk]]]].
    exists (pos + (0 + String.length t))%nat, s', m. split; [|exact Hk].
    simpl. exists t. auto.
  - apply IH in H. destruct H as [pos' [s' [m' [Hm Hk]]]].
    exists pos', s', ((name, substring 0 (pos' - pos) s) :: m').
    split; [|exact Hk]. simpl. exists m'. auto.
  - apply IH1 in H. destruct H as [p1 [s1 [m1 [Hm1 H]]]].
    apply IH2 in H. destruct H as [pos' [s' [m' [Hm2 Hk]]]].
    exists pos', s', m'. split; [|exact Hk]. simpl. exists p1, s1, m1. auto.
Qed.

Lemma re_match_sound (r : Re.regex) (s : string) (res : Re.Match) :
  Re.re_match r s = Some res ->
  exists pos' s', Re.matches r 0%nat s [] pos' s' res.
Proof.
  unfold Re.re_match. intros H. apply go_sound in H.
  destruct H as [pos' [s' [m' [Hm [= <-]]]]]. exists pos', s'. exact Hm.
Qed.

(** The matcher misses no match: when some run of the class lets the
    continuation succeed, the greedy repetition succeeds too. *)
Lemma rep_complete {A : Type} (c : Re.cclass) (t : string) :
  forall (s' : string) (n : nat) (k : nat -> string -> option A),
    Re.all_in c t = true ->
    k (n + String.length t)%nat s' <> None ->
    Re.rep c (t ++ s')%string n k <> None.
Proof.
  induction t as [|a t IH]; intros s' n k Ht Hk; simpl in *.
  - rewrite Nat.add_0_r in Hk.
    destruct s' as [|b s']; simpl; [exact Hk|].
    destruct (Re.in_class c b); [|exact Hk].
    destruct (Re.rep c s' (S n) k); [discriminate | exact Hk].
  - apply andb_true_iff in Ht. destruct Ht as [Ha Ht]. rewrite Ha.
    rewrite Nat.add_succ_r in Hk.
    pose proof (IH s' (S n) k Ht Hk) as H.
    destruct (Re.rep c (t ++ s')%string (S n) k); [discriminate | congruence].
Qed.

Lemma strip_prefix_app (l s : string) : Re.strip_prefix l (l ++ s)%string = Some s.
Proof.
  induction l as [|a l IH]; simpl.
  - reflexivity.
  - rewrite Ascii.eqb_refl. exact IH.
Qed.

Lemma go_complete (r : Re.regex) :
  forall pos s m k pos' s' m',
    Re.matches r pos s m pos' s' m' ->
    k pos' s' m' <> None ->
    Re.go r pos s m k <> None.
Proof.
  induction r as [| | |l|c|c|name r IH|r1 IH1 r2 IH2];
    intros pos s m k pos' s' m' Hm Hk; simpl in Hm |- *.
  - destruct Hm as [-> [-> ->]]. exact Hk.
  - destruct Hm as [-> [-> [-> ->]]]. exact Hk.
  - destruct Hm as [He [-> [-> ->]]]. rewrite He. exact Hk.
  - destruct Hm as [-> [-> ->]]. rewrite strip_prefix_app. exact Hk.
  - destruct Hm as [t [Hne [Ht [-> [-> ->]]]]].
    destruct t as [|a t]; [congruence|]. simpl in Ht |- *.
    apply andb_true_iff in Ht. destruct Ht as [Ha Ht]. rewrite Ha.
    apply rep_complete; [exact Ht|]. simpl in Hk. exact Hk.
  - destruct Hm as [t [Ht [-> [-> ->]]]].
    apply rep_complete; [exact Ht | exact Hk].
  - destruct Hm as [m'' [Hm ->]].
    apply (IH pos s m _ pos' s' m'' Hm). exact Hk.
  - destruct Hm as [p1 [s1 [m1 [Hm1 Hm2]]]].
    apply (IH1 pos s m _ p1 s1 m1 Hm1).
    apply (IH2 p1 s1 m1 k pos' s' m' Hm2 Hk).
Qed.

(** [r.match(s)] succeeds exactly when [s] has a match of [r] at its
    start. *)
Lemma re_match_iff (r : Re.regex) (s : string) :
  Re.re_match r s <> None <-> exists pos' s' m', Re.matches r 0%nat s [] pos' s' m'.
Proof.
  split.
  - destruct (Re.re_match r s) as [res|] eqn:E; [|congruence].
    intros _. destruct (re_match_sound r s res E) as [pos' [s' H]].
    exists pos', s', res. exact H.
  - intros [pos' [s' [m' H]]]. unfold Re.re_match.
    apply (go_complete r 0%nat s [] _ pos' s' m' H). discriminate.
Qed.

Lemma substring_prefix (t s : string) (pos : nat) :
  substring 0 (pos + String.length t - pos) (t ++ s)%string = t.
Proof.
  replace (pos + String.length t - pos)%nat with (String.length t) by lia.
  induction t as [|a t IH]; simpl.
  - destruct s; reflexivity.
  - rewrite IH. reflexivity.
Qed.

(** [int()] accepts every non-empty run of digits. *)
Lemma digits_value_digits (t : string) :
  Re.all_in Re.Digit t = true -> forall acc, exists z, Text.digits_value t acc = Some z.
Proof.
  induction t as [|a t IH]; simpl; intros H acc.
  - exists acc. reflexivity.
  - apply andb_true_iff in H. destruct H as [Ha Ht]. rewrite Ha. apply IH, Ht.
Qed.

Lemma py_int_raise (t : string) (e : exn) : Text.py_int t = Raise e -> e = ValueError.
Proof.
  unfold Text.py_int. destruct t as [|a t]; [congruence|].
  destruct (Text.digits_value _ 0); [|congruence].
  destruct (Text.too_long _); congruence.
Qed.

Lemma py_int_too_long (t : string) :
  Text.too_long t = true -> Text.py_int t = Raise ValueError.
Proof.
  intros H. unfold Text.py_int. destruct t as [|a t]; [reflexivity|].
  rewrite H. destruct (Text.digits_value _ 0); reflexivity.
Qed.

(** On a non-empty run of digits [int()] gives its value, unless the run
    is longer than the bound. *)
Lemma py_int_digits (t : string) :
  t <> EmptyString -> Re.all_in Re.Digit t = true ->
  (Text.too_long t = true /\ Text.py_int t = Raise ValueError)
  \/ (Text.too_long t = false /\ exists z, Text.py_int t = Ok z).
Proof.
  intros Hne Ht. destruct (Text.too_long t) eqn:El.
  - left. split; [reflexivity | apply py_int_too_long, El].
  - right. split; [reflexivity|]. unfold Text.py_int.
    destruct (digits_value_digits t Ht 0) as [z Hz].
    destruct t; [congruence|]. rewrite Hz, El. exists z. reflexivity.
Qed.

Lemma py_float_raise (t : string) (e : exn) :
  Text.py_float t = Raise e -> e = ValueError.
Proof.
  unfold Text.py_float. destruct (Text.split_dot _) as [ip fp].
  destruct (_ + _)%nat; [congruence|].
  destruct (Text.digits_value _ 0); congruence.
Qed.

(** The groups of a match of [BENCH_RE]: the four integer fields are
    non-empty runs of digits, the time is a non-empty run of digits and
    dots. *)
Lemma BENCH_RE_groups (s : string) (m : Re.Match) :
  Re.re_match BENCH_RE s = Some m ->
  (forall name, In name ["n_bats"; "iters"; "procs"; "threads"] ->
                Re.group m name <> EmptyString /\
                Re.all_in Re.Digit (Re.group m name) = true) /\
  Re.group m "time_s" <> EmptyString /\
  Re.all_in Re.DigitOrDot (Re.group m "time_s") = true /\
  Re.group m "version" <> EmptyString /\
  Re.all_in Re.NonSpace (Re.group m "version") = true.
Proof.
  intros H. apply re_match_sound in H. destruct H as [pos' [s' H]].
  cbn [BENCH_RE Re.seq Re.matches] in H.
  repeat match goal with
         | H : exists _, _ |- _ => destruct H
         | H : _ /\ _ |- _ => destruct H
         end.
  subst. rewrite !substring_prefix. cbn [Re.group String.eqb Ascii.eqb Bool.eqb].
  split; [|repeat split; assumption].
  intros name [<-|[<-|[<-|[<-|[]]]]];
    cbn [Re.group String.eqb Ascii.eqb Bool.eqb]; split; assumption.
Qed.

(** What the loop body does with a line: it skips it, it gives a record, or
    the constructor of the record raises [ValueError] on a rejected field
    of a matching line. *)
Lemma parse_line_cases (line : string) :
  (Re.re_match BENCH_RE (Text.strip line) = None /\ parse_line line = Ok None)
  \/ (exists row, parse_line line = Ok (Some row))
  \/ (exists m, Re.re_match BENCH_RE (Text.strip line) = Some m /\
                rejected m /\
                parse_line line = Raise ValueError).
Proof.
  unfold parse_line.
  destruct (Re.re_match BENCH_RE (Text.strip line)) as [m|] eqn:Em; [|left; auto].
  right. destruct (BENCH_RE_groups _ _ Em) as [Hint _].
  assert (forall name, In name ["n_bats"; "iters"; "procs"; "threads"] ->
            (Text.too_long (Re.group m name) = true /\
             Text.py_int (Re.group m name) = Raise ValueError)
            \/ exists z, Text.py_int (Re.group m name) = Ok z) as Hf.
  { intros name Hn. destruct (Hint name Hn) as [H1 H2].
    destruct (py_int_digits _ H1 H2) as [H|[_ H]]; [left; exact H | right; exact H]. }
  assert (forall name, In name ["n_bats"; "iters"; "procs"; "threads"] ->
            Text.too_long (Re.group m name) = true -> rejected m) as Hrej.
  { intros name Hn Hl. left. exists name. split; assumption. }
  destruct (Hf "n_bats") as [[L ->]|[n ->]]; [simpl; tauto | |].
  { right. exists m. split; [reflexivity|]. split; [|reflexivity].
    apply (Hrej "n_bats"); [simpl; tauto | exact L]. }
  destruct (Hf "iters") as [[L ->]|[i ->]]; [simpl; tauto | |].
  { right. exists m. split; [reflexivity|]. split; [|reflexivity].
    apply (Hrej "iters"); [simpl; tauto | exact L]. }
  destruct (Hf "procs") as [[L ->]|[pr ->]]; [simpl; tauto | |].
  { right. exists m. split; [reflexivity|]. split; [|reflexivity].
    apply (Hrej "procs"); [simpl; tauto | exact L]. }
  destruct (Hf "threads") as [[L ->]|[th ->]]; [simpl; tauto | |].
  { right. exists m. split; [reflexivity|]. split; [|reflexivity].
    apply (Hrej "threads"); [simpl; tauto | exact L]. }
  simpl.
  destruct (Text.py_float (Re.group m "time_s")) as [t|e] eqn:Et; simpl.
  - left. eexists. reflexivity.
  - right. exists m. pose proof (py_float_raise _ _ Et) as He. subst e.
    split; [reflexivity|]. split; [right; exact Et | reflexivity].
Qed.

(** [parse_lines] raises nothing but [ValueError], on a rejected field of a
    line that matches [BENCH_RE]. *)
Lemma parse_loop_raise (lines : list string) :
  forall rows e,
    parse_loop lines rows = Raise e ->
    e = ValueError /\
    exists line m, In line lines /\
                   Re.re_match BENCH_RE (Text.strip line) = Some m /\
                   rejected m.
Proof.
  induction lines as [|line lines IH]; intros rows e H; simpl in H; [discriminate|].
  destruct (parse_line_cases line) as [[_ Hl]|[[row Hl]|[m [Hm [Hf Hl]]]]];
    rewrite Hl in H; simpl in H.
  - destruct (IH _ _ H) as [He [l [m [Hin Hrest]]]].
    split; [exact He|]. exists l, m. split; [right; exact Hin | exact Hrest].
  - destruct (IH _ _ H) as [He [l [m [Hin Hrest]]]].
    split; [exact He|]. exists l, m. split; [right; exact Hin | exact Hrest].
  - injection H as <-. split; [reflexivity|].
    exists line, m. split; [left; reflexivity | auto].
Qed.

(** ** The parser: what it returns and what it raises *)

Lemma decimal_to_float_valid (n : Z) (k : nat) : valid_time (Text.decimal_to_float n k).
Proof.
  unfold Text.decimal_to_float.
  destruct n as [|m|m]; try (split; reflexivity).
  apply SFdiv_pos_valid.
Qed.

Lemma py_float_valid (s : string) (t : float) :
  Text.py_float s = Ok t -> valid_time t.
Proof.
  unfold Text.py_float.
  destruct (Text.split_dot s) as [i f].
  destruct (_ + _)%nat; [discriminate|].
  destruct (Text.digits_value _ 0) as [z|]; [|discriminate].
  intros [= <-]. apply decimal_to_float_valid.
Qed.

Lemma parse_line_valid (line : string) (row : BenchRow) :
  parse_line line = Ok (Some row) -> valid_time (time_s row).
Proof.
  unfold parse_line.
  destruct (Re.re_match BENCH_RE (Text.strip line)) as [m|]; [|discriminate].
  destruct (Text.py_int (Re.group m "n_bats")); simpl; [|discriminate].
  destruct (Text.py_int (Re.group m "iters")); simpl; [|discriminate].
  destruct (Text.py_int (Re.group m "procs")); simpl; [|discriminate].
  destruct (Text.py_int (Re.group m "threads")); simpl; [|discriminate].
  destruct (Text.py_float (Re.group m "time_s")) as [t|] eqn:Et; simpl; [|discriminate].
  intros [= <-]. simpl. exact (py_float_valid _ _ Et).
Qed.

Lemma parse_loop_valid (lines : list string) :
  forall rows rows',
    Forall (fun r => valid_time (time_s r)) rows ->
    parse_loop lines rows = Ok rows' ->
    Forall (fun r => valid_time (time_s r)) rows'.
Proof.
  induction lines as [|line lines IH]; intros rows rows' Hrows Hrun; simpl in Hrun.
  - injection Hrun as <-. exact Hrows.
  - destruct (parse_line line) as [[row|]|e] eqn:El; simpl in Hrun; try discriminate.
    + apply (IH (rows ++ [row]) rows'); [|exact Hrun].
      apply Forall_app. split; [exact Hrows|].
      constructor; [exact (parse_line_valid _ _ El) | constructor].
    + exact (IH _ _ Hrows Hrun).
Qed.

(** No record that the parser returns has a NaN or a negative time. *)
Lemma parse_lines_valid (lines : list string) (rows : list BenchRow) :
  parse_lines lines = Ok rows -> Forall (fun r => valid_time (time_s r)) rows.
Proof. apply parse_loop_valid. constructor. Qed.

(** A line that [BENCH_RE] does not match is skipped. *)
Lemma parse_line_skip (line : string) :
  Re.re_match BENCH_RE (Text.strip line) = None -> parse_line line = Ok None.
Proof. unfold parse_line. intros ->. reflexivity. Qed.

Lemma parse_loop_skip (lines : list string) (rows : list BenchRow) :
  Forall (fun line => Re.re_match BENCH_RE (Text.strip line) = None) lines ->
  parse_loop lines rows = Ok rows.
Proof.
  induction 1 as [|line lines Hline _ IH]; simpl.
  - reflexivity.
  - rewrite (parse_line_skip line Hline). simpl. exact IH.
Qed.

(** A text without a matching line gives no record and no error. *)
Lemma parse_lines_unmatched (lines : list string) :
  Forall (fun line => Re.re_match BENCH_RE (Text.strip line) = None) lines ->
  parse_lines lines = Ok [].
Proof. apply parse_loop_skip. Qed.

(** The line of the specification with [n_bats=abc] is skipped. *)
Example parse_lines_skips_non_numeric : parse_lines unmatched_lines = Ok [].
Proof. vm_compute. reflexivity. Qed.

(** C1 does not hold of the code.  The line
    [BENCH version=mpi n_bats=1 iters=1 procs=1 threads=1 time_s=1.2.3]
    matches [BENCH_RE], whose [time_s] group is the class of digits and
    dots, and [float("1.2.3")] raises [ValueError]: [parse_lines] raises
    instead of skipping the line. *)
Theorem parse_lines_raises_on_dotted_time :
  Re.re_match BENCH_RE (Text.strip (hd "" dotted_time_lines)) <> None /\
  parse_lines dotted_time_lines = Raise ValueError.
Proof.
  split; [vm_compute; discriminate | vm_compute; reflexivity].
Qed.

Example parse_scenario_A : parse_lines scenario_A_lines = Ok scenario_A.
Proof. vm_compute. reflexivity. Qed.

Example parse_scenario_B : parse_lines scenario_B_lines = Ok scenario_B.
Proof. vm_compute. reflexivity. Qed.

Example parse_scenario_C : parse_lines scenario_C_lines = Ok scenario_C.
Proof. vm_compute. reflexivity. Qed.

Example parse_scenario_D : parse_lines scenario_D_lines = Ok scenario_D.
Proof. vm_compute. reflexivity. Qed.

Example parse_zero_time : parse_lines zero_time_lines = Ok zero_time.
Proof. vm_compute. reflexivity. Qed.

(** [parse_lines] raises nothing but [ValueError], on a rejected field of a
    matching line; with no such line it returns its records. *)
Lemma parse_lines_raise (lines : list string) (e : exn) :
  parse_lines lines = Raise e ->
  e = ValueError /\
  exists line m, In line lines /\
                 Re.re_match BENCH_RE (Text.strip line) = Some m /\
                 rejected m.
Proof. apply parse_loop_raise. Qed.

Lemma parse_lines_total (lines : list string) :
  (forall line m, In line lines ->
                  Re.re_match BENCH_RE (Text.strip line) = Some m ->
                  ~ rejected m) ->
  exists rows, parse_lines lines = Ok rows.
Proof.
  intros H. destruct (parse_lines lines) as [rows|e] eqn:E; [eexists; reflexivity|].
  apply parse_lines_raise in E. destruct E as [_ [line [m [Hin [Hm Hf]]]]].
  destruct (H line m Hin Hm Hf).
Qed.

(** ** Decidable equalities of the keys *)

Lemma pair_eqb_spec (a b : Z * Z) : pair_eqb a b = true <-> a = b.
Proof.
  destruct a as [a1 a2], b as [b1 b2]. unfold pair_eqb. simpl.
  rewrite andb_true_iff, !Z.eqb_eq. split.
  - intros [-> ->]. reflexivity.
  - intros [= -> ->]. split; reflexivity.
Qed.

Lemma key_eqb_spec (a b : string * string * Z * Z * Z * Z) :
  Metric.key_eqb a b = true <-> a = b.
Proof.
  destruct a as [[[[[m1 v1] n1] i1] p1] t1], b as [[[[[m2 v2] n2] i2] p2] t2].
  unfold Metric.key_eqb.
  rewrite !andb_true_iff, !Z.eqb_eq, !String.eqb_eq. split.
  - intros [[[[[-> ->] ->] ->] ->] ->]. reflexivity.
  - intros [= -> -> -> -> -> ->]. repeat split.
Qed.

Lemma pair_compare_eq (a b : Z * Z) : pair_compare a b = Eq -> a = b.
Proof.
  destruct a as [a1 a2], b as [b1 b2]. unfold pair_compare. simpl.
  destruct (Z.compare_spec a1 b1); try discriminate.
  destruct (Z.compare_spec a2 b2); try discriminate.
  congruence.
Qed.

Lemma Z_compare_eq (a b : Z) : Z.compare a b = Eq -> a = b.
Proof. apply Z.compare_eq. Qed.

Lemma string_compare_eq (a b : string) : String.compare a b = Eq -> a = b.
Proof. apply String.compare_eq_iff. Qed.

(** ** The strong-scaling pass *)

Lemma speedup_of_ok (t time : float) : speedup_of t time = Ok (speedup_val t time).
Proof.
  unfold speedup_of, speedup_val, PyFloat.truediv.
  destruct (PyFloat.gtb time PyFloat.zero) eqn:E; [|reflexivity].
  rewrite (gtb_zero_not_eqb _ E). reflexivity.
Qed.

Lemma seq_in_group_true (n it : Z) (r : BenchRow) :
  seq_in_group n it r = true <->
  is_sequential r = true /\ n_bats r = n /\ iters r = it.
Proof.
  unfold seq_in_group. rewrite !andb_true_iff, !Z.eqb_eq. tauto.
Qed.

(** [find_baseline] returns the time of a sequential record of the group. *)
Lemma find_baseline_Ok (rows : list BenchRow) (n it : Z) (t : float) :
  find_baseline rows n it = Ok t ->
  exists r, In r rows /\ seq_in_group n it r = true /\ time_s r = t.
Proof.
  unfold find_baseline. fold (seq_in_group n it).
  destruct (Py.py_min _ _ _) as [t'|] eqn:E; [|discriminate].
  intros [= <-]. apply py_min_In in E. apply in_map_iff in E.
  destruct E as [r [Hr Hin]]. apply filter_In in Hin.
  exists r. tauto.
Qed.

(** It raises [SystemExit] exactly when the group has no sequential
    record, and never raises anything else. *)
Lemma find_baseline_Raise (rows : list BenchRow) (n it : Z) (e : exn) :
  find_baseline rows n it = Raise e ->
  (exists msg, e = SystemExit msg) /\
  forall r, In r rows -> seq_in_group n it r = false.
Proof.
  unfold find_baseline. fold (seq_in_group n it).
  destruct (filter (seq_in_group n it) rows) as [|r0 l] eqn:E; simpl; [|discriminate].
  intros [= <-]. split; [eexists; reflexivity|].
  intros r Hr. destruct (seq_in_group n it r) eqn:Hs; [|reflexivity].
  assert (In r (filter (seq_in_group n it) rows)) as H by (apply filter_In; tauto).
  rewrite E in H. destruct H.
Qed.

Lemma find_baseline_total (rows : list BenchRow) (n it : Z) :
  (exists r, In r rows /\ seq_in_group n it r = true) ->
  exists t, find_baseline rows n it = Ok t.
Proof.
  intros [r [Hr Hs]].
  destruct (find_baseline rows n it) as [t|e] eqn:E; [eexists; reflexivity|].
  apply find_baseline_Raise in E. destruct E as [_ E].
  rewrite (E r Hr) in Hs. discriminate.
Qed.

Lemma find_baseline_Ok_iff (rows : list BenchRow) (n it : Z) :
  (exists t, find_baseline rows n it = Ok t) <->
  existsb (seq_in_group n it) rows = true.
Proof.
  rewrite existsb_exists. split.
  - intros [t Ht]. apply find_baseline_Ok in Ht.
    destruct Ht as [r [Hr [Hs _]]]. exists r. auto.
  - intros [r [Hr Hs]]. apply find_baseline_total. exists r. auto.
Qed.

Lemma has_baseline_iff (rows : list BenchRow) (bl : Py.dict (Z * Z) float)
    (r : BenchRow) :
  (forall key, Py.dict_get pair_eqb bl key = baseline_entry rows key) ->
  has_baseline bl r = existsb (seq_in_group (n_bats r) (iters r)) rows.
Proof.
  intros Hbl. unfold has_baseline. rewrite Hbl. unfold baseline_entry. simpl.
  destruct (find_baseline rows (n_bats r) (iters r)) as [t|e] eqn:E.
  - symmetry. apply find_baseline_Ok_iff. exists t. exact E.
  - destruct (existsb _ rows) eqn:Ex; [|reflexivity].
    apply find_baseline_Ok_iff in Ex. destruct Ex as [t Ht]. congruence.
Qed.

Lemma baselines_fold_get (rows : list BenchRow) (sizes : list (Z * Z)) :
  forall (d : Py.dict (Z * Z) float) (key : Z * Z),
    Py.dict_get pair_eqb (fold_left (baselines_step rows) sizes d) key =
    match (if existsb (pair_eqb key) sizes then baseline_entry rows key else None) with
    | Some t => Some t
    | None => Py.dict_get pair_eqb d key
    end.
Proof.
  induction sizes as [|s sizes IH]; intros d key; simpl.
  - reflexivity.
  - rewrite IH. unfold baselines_step.
    destruct (pair_eqb key s) eqn:Es; simpl.
    + apply pair_eqb_spec in Es. subst s.
      destruct (baseline_entry rows key) as [t|] eqn:Eb.
      * destruct (existsb _ _); [reflexivity|].
        rewrite (dict_get_set pair_eqb pair_eqb_spec).
        rewrite (proj2 (pair_eqb_spec key key) eq_refl). reflexivity.
      * destruct (existsb _ _); reflexivity.
    + destruct (existsb (pair_eqb key) sizes) eqn:Ex.
      * destruct (baseline_entry rows key); [reflexivity|].
        destruct (baseline_entry rows s); [|reflexivity].
        rewrite (dict_get_set pair_eqb pair_eqb_spec).
        destruct (pair_eqb s key) eqn:Es'; [|reflexivity].
        apply pair_eqb_spec in Es'. subst s.
        rewrite (proj2 (pair_eqb_spec key key) eq_refl) in Es. discriminate.
      * destruct (baseline_entry rows s); [|reflexivity].
        rewrite (dict_get_set pair_eqb pair_eqb_spec).
        destruct (pair_eqb s key) eqn:Es'; [|reflexivity].
        apply pair_eqb_spec in Es'. subst s.
        rewrite (proj2 (pair_eqb_spec key key) eq_refl) in Es. discriminate.
Qed.

(** The first loop never raises, and [baselines] maps a size to the result
    of [find_baseline] when there is one. *)
Lemma strong_baselines_spec (rows : list BenchRow) :
  exists baselines,
    strong_baselines rows = Ok baselines /\
    forall key, Py.dict_get pair_eqb baselines key = baseline_entry rows key.
Proof.
  unfold strong_baselines.
  set (sizes := Py.sorted_set pair_compare (map (fun r => (n_bats r, iters r)) rows)).
  rewrite (for_each_pure (baselines_step rows)).
  - eexists. split; [reflexivity|].
    intros key. rewrite baselines_fold_get. simpl.
    destruct (existsb (pair_eqb key) sizes) eqn:Ex.
    + destruct (baseline_entry rows key); reflexivity.
    + unfold baseline_entry.
      destruct (find_baseline rows (fst key) (snd key)) as [t|e] eqn:Ef; [|reflexivity].
      exfalso. apply find_baseline_Ok in Ef. destruct Ef as [r [Hr [Hs _]]].
      apply seq_in_group_true in Hs. destruct Hs as [_ [Hn Hi]].
      assert (existsb (pair_eqb key) sizes = true) as Ex'; [|congruence].
      apply existsb_exists. exists key. split; [|apply pair_eqb_spec; reflexivity].
      apply (sorted_set_In pair_compare pair_compare_eq).
      apply in_map_iff. exists r. split; [|exact Hr].
      destruct key; simpl in *; congruence.
  - intros d [n it] _. unfold baselines_step, baseline_entry. simpl.
    destruct (find_baseline rows n it) as [t|e] eqn:Ef; [reflexivity|].
    apply find_baseline_Raise in Ef. destruct Ef as [[msg ->] _]. reflexivity.
Qed.

Lemma efficiency_of_Ok (s : float) (par : Z) (eff : float) :
  efficiency_of s par = Ok eff ->
  (0 < par -> exists y, PyFloat.of_int par = Ok y /\
                        eff = SFdiv PyFloat.prec PyFloat.emax s y) /\
  (par <= 0 -> eff = PyFloat.zero).
Proof.
  unfold efficiency_of, PyFloat.truediv_int, PyFloat.truediv.
  destruct (0 <? par) eqn:E.
  - apply Z.ltb_lt in E. intros H. split; [|lia]. intros _.
    destruct (PyFloat.of_int par) as [y|e]; simpl in H; [|discriminate].
    exists y. split; [reflexivity|].
    destruct (PyFloat.eqb y PyFloat.zero); [discriminate|].
    injection H as <-. reflexivity.
  - apply Z.ltb_ge in E. intros [= <-]. split; [lia | reflexivity].
Qed.

(** The division by [p] raises nothing but [OverflowError]. *)
Lemma efficiency_of_overflow (s : float) (par : Z) (e : exn) :
  efficiency_of s par = Raise e -> e = OverflowError.
Proof.
  unfold efficiency_of, PyFloat.truediv_int, PyFloat.truediv.
  destruct (0 <? par) eqn:E; [|discriminate].
  apply Z.ltb_lt in E.
  destruct (PyFloat.of_int par) as [y|e'] eqn:Ey; simpl.
  - rewrite (of_int_pos_not_zero par y E Ey). discriminate.
  - intros [= <-]. unfold PyFloat.of_int in Ey.
    destruct (binary_normalize _ _ _ _ _); try discriminate.
    injection Ey as <-. reflexivity.
Qed.

Lemma strong_step_Ok (rows : list BenchRow) (baselines : Py.dict (Z * Z) float)
    (out out' : list Metric.t) (r : BenchRow) :
  (forall key, Py.dict_get pair_eqb baselines key = baseline_entry rows key) ->
  In r rows ->
  strong_step baselines out r = Ok out' ->
  out' = out \/ exists m, strong_metric_of rows m /\ out' = out ++ [m].
Proof.
  intros Hbl Hr. unfold strong_step. rewrite Hbl. unfold baseline_entry. simpl.
  destruct (find_baseline rows (n_bats r) (iters r)) as [t1|e] eqn:Ef.
  - rewrite speedup_of_ok. simpl.
    destruct (efficiency_of _ _) as [eff|e] eqn:Ee; simpl; [|discriminate].
    intros [= <-]. right. eexists. split; [|reflexivity].
    exists r, t1. simpl. repeat split; assumption.
  - intros [= <-]. left; reflexivity.
Qed.

(** Every metric of the strong table comes from a record whose size has a
    baseline. *)
Lemma strong_metrics_sound (rows : list BenchRow) (ms : list Metric.t) :
  _strong_metrics rows = Ok ms -> Forall (strong_metric_of rows) ms.
Proof.
  unfold _strong_metrics.
  destruct (strong_baselines_spec rows) as [bl [-> Hbl]]. simpl.
  apply (for_each_inv (Forall (strong_metric_of rows))); [|constructor].
  intros out r out' Hr Hout Hstep.
  destruct (strong_step_Ok rows bl out out' r Hbl Hr Hstep) as [->|[m [Hm ->]]].
  - exact Hout.
  - apply Forall_app. split; [exact Hout | repeat constructor; exact Hm].
Qed.

(** The second loop reports the records that have a baseline, one metric
    each, in the order of the input. *)
Lemma strong_loop_rows (bl : Py.dict (Z * Z) float) (rows : list BenchRow) :
  forall out ms,
    Py.for_each rows (strong_step bl) out = Ok ms ->
    map row_of_metric ms = map row_of_metric out ++ filter (has_baseline bl) rows.
Proof.
  induction rows as [|r rows IH]; intros out ms H; simpl in H.
  - injection H as <-. simpl. rewrite app_nil_r. reflexivity.
  - simpl. unfold has_baseline at 1.
    unfold strong_step at 1 in H.
    destruct (Py.dict_get pair_eqb bl (n_bats r, iters r)) as [t1|].
    + rewrite speedup_of_ok in H. simpl in H.
      destruct (efficiency_of _ _) as [eff|e]; simpl in H; [|discriminate].
      rewrite (IH _ _ H), map_app. simpl. rewrite <- app_assoc.
      destruct r; reflexivity.
    + simpl in H. exact (IH _ _ H).
Qed.

Lemma strong_metrics_rows (rows : list BenchRow) (ms : list Metric.t) :
  _strong_metrics rows = Ok ms ->
  map row_of_metric ms
  = filter (fun r => match find_baseline rows (n_bats r) (iters r) with
                     | Ok _ => true
                     | Raise _ => false
                     end)
           rows.
Proof.
  unfold _strong_metrics.
  destruct (strong_baselines_spec rows) as [bl [-> Hbl]]. simpl.
  intros H. rewrite (strong_loop_rows bl rows [] ms H). simpl.
  apply filter_ext. intros r. unfold has_baseline. rewrite Hbl.
  unfold baseline_entry. simpl.
  destruct (find_baseline rows (n_bats r) (iters r)); reflexivity.
Qed.

(** The strong pass raises nothing but [OverflowError]. *)
Lemma strong_metrics_overflow (rows : list BenchRow) (e : exn) :
  _strong_metrics rows = Raise e -> e = OverflowError.
Proof.
  unfold _strong_metrics.
  destruct (strong_baselines_spec rows) as [bl [-> Hbl]]. simpl.
  intros Hrun. apply for_each_raise in Hrun.
  destruct Hrun as [out [r [_ Hstep]]]. unfold strong_step in Hstep.
  destruct (Py.dict_get _ _ _); [|discriminate].
  rewrite speedup_of_ok in Hstep. simpl in Hstep.
  destruct (efficiency_of _ _) as [eff|e'] eqn:Ee; simpl in Hstep; [discriminate|].
  injection Hstep as <-. exact (efficiency_of_overflow _ _ _ Ee).
Qed.

(** Records whose size has no entry in [baselines] do not count in the
    second loop. *)
Lemma strong_loop_filter (bl bl' : Py.dict (Z * Z) float) (g : BenchRow -> bool)
    (rows : list BenchRow) :
  (forall r, In r rows -> g r = true ->
             Py.dict_get pair_eqb bl (n_bats r, iters r)
             = Py.dict_get pair_eqb bl' (n_bats r, iters r)) ->
  (forall r, In r rows -> g r = false ->
             Py.dict_get pair_eqb bl (n_bats r, iters r) = None) ->
  forall out,
    Py.for_each rows (strong_step bl) out
    = Py.for_each (filter g rows) (strong_step bl') out.
Proof.
  induction rows as [|r rows IH]; intros Hkeep Hdrop out; simpl.
  - reflexivity.
  - assert (forall out0, Py.for_each rows (strong_step bl) out0
                         = Py.for_each (filter g rows) (strong_step bl') out0) as IH'.
    { apply IH.
      - intros r' Hr'. apply Hkeep. right; exact Hr'.
      - intros r' Hr'. apply Hdrop. right; exact Hr'. }
    destruct (g r) eqn:Eg; simpl.
    + assert (strong_step bl out r = strong_step bl' out r) as ->.
      { unfold strong_step. rewrite (Hkeep r (or_introl eq_refl) Eg). reflexivity. }
      destruct (strong_step bl' out r); simpl; [apply IH' | reflexivity].
    + unfold strong_step at 1. rewrite (Hdrop r (or_introl eq_refl) Eg). simpl.
      apply IH'.
Qed.

Lemma filter_filter_absorb {A : Type} (f g : A -> bool) (l : list A) :
  (forall x, In x l -> f x = true -> g x = true) ->
  filter f (filter g l) = filter f l.
Proof.
  induction l as [|x l IH]; intros H; simpl.
  - reflexivity.
  - assert (filter f (filter g l) = filter f l) as IH'
      by (apply IH; intros y Hy; apply H; right; exact Hy).
    destruct (g x) eqn:Eg; simpl.
    + rewrite IH'. reflexivity.
    + destruct (f x) eqn:Ef; [|exact IH'].
      rewrite (H x (or_introl eq_refl) Ef) in Eg. discriminate.
Qed.

(** Removing the records of one group leaves the baselines of the other
    groups as they were. *)
Lemma find_baseline_other_group (rows : list BenchRow) (n it n' it' : Z) :
  (n', it') <> (n, it) ->
  find_baseline (filter (fun r => negb (in_group n it r)) rows) n' it'
  = find_baseline rows n' it'.
Proof.
  intros Hne. unfold find_baseline. fold (seq_in_group n' it').
  rewrite filter_filter_absorb; [reflexivity|].
  intros r _ Hs. apply seq_in_group_true in Hs. destruct Hs as [_ [Hn Hi]].
  unfold in_group. destruct (pair_eqb _ _) eqn:E; [|reflexivity].
  apply pair_eqb_spec in E. exfalso. apply Hne. congruence.
Qed.

(** C8: a group [(n, it)] without a sequential record makes [find_baseline]
    raise [SystemExit], which the strong pass absorbs: the pass behaves as
    on the input without that group (the other groups give what they give
    alone), its result holds no metric of the group, and it never ends with
    [SystemExit]. *)
Theorem strong_group_without_baseline_dropped (rows : list BenchRow) (n it : Z) :
  (forall r, In r rows -> n_bats r = n -> iters r = it -> is_sequential r = false) ->
  (exists msg, find_baseline rows n it = Raise (SystemExit msg)) /\
  _strong_metrics rows
  = _strong_metrics (filter (fun r => negb (in_group n it r)) rows) /\
  (forall ms m, _strong_metrics rows = Ok ms -> In m ms ->
                ~ (Metric.n_bats m = n /\ Metric.iters m = it)) /\
  (forall msg, _strong_metrics rows <> Raise (SystemExit msg)).
Proof.
  intros Hnoseq.
  assert (forall r, In r rows -> seq_in_group n it r = false) as Hns.
  { intros r Hr. destruct (seq_in_group n it r) eqn:E; [|reflexivity].
    apply seq_in_group_true in E. destruct E as [Hs [Hn Hi]].
    rewrite (Hnoseq r Hr Hn Hi) in Hs. discriminate. }
  assert (exists msg, find_baseline rows n it = Raise (SystemExit msg)) as Hfb.
  { destruct (find_baseline rows n it) as [t|e] eqn:Ef.
    - apply find_baseline_Ok in Ef. destruct Ef as [r [Hr [Hs _]]].
      rewrite (Hns r Hr) in Hs. discriminate.
    - destruct (find_baseline_Raise _ _ _ _ Ef) as [[msg ->] _].
      exists msg. reflexivity. }
  split; [exact Hfb|]. split; [|split].
  - unfold _strong_metrics.
    destruct (strong_baselines_spec rows) as [bl [-> Hbl]].
    destruct (strong_baselines_spec (filter (fun r => negb (in_group n it r)) rows))
      as [bl' [-> Hbl']].
    simpl. rewrite <- (strong_loop_filter bl bl' (fun r => negb (in_group n it r))).
    + reflexivity.
    + intros r _ Hg. rewrite Hbl, Hbl'. unfold baseline_entry. simpl.
      rewrite find_baseline_other_group; [reflexivity|].
      intros Heq. unfold in_group in Hg.
      rewrite (proj2 (pair_eqb_spec _ _) Heq) in Hg. discriminate.
    + intros r _ Hg. rewrite Hbl. unfold baseline_entry. simpl.
      apply negb_false_iff in Hg. unfold in_group in Hg.
      apply pair_eqb_spec in Hg. injection Hg as -> ->.
      destruct Hfb as [msg ->]. reflexivity.
  - intros ms m Hrun Hm [Hn Hi].
    apply strong_metrics_sound in Hrun. rewrite Forall_forall in Hrun.
    destruct (Hrun m Hm) as [r [t1 [Hr [Hf [_ Heq]]]]].
    rewrite Heq in Hn, Hi. simpl in Hn, Hi. subst n it.
    destruct Hfb as [msg Hfb]. congruence.
  - intros msg Hrun. apply strong_metrics_overflow in Hrun. discriminate.
Qed.

(** [find_baseline] returns a lower bound of the times of the sequential
    records of the group, when no time is a NaN. *)
Lemma find_baseline_lower_bound (rows : list BenchRow) (n it : Z) (t : float) :
  Forall (fun r => PyFloat.is_nan (time_s r) = false) rows ->
  find_baseline rows n it = Ok t ->
  forall r, In r rows -> seq_in_group n it r = true ->
            PyFloat.leb t (time_s r) = true.
Proof.
  intros Hnan. unfold find_baseline. fold (seq_in_group n it).
  destruct (Py.py_min _ _ _) as [t'|] eqn:E; [|discriminate].
  intros [= <-] r Hr Hs.
  apply (py_min_le PyFloat.ltb (fun x => x)
           (fun a b => PyFloat.leb a b = true)
           (fun a => PyFloat.is_nan a = false)
           leb_refl leb_trans ltb_leb ltb_false_leb
           (map time_s (filter (seq_in_group n it) rows)) t').
  - apply Forall_forall. intros x Hx. apply in_map_iff in Hx.
    destruct Hx as [r' [<- Hr']]. apply filter_In in Hr'.
    rewrite Forall_forall in Hnan. apply Hnan. tauto.
  - exact E.
  - apply in_map. apply filter_In. tauto.
Qed.

(** C4: in a group [(n, it)] that has a sequential record, and with no NaN
    among the times, [find_baseline] returns the minimum of the times of the
    sequential records of the group (it is the time of one of them and is
    below or equal to each), and that value is the baseline [T_base_s] of
    every strong metric of the group. *)
Theorem strong_baseline_is_group_minimum (rows : list BenchRow) (n it : Z) :
  Forall (fun r => PyFloat.is_nan (time_s r) = false) rows ->
  (exists r, In r rows /\ is_sequential r = true /\ n_bats r = n /\ iters r = it) ->
  exists t,
    find_baseline rows n it = Ok t /\
    (exists r, In r rows /\ is_sequential r = true /\ n_bats r = n /\ iters r = it
               /\ time_s r = t) /\
    (forall r, In r rows -> is_sequential r = true -> n_bats r = n -> iters r = it ->
               PyFloat.leb t (time_s r) = true) /\
    (forall ms m, _strong_metrics rows = Ok ms -> In m ms ->
                  Metric.n_bats m = n -> Metric.iters m = it ->
                  Metric.T_base_s m = t).
Proof.
  intros Hnan [r0 [Hr0 Hs0]].
  destruct (find_baseline_total rows n it) as [t Ht].
  { exists r0. split; [exact Hr0 | apply seq_in_group_true; exact Hs0]. }
  exists t. split; [exact Ht|]. split; [|split].
  - destruct (find_baseline_Ok _ _ _ _ Ht) as [r [Hr [Hs Htime]]].
    apply seq_in_group_true in Hs. exists r. tauto.
  - intros r Hr Hs Hn Hi.
    apply (find_baseline_lower_bound rows n it t Hnan Ht r Hr).
    apply seq_in_group_true. tauto.
  - intros ms m Hrun Hm Hn Hi.
    apply strong_metrics_sound in Hrun. rewrite Forall_forall in Hrun.
    destruct (Hrun m Hm) as [r [t1 [Hr [Hf [_ Heq]]]]].
    rewrite Heq in Hn, Hi |- *. simpl in *. subst n it. congruence.
Qed.

(** ** The weak-scaling pass *)

Lemma for_each_append {A B : Type} (f : A -> list B)
    (body : list B -> A -> result (list B)) (xs : list A) :
  (forall out x, In x xs -> body out x = Ok (out ++ f x)) ->
  forall out, Py.for_each xs body out = Ok (out ++ flat_map f xs).
Proof.
  intros Hbody out.
  rewrite (for_each_pure (fun o x => o ++ f x) body xs Hbody).
  f_equal. revert out. clear Hbody.
  induction xs as [|x xs IH]; intros out; simpl.
  - symmetry. apply app_nil_r.
  - rewrite IH. symmetry. apply app_assoc.
Qed.

Lemma weak_step_ok (b : BenchRow) (out : list Metric.t) (r : BenchRow) :
  weak_step (n_bats b) (time_s b) out r = Ok (out ++ [weak_metric b r]).
Proof. unfold weak_step. rewrite speedup_of_ok. reflexivity. Qed.

Lemma weak_pair_ok (rows : list BenchRow) (i : Z) (out : list Metric.t) (v : string) :
  weak_pair rows i out v = Ok (out ++ pair_out rows i v).
Proof.
  unfold weak_pair, pair_out.
  destruct (v =? "sequential")%string; [rewrite app_nil_r; reflexivity|].
  destruct (_weak_baseline rows i v) as [b|]; [|rewrite app_nil_r; reflexivity].
  fold (weak_candidates rows i v).
  rewrite (for_each_append (fun r => [weak_metric b r])).
  - simpl. rewrite <- app_assoc. do 3 f_equal.
  - intros out0 r _. apply weak_step_ok.
Qed.

(** The weak pass never raises: [out] is the concatenation of what the
    pairs give, in the order of the two sorted sets. *)
Lemma weak_out_ok (rows : list BenchRow) : weak_out rows = Ok (weak_out_list rows).
Proof.
  unfold weak_out, weak_out_list.
  apply (for_each_append
           (fun i => flat_map (pair_out rows i)
                              (Py.sorted_set String.compare (map version rows)))).
  intros out i _.
  apply (for_each_append (pair_out rows i)).
  intros out0 v _. apply weak_pair_ok.
Qed.

Lemma weak_metrics_ok (rows : list BenchRow) :
  _weak_metrics rows = Ok (dedup (weak_out_list rows)).
Proof. unfold _weak_metrics. rewrite weak_out_ok. reflexivity. Qed.

(** *** The deduplication *)

Lemma find_append {A : Type} (f : A -> bool) (l1 l2 : list A) :
  find f (l1 ++ l2) =
  match find f l1 with
  | Some x => Some x
  | None => find f l2
  end.
Proof.
  induction l1 as [|a l1 IH]; simpl.
  - reflexivity.
  - destruct (f a); [reflexivity | exact IH].
Qed.

Lemma last_with_app (k : string * string * Z * Z * Z * Z) (l1 l2 : list Metric.t) :
  last_with k (l1 ++ l2) =
  match last_with k l2 with
  | Some x => Some x
  | None => last_with k l1
  end.
Proof.
  unfold last_with. rewrite rev_app_distr. apply find_append.
Qed.

Lemma last_with_single (k : string * string * Z * Z * Z * Z) (m : Metric.t) :
  last_with k [m] = if Metric.key_eqb (Metric.key m) k then Some m else None.
Proof. reflexivity. Qed.

Lemma last_with_Some (k : string * string * Z * Z * Z * Z) (l : list Metric.t)
    (x : Metric.t) :
  last_with k l = Some x -> In x l /\ Metric.key x = k.
Proof.
  unfold last_with. intros H. apply find_some in H. destruct H as [Hin Hk].
  split; [apply in_rev; exact Hin | apply key_eqb_spec; exact Hk].
Qed.

Lemma last_with_None (k : string * string * Z * Z * Z * Z) (l : list Metric.t) :
  last_with k l = None -> forall m, In m l -> Metric.key m <> k.
Proof.
  unfold last_with. intros H m Hm Hk.
  apply in_rev in Hm. apply (find_none _ _ H m) in Hm.
  rewrite (proj2 (key_eqb_spec _ _) Hk) in Hm. discriminate.
Qed.

Lemma uniq_fold_get (out : list Metric.t) :
  forall d k,
    Py.dict_get Metric.key_eqb (fold_left uniq_step out d) k =
    match last_with k out with
    | Some x => Some x
    | None => Py.dict_get Metric.key_eqb d k
    end.
Proof.
  induction out as [|m out IH]; intros d k; simpl.
  - reflexivity.
  - rewrite IH. change (m :: out) with ([m] ++ out).
    rewrite last_with_app, last_with_single.
    destruct (last_with k out); [reflexivity|].
    unfold uniq_step. rewrite (dict_get_set Metric.key_eqb key_eqb_spec).
    destruct (Metric.key_eqb (Metric.key m) k); reflexivity.
Qed.

Lemma uniq_fold_NoDup (out : list Metric.t) :
  forall d, NoDup (map fst d) -> NoDup (map fst (fold_left uniq_step out d)).
Proof.
  induction out as [|m out IH]; intros d Hd; simpl.
  - exact Hd.
  - apply IH. apply (dict_set_NoDup Metric.key_eqb key_eqb_spec). exact Hd.
Qed.

Lemma uniq_fold_entries (out : list Metric.t) :
  forall d,
    (forall k v, In (k, v) d -> Metric.key v = k) ->
    forall k v, In (k, v) (fold_left uniq_step out d) ->
                Metric.key v = k /\ (In v out \/ In (k, v) d).
Proof.
  induction out as [|m out IH]; intros d Hd k v Hin; simpl in Hin.
  - split; [apply Hd; exact Hin | right; exact Hin].
  - destruct (IH (uniq_step d m)) with (k := k) (v := v) as [Hk Hv].
    + intros k0 v0 H0. apply dict_set_In in H0; [|exact key_eqb_spec].
      destruct H0 as [H0|[= -> ->]]; [apply Hd; exact H0 | reflexivity].
    + exact Hin.
    + split; [exact Hk|].
      destruct Hv as [Hv|Hv]; [left; right; exact Hv|].
      apply dict_set_In in Hv; [|exact key_eqb_spec].
      destruct Hv as [Hv|[= -> ->]]; [right; exact Hv | left; left; reflexivity].
Qed.

Lemma dedup_keys (out : list Metric.t) :
  map Metric.key (dedup out) = map fst (fold_left uniq_step out []).
Proof.
  unfold dedup, Py.values. fold uniq_step.
  assert (forall k v, In (k, v) (fold_left uniq_step out []) -> Metric.key v = k) as H.
  { intros k v Hin. apply (uniq_fold_entries out []) in Hin; [tauto|].
    intros ? ? []. }
  induction (fold_left uniq_step out []) as [|[k v] d IH]; simpl.
  - reflexivity.
  - rewrite (H k v) by (left; reflexivity). f_equal.
    apply IH. intros k0 v0 H0. apply H. right; exact H0.
Qed.

(** After the deduplication no two entries have the same key. *)
Lemma dedup_NoDup (out : list Metric.t) : NoDup (map Metric.key (dedup out)).
Proof. rewrite dedup_keys. apply uniq_fold_NoDup. constructor. Qed.

(** It only keeps entries of [out]. *)
Lemma dedup_In (out : list Metric.t) (m : Metric.t) : In m (dedup out) -> In m out.
Proof.
  unfold dedup, Py.values. fold uniq_step. intros H.
  apply in_map_iff in H. destruct H as [[k v] [<- Hin]]. simpl.
  apply (uniq_fold_entries out []) in Hin; [|intros ? ? []].
  destruct Hin as [_ [H|[]]]. exact H.
Qed.

(** For every key, it keeps the last entry of [out] with that key. *)
Lemma dedup_last (out : list Metric.t) (k : string * string * Z * Z * Z * Z)
    (x : Metric.t) :
  last_with k out = Some x -> In x (dedup out).
Proof.
  intros H. unfold dedup, Py.values. fold uniq_step.
  apply in_map_iff. exists (k, x). split; [reflexivity|].
  apply (dict_get_In Metric.key_eqb key_eqb_spec).
  rewrite uniq_fold_get, H. reflexivity.
Qed.

Lemma last_with_exists (k : string * string * Z * Z * Z * Z) (l : list Metric.t)
    (m : Metric.t) :
  In m l -> Metric.key m = k -> exists x, last_with k l = Some x.
Proof.
  intros Hm Hk. destruct (last_with k l) as [x|] eqn:E; [eexists; reflexivity|].
  exfalso. exact (last_with_None k l E m Hm Hk).
Qed.

(** No key of [out] is lost. *)
Lemma dedup_complete (out : list Metric.t) (m : Metric.t) :
  In m out -> exists m', In m' (dedup out) /\ Metric.key m' = Metric.key m.
Proof.
  intros Hm. destruct (last_with_exists (Metric.key m) out m Hm eq_refl) as [x Hx].
  exists x. split; [exact (dedup_last _ _ _ Hx) | apply (last_with_Some _ _ _ Hx)].
Qed.

(** *** The baseline of a pair *)

Lemma seq_tierb_spec (i : Z) (r : BenchRow) :
  seq_tierb i r = true <-> seq_tier i r.
Proof.
  unfold seq_tierb, seq_tier, is_sequential.
  rewrite !andb_true_iff, !Z.eqb_eq, String.eqb_eq. tauto.
Qed.

Lemma same_tierb_spec (i : Z) (v : string) (r : BenchRow) :
  same_tierb i v r = true <-> same_tier i v r.
Proof.
  unfold same_tierb, same_tier.
  rewrite !andb_true_iff, !Z.eqb_eq, String.eqb_eq. tauto.
Qed.

Lemma weak_baseline_unfold (rows : list BenchRow) (i : Z) (v : string) :
  _weak_baseline rows i v =
  match filter (seq_tierb i) rows with
  | _ :: _ => Py.py_min Z.ltb n_bats (filter (seq_tierb i) rows)
  | [] => match filter (same_tierb i v) rows with
          | _ :: _ => Py.py_min Z.ltb n_bats (filter (same_tierb i v) rows)
          | [] => None
          end
  end.
Proof. reflexivity. Qed.

(** [min(l, key=lambda r: r.n_bats)] is an element of [l] with the least
    [n_bats]. *)
Lemma py_min_n_bats (l : list BenchRow) (b : BenchRow) :
  Py.py_min Z.ltb n_bats l = Some b ->
  In b l /\ forall r, In r l -> n_bats b <= n_bats r.
Proof.
  intros H. split; [exact (py_min_In _ _ _ _ H)|].
  apply (py_min_le Z.ltb n_bats Z.le (fun _ => True)) with (xs := l).
  - intros. apply Z.le_refl.
  - intros a b0 c. apply Z.le_trans.
  - intros a b0 Hab. apply Z.ltb_lt in Hab. lia.
  - intros a b0 _ _ Hab. apply Z.ltb_ge in Hab. exact Hab.
  - apply Forall_forall. intros; exact I.
  - exact H.
Qed.

Lemma filter_nil_none {A : Type} (f : A -> bool) (l : list A) :
  filter f l = [] -> forall x, In x l -> f x = false.
Proof.
  intros E x Hx. destruct (f x) eqn:Ef; [|reflexivity].
  assert (In x (filter f l)) as H by (apply filter_In; tauto).
  rewrite E in H. destruct H.
Qed.

(** What [_weak_baseline] returns, tier by tier. *)
Lemma weak_baseline_cases (rows : list BenchRow) (i : Z) (v : string) :
  match _weak_baseline rows i v with
  | Some b =>
      In b rows /\
      ((seq_tier i b /\ forall r, In r rows -> seq_tier i r -> n_bats b <= n_bats r)
       \/ ((forall r, In r rows -> ~ seq_tier i r) /\ same_tier i v b /\
           forall r, In r rows -> same_tier i v r -> n_bats b <= n_bats r))
  | None =>
      (forall r, In r rows -> ~ seq_tier i r) /\
      (forall r, In r rows -> ~ same_tier i v r)
  end.
Proof.
  rewrite weak_baseline_unfold.
  destruct (filter (seq_tierb i) rows) as [|r0 l0] eqn:Eseq.
  - assert (forall r, In r rows -> ~ seq_tier i r) as Hnoseq.
    { intros r Hr Hs. apply seq_tierb_spec in Hs.
      rewrite (filter_nil_none _ _ Eseq r Hr) in Hs. discriminate. }
    destruct (filter (same_tierb i v) rows) as [|r1 l1] eqn:Esame.
    + split; [exact Hnoseq|].
      intros r Hr Hs. apply same_tierb_spec in Hs.
      rewrite (filter_nil_none _ _ Esame r Hr) in Hs. discriminate.
    + destruct (Py.py_min Z.ltb n_bats (r1 :: l1)) as [b|] eqn:Emin; [|discriminate].
      apply py_min_n_bats in Emin. destruct Emin as [Hb Hmin].
      rewrite <- Esame in Hb, Hmin. apply filter_In in Hb. destruct Hb as [Hb Hbs].
      split; [exact Hb|]. right. split; [exact Hnoseq|].
      split; [apply same_tierb_spec; exact Hbs|].
      intros r Hr Hs. apply Hmin. apply filter_In.
      split; [exact Hr | apply same_tierb_spec; exact Hs].
  - destruct (Py.py_min Z.ltb n_bats (r0 :: l0)) as [b|] eqn:Emin; [|discriminate].
    apply py_min_n_bats in Emin. destruct Emin as [Hb Hmin].
    rewrite <- Eseq in Hb, Hmin. apply filter_In in Hb. destruct Hb as [Hb Hbs].
    split; [exact Hb|]. left.
    split; [apply seq_tierb_spec; exact Hbs|].
    intros r Hr Hs. apply Hmin. apply filter_In.
    split; [exact Hr | apply seq_tierb_spec; exact Hs].
Qed.

(** With a sequential record at [p = 1] for the iteration count, the
    baseline does not depend on the version. *)
Lemma weak_baseline_seq_indep (rows : list BenchRow) (i : Z) (v v' : string) :
  (exists r, In r rows /\ seq_tier i r) ->
  _weak_baseline rows i v = _weak_baseline rows i v'.
Proof.
  intros [r [Hr Hs]]. rewrite !weak_baseline_unfold.
  destruct (filter (seq_tierb i) rows) as [|r0 l0] eqn:Eseq; [|reflexivity].
  apply seq_tierb_spec in Hs.
  rewrite (filter_nil_none _ _ Eseq r Hr) in Hs. discriminate.
Qed.

Lemma weak_baseline_Some (rows : list BenchRow) (i : Z) (v : string) (b : BenchRow) :
  _weak_baseline rows i v = Some b ->
  In b rows /\ iters b = i /\ p b = 1 /\
  ((version b = "sequential" /\ exists r, In r rows /\ seq_tier i r)
   \/ (version b = v /\ forall r, In r rows -> ~ seq_tier i r)).
Proof.
  intros H. pose proof (weak_baseline_cases rows i v) as C. rewrite H in C.
  destruct C as [Hb [[[Hi [Hv Hp]] _]|[Hno [[Hi [Hv Hp]] _]]]].
  - repeat split; try assumption. left. split; [exact Hv|].
    exists b. unfold seq_tier. tauto.
  - repeat split; try assumption. right. tauto.
Qed.

(** *** The entries of [out] *)

Lemma pair_out_In (rows : list BenchRow) (i : Z) (v : string) (m : Metric.t) :
  In m (pair_out rows i v) <->
  v <> "sequential" /\
  exists b, _weak_baseline rows i v = Some b /\
            (m = baseline_metric b \/
             exists r, In r rows /\ iters r = i /\ version r = v /\ m = weak_metric b r).
Proof.
  unfold pair_out.
  destruct (v =? "sequential")%string eqn:Ev.
  - apply String.eqb_eq in Ev. simpl. split; [tauto | intros [H _]; exact (H Ev)].
  - apply String.eqb_neq in Ev.
    destruct (_weak_baseline rows i v) as [b|].
    + rewrite in_app_iff, in_map_iff. simpl. split.
      * intros [[r [Hm Hr]]|[Hm|[]]].
        -- split; [exact Ev|]. exists b. split; [reflexivity|]. right.
           unfold weak_candidates in Hr. apply filter_In in Hr.
           destruct Hr as [Hr Hc]. apply andb_true_iff in Hc.
           rewrite Z.eqb_eq, String.eqb_eq in Hc.
           exists r. repeat split; try tauto. symmetry; exact Hm.
        -- split; [exact Ev|]. exists b. split; [reflexivity|].
           left. symmetry; exact Hm.
      * intros [_ [b' [[= <-] [Hm|[r [Hr [Hi [Hv Hm]]]]]]]].
        -- right. left. symmetry; exact Hm.
        -- left. exists r. split; [symmetry; exact Hm|].
           unfold weak_candidates. apply filter_In. split; [exact Hr|].
           apply andb_true_iff. rewrite Z.eqb_eq, String.eqb_eq. tauto.
    + simpl. split; [tauto|]. intros [_ [b [H _]]]. discriminate.
Qed.

Lemma weak_out_list_In (rows : list BenchRow) (m : Metric.t) :
  In m (weak_out_list rows) <->
  exists i v, In i (map iters rows) /\ In v (map version rows) /\
              In m (pair_out rows i v).
Proof.
  unfold weak_out_list. rewrite in_flat_map. split.
  - intros [i [Hi Hm]]. apply in_flat_map in Hm. destruct Hm as [v [Hv Hm]].
    apply (proj1 (sorted_set_In Z.compare Z_compare_eq _ _)) in Hi.
    apply (proj1 (sorted_set_In String.compare string_compare_eq _ _)) in Hv.
    exists i, v. tauto.
  - intros [i [v [Hi [Hv Hm]]]]. exists i.
    split; [apply (sorted_set_In Z.compare Z_compare_eq); exact Hi|].
    apply in_flat_map. exists v.
    split; [apply (sorted_set_In String.compare string_compare_eq); exact Hv|].
    exact Hm.
Qed.

(** The metrics of [out] with the iteration count [i] and the version [v]
    were computed against the baseline of the pair [(i, v)]. *)
Lemma weak_out_pair_baseline (rows : list BenchRow) (m : Metric.t) :
  In m (weak_out_list rows) ->
  Metric.version m <> "sequential" ->
  exists b,
    _weak_baseline rows (Metric.iters m) (Metric.version m) = Some b /\
    Metric.T_base_s m = time_s b /\ Metric.baseline_n_bats m = n_bats b.
Proof.
  intros Hm Hv. apply weak_out_list_In in Hm.
  destruct Hm as [i [v [_ [_ Hm]]]]. apply pair_out_In in Hm.
  destruct Hm as [Hvs [b [Hb [->|[r [Hr [Hi [Hvr ->]]]]]]]]; simpl in *.
  - destruct (weak_baseline_Some _ _ _ _ Hb) as [_ [Hi [_ [[Hseq _]|[Hsame _]]]]].
    + contradiction.
    + exists b. rewrite Hi, Hsame. auto.
  - exists b. rewrite Hi, Hvr. auto.
Qed.

Lemma weak_baseline_None (rows : list BenchRow) (i : Z) (v : string) :
  (forall r, In r rows -> ~ seq_tier i r) ->
  (forall r, In r rows -> ~ same_tier i v r) ->
  _weak_baseline rows i v = None.
Proof.
  intros Hnoseq Hnosame. pose proof (weak_baseline_cases rows i v) as C.
  destruct (_weak_baseline rows i v) as [b|]; [|reflexivity].
  destruct C as [Hb [[Hs _]|[_ [Hs _]]]].
  - destruct (Hnoseq b Hb Hs).
  - destruct (Hnosame b Hb Hs).
Qed.

(** C5: the baseline record of the pair [(i, v)] follows the two tiers.
    (1) With a sequential record at [p = 1] for [i], it is such a record
    with the least [n_bats].  (2) With none, and a record of version [v] at
    [p = 1] for [i], it is such a record with the least [n_bats].  (3) With
    neither, there is no baseline and the weak table holds no metric of the
    pair.  (4) For a version other than "sequential", the metrics of the
    pair in the weak table carry the time and the size of that baseline. *)
Theorem weak_baseline_two_tier (rows : list BenchRow) (i : Z) (v : string) :
  ((exists r, In r rows /\ seq_tier i r) ->
   exists b, _weak_baseline rows i v = Some b /\ In b rows /\ seq_tier i b /\
             forall r, In r rows -> seq_tier i r -> n_bats b <= n_bats r) /\
  ((forall r, In r rows -> ~ seq_tier i r) ->
   (exists r, In r rows /\ same_tier i v r) ->
   exists b, _weak_baseline rows i v = Some b /\ In b rows /\ same_tier i v b /\
             forall r, In r rows -> same_tier i v r -> n_bats b <= n_bats r) /\
  ((forall r, In r rows -> ~ seq_tier i r) ->
   (forall r, In r rows -> ~ same_tier i v r) ->
   _weak_baseline rows i v = None /\
   exists ms, _weak_metrics rows = Ok ms /\
              forall m, In m ms -> ~ (Metric.iters m = i /\ Metric.version m = v)) /\
  (v <> "sequential" ->
   forall b ms m,
     _weak_baseline rows i v = Some b -> _weak_metrics rows = Ok ms -> In m ms ->
     Metric.iters m = i -> Metric.version m = v ->
     Metric.T_base_s m = time_s b /\ Metric.baseline_n_bats m = n_bats b).
Proof.
  pose proof (weak_baseline_cases rows i v) as C.
  split; [|split; [|split]].
  - intros [r0 [Hr0 Hs0]].
    destruct (_weak_baseline rows i v) as [b|].
    + destruct C as [Hb [[Hs Hmin]|[Hno _]]].
      * exists b. auto.
      * destruct (Hno r0 Hr0 Hs0).
    + destruct C as [Hno _]. destruct (Hno r0 Hr0 Hs0).
  - intros Hnoseq [r0 [Hr0 Hs0]].
    destruct (_weak_baseline rows i v) as [b|].
    + destruct C as [Hb [[Hs _]|[_ [Hs Hmin]]]].
      * destruct (Hnoseq b Hb Hs).
      * exists b. auto.
    + destruct C as [_ Hno]. destruct (Hno r0 Hr0 Hs0).
  - intros Hnoseq Hnosame.
    assert (_weak_baseline rows i v = None) as Hnone
      by (apply weak_baseline_None; assumption).
    split; [exact Hnone|].
    exists (dedup (weak_out_list rows)). split; [apply weak_metrics_ok|].
    intros m Hm [Hi Hv]. apply dedup_In in Hm. apply weak_out_list_In in Hm.
    destruct Hm as [i' [v' [_ [_ Hm]]]]. apply pair_out_In in Hm.
    destruct Hm as [Hvs [b [Hb [->|[r [Hr [Hir [Hvr ->]]]]]]]]; simpl in Hi, Hv.
    + destruct (weak_baseline_Some _ _ _ _ Hb) as [Hin [Hib [Hp [[Hseq _]|[Hsame _]]]]].
      * apply (Hnoseq b Hin). unfold seq_tier. tauto.
      * assert (i' = i) by congruence. assert (v' = v) by congruence.
        subst i' v'. congruence.
    + assert (i' = i) by congruence. assert (v' = v) by congruence.
      subst i' v'. congruence.
  - intros Hv b ms m Hb Hrun Hm Hi Hvm.
    rewrite weak_metrics_ok in Hrun. injection Hrun as <-.
    apply dedup_In in Hm.
    destruct (weak_out_pair_baseline rows m Hm) as [b' [Hb' HT]]; [congruence|].
    rewrite Hi, Hvm, Hb in Hb'. injection Hb' as <-. exact HT.
Qed.

(** *** The entry of the baseline record *)

Lemma NoDup_map_inj {A B : Type} (f : A -> B) (l : list A) (a b : A) :
  NoDup (map f l) -> In a l -> In b l -> f a = f b -> a = b.
Proof.
  induction l as [|x l IH]; simpl; intros Hnd Ha Hb Hab; [destruct Ha|].
  apply NoDup_cons_iff in Hnd. destruct Hnd as [Hx Hnd].
  destruct Ha as [->|Ha], Hb as [->|Hb].
  - reflexivity.
  - exfalso. apply Hx. rewrite Hab. apply in_map, Hb.
  - exfalso. apply Hx. rewrite <- Hab. apply in_map, Ha.
  - apply IH; assumption.
Qed.

Section BaselineEntry.

Variable rows : list BenchRow.
Variable i : Z.
Variable v : string.
Variable b : BenchRow.
Hypothesis v_not_seq : v <> "sequential".
Hypothesis b_baseline : _weak_baseline rows i v = Some b.

Let K := Metric.key (baseline_metric b).
Let X := baseline_metric b.

Let ends_with_X := ends_with K X.

Lemma ends_with_X_app (l1 l2 : list Metric.t) :
  ends_with_X l1 -> ends_with_X l2 -> ends_with_X (l1 ++ l2).
Proof.
  unfold ends_with_X, ends_with. rewrite last_with_app.
  intros H1 [H2|H2]; rewrite H2; tauto.
Qed.

Lemma ends_with_X_flat_map {A : Type} (f : A -> list Metric.t) (xs : list A) :
  (forall x, In x xs -> ends_with_X (f x)) -> ends_with_X (flat_map f xs).
Proof.
  induction xs as [|x xs IH]; intros H; simpl.
  - left; reflexivity.
  - apply ends_with_X_app.
    + apply H. left; reflexivity.
    + apply IH. intros y Hy. apply H. right; exact Hy.
Qed.

Lemma last_with_flat_map {A : Type} (f : A -> list Metric.t) (xs : list A) (x : A) :
  (forall y, In y xs -> ends_with_X (f y)) ->
  In x xs -> last_with K (f x) = Some X ->
  last_with K (flat_map f xs) = Some X.
Proof.
  induction xs as [|y xs IH]; intros Hall Hx Hlast; [destruct Hx|].
  simpl. rewrite last_with_app.
  assert (ends_with_X (flat_map f xs)) as [Hr|Hr]
    by (apply ends_with_X_flat_map; intros z Hz; apply Hall; right; exact Hz).
  - rewrite Hr. destruct Hx as [->|Hx]; [exact Hlast|].
    rewrite (IH (fun z Hz => Hall z (or_intror Hz)) Hx Hlast) in Hr. discriminate.
  - rewrite Hr. reflexivity.
Qed.

(** A pair whose baseline entry has the key of [X] has the baseline [b]. *)
Lemma same_key_same_baseline (i' : Z) (v' : string) (b' : BenchRow) :
  v' <> "sequential" ->
  _weak_baseline rows i' v' = Some b' ->
  Metric.key (baseline_metric b') = K -> b' = b.
Proof.
  intros Hv' Hb' Hkey. unfold K, Metric.key in Hkey. simpl in Hkey.
  injection Hkey as Hver _ Hit _ _.
  destruct (weak_baseline_Some _ _ _ _ b_baseline) as [_ [Hi [_ Htier]]].
  destruct (weak_baseline_Some _ _ _ _ Hb') as [_ [Hi' [_ Htier']]].
  assert (i' = i) as -> by congruence.
  destruct Htier as [[_ Hseq]|[Hvb Hnoseq]].
  - rewrite (weak_baseline_seq_indep rows i v' v Hseq) in Hb'. congruence.
  - destruct Htier' as [[_ [r [Hr Hs]]]|[Hvb' _]].
    + destruct (Hnoseq r Hr Hs).
    + assert (v' = v) as -> by congruence. congruence.
Qed.

(** A candidate whose metric has the key of [X] belongs to a pair with the
    baseline [b]. *)
Lemma candidate_key_same_baseline (i' : Z) (v' : string) (b' r : BenchRow) :
  v' <> "sequential" ->
  _weak_baseline rows i' v' = Some b' ->
  iters r = i' -> version r = v' ->
  Metric.key (weak_metric b' r) = K -> b' = b.
Proof.
  intros Hv' Hb' Hir Hvr Hkey. unfold K, Metric.key in Hkey. simpl in Hkey.
  injection Hkey as Hver _ Hit _ _.
  destruct (weak_baseline_Some _ _ _ _ b_baseline) as [_ [Hi [_ Htier]]].
  assert (i' = i) as -> by congruence.
  destruct Htier as [[Hvb _]|[Hvb _]].
  - exfalso. apply Hv'. congruence.
  - assert (v' = v) as -> by congruence. congruence.
Qed.

Lemma pair_out_ends_with_X (i' : Z) (v' : string) : ends_with_X (pair_out rows i' v').
Proof.
  unfold pair_out.
  destruct (v' =? "sequential")%string eqn:Ev; [left; reflexivity|].
  apply String.eqb_neq in Ev.
  destruct (_weak_baseline rows i' v') as [b'|] eqn:Hb'; [|left; reflexivity].
  unfold ends_with_X, ends_with. rewrite last_with_app, last_with_single.
  destruct (Metric.key_eqb (Metric.key (baseline_metric b')) K) eqn:Ek.
  - apply key_eqb_spec in Ek.
    rewrite (same_key_same_baseline i' v' b' Ev Hb' Ek). right; reflexivity.
  - left.
    destruct (last_with K (map (weak_metric b') (weak_candidates rows i' v')))
      as [x|] eqn:El; [|reflexivity].
    exfalso. apply last_with_Some in El. destruct El as [Hx Hk].
    apply in_map_iff in Hx. destruct Hx as [r [<- Hr]].
    unfold weak_candidates in Hr. apply filter_In in Hr. destruct Hr as [_ Hc].
    apply andb_true_iff in Hc. rewrite Z.eqb_eq, String.eqb_eq in Hc.
    destruct Hc as [Hir Hvr].
    assert (b' = b) as -> by exact (candidate_key_same_baseline i' v' b' r Ev Hb' Hir Hvr Hk).
    rewrite (proj2 (key_eqb_spec _ _) eq_refl) in Ek. discriminate.
Qed.

Lemma pair_out_last : last_with K (pair_out rows i v) = Some X.
Proof.
  unfold pair_out.
  rewrite (proj2 (String.eqb_neq _ _) v_not_seq), b_baseline.
  rewrite last_with_app, last_with_single.
  unfold K. rewrite (proj2 (key_eqb_spec _ _) eq_refl). reflexivity.
Qed.

Lemma weak_out_last :
  In v (map version rows) -> last_with K (weak_out_list rows) = Some X.
Proof.
  intros Hv. unfold weak_out_list.
  destruct (weak_baseline_Some _ _ _ _ b_baseline) as [Hb [Hi _]].
  apply last_with_flat_map with (x := i).
  - intros i' _. apply ends_with_X_flat_map. intros v' _. apply pair_out_ends_with_X.
  - apply (sorted_set_In Z.compare Z_compare_eq). rewrite <- Hi. apply in_map, Hb.
  - apply last_with_flat_map with (x := v).
    + intros v' _. apply pair_out_ends_with_X.
    + apply (sorted_set_In String.compare string_compare_eq). exact Hv.
    + apply pair_out_last.
Qed.

End BaselineEntry.

(** C7: for a version [v] of the data other than "sequential", when the
    baseline of the pair [(i, v)] resolves to the record [b], the weak table
    holds the synthetic entry of [b] exactly once: the metric with the mode
    weak, the version, the sizes and the counts of [b], the time of [b] as
    its time and as its baseline time, the size of [b] as baseline size,
    the parallelism 1, the speedup 1.0 and the efficiency 1.0.  No other
    entry of the table has its key: an entry with that key that the
    candidates gave is replaced by it.  The record [b] is a record of the
    input with the iteration count [i] and [p = 1]. *)
Theorem weak_baseline_entry_once (rows : list BenchRow) (i : Z) (v : string)
    (b : BenchRow) :
  In v (map version rows) ->
  v <> "sequential" ->
  _weak_baseline rows i v = Some b ->
  exists ms,
    _weak_metrics rows = Ok ms /\
    count_occ metric_eq_dec ms
      (Metric.mk "weak" (version b) (n_bats b) (iters b) (procs b) (threads b)
         1 (time_s b) (n_bats b) (time_s b) PyFloat.one PyFloat.one) = 1%nat /\
    (forall m, In m ms ->
               Metric.key m
               = ("weak", version b, n_bats b, iters b, procs b, threads b) ->
               m = Metric.mk "weak" (version b) (n_bats b) (iters b) (procs b)
                     (threads b) 1 (time_s b) (n_bats b) (time_s b)
                     PyFloat.one PyFloat.one) /\
    In b rows /\ iters b = i /\ p b = 1.
Proof.
  intros Hv Hvs Hb.
  change (Metric.mk "weak" (version b) (n_bats b) (iters b) (procs b) (threads b)
            1 (time_s b) (n_bats b) (time_s b) PyFloat.one PyFloat.one)
    with (baseline_metric b).
  change ("weak", version b, n_bats b, iters b, procs b, threads b)
    with (Metric.key (baseline_metric b)).
  exists (dedup (weak_out_list rows)). split; [apply weak_metrics_ok|].
  assert (In (baseline_metric b) (dedup (weak_out_list rows))) as Hin.
  { apply dedup_last with (k := Metric.key (baseline_metric b)).
    exact (weak_out_last rows i v b Hvs Hb Hv). }
  pose proof (dedup_NoDup (weak_out_list rows)) as Hnd.
  split; [|split].
  - apply NoDup_count_occ'; [exact (NoDup_map_inv _ _ Hnd) | exact Hin].
  - intros m Hm Hk. exact (NoDup_map_inj Metric.key _ m _ Hnd Hm Hin Hk).
  - destruct (weak_baseline_Some _ _ _ _ Hb) as [Hbin [Hi [Hp _]]].
    repeat split; assumption.
Qed.

(** ** The two tables together *)

Lemma compute_metrics_Ok (rows : list BenchRow) (ms : list Metric.t) :
  compute_metrics rows = Ok ms ->
  exists strong, _strong_metrics rows = Ok strong /\
                 ms = strong ++ dedup (weak_out_list rows).
Proof.
  unfold compute_metrics. rewrite weak_metrics_ok.
  destruct (_strong_metrics rows) as [strong|e]; simpl; [|discriminate].
  intros [= <-]. exists strong. split; reflexivity.
Qed.

Lemma compute_metrics_raise (rows : list BenchRow) (e : exn) :
  compute_metrics rows = Raise e -> e = OverflowError.
Proof.
  unfold compute_metrics. rewrite weak_metrics_ok.
  destruct (_strong_metrics rows) as [strong|e'] eqn:Es; simpl; [discriminate|].
  intros [= <-]. exact (strong_metrics_overflow rows e' Es).
Qed.

(** The deduplication keeps, for a key, the last entry of [out] with that
    key and no other. *)
Lemma dedup_keeps_last (out : list Metric.t) (m : Metric.t) :
  In m (dedup out) -> last_with (Metric.key m) out = Some m.
Proof.
  intros Hm.
  destruct (last_with_exists (Metric.key m) out m (dedup_In out m Hm) eq_refl)
    as [x Hx].
  rewrite Hx. f_equal.
  apply (NoDup_map_inj Metric.key (dedup out)).
  - apply dedup_NoDup.
  - exact (dedup_last _ _ _ Hx).
  - exact Hm.
  - apply (last_with_Some _ _ _ Hx).
Qed.

(** The keys of the strong table are the keys of the records whose size
    has a sequential record, one for each such record. *)
Lemma strong_metrics_keys (rows : list BenchRow) (ms : list Metric.t) :
  _strong_metrics rows = Ok ms ->
  map Metric.key ms
  = map (fun r => ("strong", version r, n_bats r, iters r, procs r, threads r))
        (filter (fun r => existsb (seq_in_group (n_bats r) (iters r)) rows) rows).
Proof.
  intros H.
  assert (map row_of_metric ms
          = filter (fun r => existsb (seq_in_group (n_bats r) (iters r)) rows) rows)
    as Hrows.
  { unfold _strong_metrics in H.
    destruct (strong_baselines_spec rows) as [bl [Hb Hbl]]. rewrite Hb in H.
    simpl in H. rewrite (strong_loop_rows bl rows [] ms H). simpl.
    apply filter_ext. intros r. apply has_baseline_iff, Hbl. }
  rewrite <- Hrows, map_map. apply map_ext_in. intros m Hm.
  apply strong_metrics_sound in H. rewrite Forall_forall in H.
  destruct (H m Hm) as [r [t1 [_ [_ [_ Heq]]]]]. rewrite Heq. reflexivity.
Qed.

Lemma NoDup_map_repeat {A B : Type} (f : A -> B) (l1 l2 l3 : list A) (a b : A) :
  f a = f b -> ~ NoDup (map f (l1 ++ a :: l2 ++ b :: l3)).
Proof.
  intros Hab Hnd. rewrite map_app in Hnd. cbn [map] in Hnd.
  apply NoDup_remove_2 in Hnd. apply Hnd.
  apply in_or_app. right. rewrite map_app. apply in_or_app. right.
  left. symmetry. exact Hab.
Qed.

Lemma filter_two {A : Type} (g : A -> bool) (l1 l2 l3 : list A) (a b : A) :
  g a = true -> g b = true ->
  filter g (l1 ++ a :: l2 ++ b :: l3)
  = filter g l1 ++ a :: filter g l2 ++ b :: filter g l3.
Proof.
  intros Ha Hb. rewrite filter_app. cbn [filter]. rewrite Ha.
  rewrite filter_app. cbn [filter]. rewrite Hb. reflexivity.
Qed.

(** C2 (amended).  The weak table never raises and no two of its metrics
    share the key (mode, version, n_bats, iters, procs, threads); the
    deduplication goes by exactly that key: every metric kept is the last
    entry emitted with its key, and every key emitted is kept.  The strong
    table is not deduplicated: its keys are those of the records whose size
    has a sequential record, one for each record, and the result of
    [compute_metrics] is the strong table followed by the weak table; so
    two records of the input with the same version, sizes and counts, whose
    size has a sequential record, give a result in which a key is
    repeated. *)
Theorem weak_metrics_keys_unique (rows : list BenchRow) :
  (exists out ms,
     weak_out rows = Ok out /\
     _weak_metrics rows = Ok ms /\
     NoDup (map Metric.key ms) /\
     (forall m, In m ms -> In m out /\ last_with (Metric.key m) out = Some m) /\
     (forall m, In m out -> exists m', In m' ms /\ Metric.key m' = Metric.key m)) /\
  (forall strong,
     _strong_metrics rows = Ok strong ->
     map Metric.key strong
     = map (fun r => ("strong", version r, n_bats r, iters r, procs r, threads r))
           (filter (fun r => existsb (seq_in_group (n_bats r) (iters r)) rows) rows)) /\
  (forall ms,
     compute_metrics rows = Ok ms ->
     exists strong weak,
       _strong_metrics rows = Ok strong /\ _weak_metrics rows = Ok weak /\
       ms = strong ++ weak) /\
  (forall ms l1 l2 l3 r1 r2,
     compute_metrics rows = Ok ms ->
     rows = l1 ++ r1 :: l2 ++ r2 :: l3 ->
     version r1 = version r2 -> n_bats r1 = n_bats r2 -> iters r1 = iters r2 ->
     procs r1 = procs r2 -> threads r1 = threads r2 ->
     existsb (seq_in_group (n_bats r1) (iters r1)) rows = true ->
     ~ NoDup (map Metric.key ms)).
Proof.
  split; [|split; [|split]].
  - exists (weak_out_list rows), (dedup (weak_out_list rows)).
    split; [apply weak_out_ok|]. split; [apply weak_metrics_ok|].
    split; [apply dedup_NoDup|]. split; [|apply dedup_complete].
    intros m Hm. split; [exact (dedup_In _ _ Hm) | exact (dedup_keeps_last _ _ Hm)].
  - apply strong_metrics_keys.
  - intros ms Hms. destruct (compute_metrics_Ok rows ms Hms) as [strong [Hs ->]].
    exists strong, (dedup (weak_out_list rows)).
    split; [exact Hs|]. split; [apply weak_metrics_ok | reflexivity].
  - intros ms l1 l2 l3 r1 r2 Hms Hrows Hv Hn Hi Hp Ht Hseq Hnd.
    destruct (compute_metrics_Ok rows ms Hms) as [strong [Hs ->]].
    rewrite map_app in Hnd. apply NoDup_app_remove_r in Hnd.
    rewrite (strong_metrics_keys rows strong Hs) in Hnd.
    set (g := fun r => existsb (seq_in_group (n_bats r) (iters r)) rows) in Hnd.
    assert (g r1 = true) as G1 by exact Hseq.
    assert (g r2 = true) as G2 by (unfold g; rewrite <- Hn, <- Hi; exact Hseq).
    clearbody g. clear Hms Hs Hseq. subst rows.
    rewrite (filter_two g _ _ _ _ _ G1 G2) in Hnd.
    revert Hnd. apply NoDup_map_repeat. congruence.
Qed.

(** The metrics of the weak table: the entry of a baseline record, or the
    metric of a candidate against the baseline of its pair. *)
Lemma weak_table_In (rows : list BenchRow) (m : Metric.t) :
  In m (dedup (weak_out_list rows)) ->
  exists b, In b rows /\ (m = baseline_metric b \/ exists r, In r rows /\ m = weak_metric b r).
Proof.
  intros Hm. apply dedup_In in Hm. apply weak_out_list_In in Hm.
  destruct Hm as [i [v [_ [_ Hm]]]]. apply pair_out_In in Hm.
  destruct Hm as [_ [b [Hb Hm]]].
  destruct (weak_baseline_Some _ _ _ _ Hb) as [Hin _].
  exists b. split; [exact Hin|].
  destruct Hm as [->|[r [Hr [_ [_ ->]]]]]; [left; reflexivity|].
  right. exists r. split; [exact Hr | reflexivity].
Qed.

Lemma leb_zero_not_gtb (x : float) :
  PyFloat.leb x PyFloat.zero = true -> PyFloat.gtb x PyFloat.zero = false.
Proof. destruct x as [s|s| |s m e]; try destruct s; cbv; congruence. Qed.

Lemma speedup_val_cases (t time : float) :
  (PyFloat.leb time PyFloat.zero = true -> speedup_val t time = PyFloat.zero) /\
  (PyFloat.is_nan time = false -> PyFloat.leb time PyFloat.zero = false ->
   speedup_val t time = SFdiv PyFloat.prec PyFloat.emax t time) /\
  (PyFloat.is_nan time = true -> speedup_val t time = PyFloat.zero).
Proof.
  unfold speedup_val. split; [|split].
  - intros H. rewrite (leb_zero_not_gtb _ H). reflexivity.
  - intros Hnan Hle. destruct (PyFloat.gtb time PyFloat.zero) eqn:E; [reflexivity|].
    apply (not_gtb_zero_leb time Hnan) in E. congruence.
  - destruct time; try discriminate. reflexivity.
Qed.

(** No input makes [compute_metrics] divide by zero. *)
Lemma compute_metrics_no_zero_division (rows : list BenchRow) :
  compute_metrics rows <> Raise ZeroDivisionError.
Proof.
  intros H. apply compute_metrics_raise in H. discriminate.
Qed.

(** A metric is the entry of a baseline record, or reports a record of the
    input with the speedup of [speedup_val]. *)
Lemma metric_cases (rows : list BenchRow) (ms : list Metric.t) (m : Metric.t) :
  compute_metrics rows = Ok ms -> In m ms ->
  (exists b, In b rows /\ m = baseline_metric b)
  \/ (exists r, In r rows /\ Metric.time_s m = time_s r /\
                 Metric.speedup m = speedup_val (Metric.T_base_s m) (Metric.time_s m)).
Proof.
  intros Hrun Hm.
  destruct (compute_metrics_Ok rows ms Hrun) as [strong [Hs ->]].
  apply in_app_or in Hm. destruct Hm as [Hm|Hm].
  - right. apply strong_metrics_sound in Hs. rewrite Forall_forall in Hs.
    destruct (Hs m Hm) as [r [t1 [Hr [_ [_ Heq]]]]].
    exists r. rewrite Heq. simpl. auto.
  - destruct (weak_table_In rows m Hm) as [b [Hb [->|[r [Hr ->]]]]].
    + left. exists b. auto.
    + right. exists r. simpl. auto.
Qed.

(** A metric of the result reports a record of the input with the speedup
    of [speedup_val], or is the entry that the weak pass adds for the
    baseline record of one of its pairs. *)
Lemma metric_cases_pair (rows : list BenchRow) (ms : list Metric.t) (m : Metric.t) :
  compute_metrics rows = Ok ms -> In m ms ->
  (exists i v b,
     In i (map iters rows) /\ In v (map version rows) /\ v <> "sequential" /\
     _weak_baseline rows i v = Some b /\ m = baseline_metric b)
  \/ (exists r, In r rows /\ Metric.time_s m = time_s r /\
                 Metric.speedup m = speedup_val (Metric.T_base_s m) (Metric.time_s m)).
Proof.
  intros Hrun Hm.
  destruct (compute_metrics_Ok rows ms Hrun) as [strong [Hs ->]].
  apply in_app_or in Hm. destruct Hm as [Hm|Hm].
  - right. apply strong_metrics_sound in Hs. rewrite Forall_forall in Hs.
    destruct (Hs m Hm) as [r [t1 [Hr [_ [_ Heq]]]]].
    exists r. rewrite Heq. simpl. auto.
  - apply dedup_In in Hm. apply weak_out_list_In in Hm.
    destruct Hm as [i [v [Hi [Hv Hm]]]]. apply pair_out_In in Hm.
    destruct Hm as [Hvs [b [Hb [->|[r [Hr [_ [_ ->]]]]]]]].
    + left. exists i, v, b. auto.
    + right. exists r. simpl. auto.
Qed.

(** C3 (amended): on no input does [compute_metrics] raise
    [ZeroDivisionError], and every metric it returns has [speedup = 0] when
    its time is [<= 0] and [speedup = T_base_s / time_s] (the double
    division, exactly) otherwise, unless it is a synthetic baseline entry
    of the weak pass: the entry, with the constant speedup 1.0 whatever its
    time, that the pass adds for the record [b] to which the baseline of
    one of its pairs [(i, v)] resolves.  "Otherwise" holds as it stands for
    the records of the parser; in general a time that is a NaN counts as
    not [> 0] and gives 0. *)
Theorem speedup_formula (rows : list BenchRow) :
  compute_metrics rows <> Raise ZeroDivisionError /\
  (forall ms m, compute_metrics rows = Ok ms -> In m ms ->
    (exists i v b,
       In i (map iters rows) /\ In v (map version rows) /\ v <> "sequential" /\
       _weak_baseline rows i v = Some b /\
       m = Metric.mk "weak" (version b) (n_bats b) (iters b) (procs b) (threads b)
             1 (time_s b) (n_bats b) (time_s b) PyFloat.one PyFloat.one)
    \/ ((PyFloat.leb (Metric.time_s m) PyFloat.zero = true ->
         Metric.speedup m = PyFloat.zero) /\
        (PyFloat.is_nan (Metric.time_s m) = false ->
         PyFloat.leb (Metric.time_s m) PyFloat.zero = false ->
         Metric.speedup m
         = SFdiv PyFloat.prec PyFloat.emax (Metric.T_base_s m) (Metric.time_s m)) /\
        (PyFloat.is_nan (Metric.time_s m) = true -> Metric.speedup m = PyFloat.zero))) /\
  (forall lines ms m,
    parse_lines lines = Ok rows -> compute_metrics rows = Ok ms -> In m ms ->
    (exists i v b,
       In i (map iters rows) /\ In v (map version rows) /\ v <> "sequential" /\
       _weak_baseline rows i v = Some b /\
       m = Metric.mk "weak" (version b) (n_bats b) (iters b) (procs b) (threads b)
             1 (time_s b) (n_bats b) (time_s b) PyFloat.one PyFloat.one)
    \/ ((PyFloat.leb (Metric.time_s m) PyFloat.zero = true ->
         Metric.speedup m = PyFloat.zero) /\
        (PyFloat.leb (Metric.time_s m) PyFloat.zero = false ->
         Metric.speedup m
         = SFdiv PyFloat.prec PyFloat.emax (Metric.T_base_s m) (Metric.time_s m)))).
Proof.
  split; [apply compute_metrics_no_zero_division|]. split.
  - intros ms m Hrun Hm.
    destruct (metric_cases_pair rows ms m Hrun Hm)
      as [[i [v [b [Hi [Hv [Hvs [Hb ->]]]]]]]|[r [_ [_ ->]]]].
    + left. exists i, v, b. repeat split; assumption.
    + right. apply speedup_val_cases.
  - intros lines ms m Hparse Hrun Hm.
    destruct (metric_cases_pair rows ms m Hrun Hm)
      as [[i [v [b [Hi [Hv [Hvs [Hb ->]]]]]]]|[r [Hr [Ht ->]]]].
    + left. exists i, v, b. repeat split; assumption.
    + right.
      pose proof (parse_lines_valid lines rows Hparse) as Hvalid.
      rewrite Forall_forall in Hvalid. destruct (Hvalid r Hr) as [Hnan _].
      rewrite <- Ht in Hnan.
      destruct (speedup_val_cases (Metric.T_base_s m) (Metric.time_s m))
        as [H0 [H1 _]].
      split; [exact H0 | exact (H1 Hnan)].
Qed.

(** C6: every metric returned by [compute_metrics] has the mode "strong" or
    "weak".  In the mode "strong", [efficiency = speedup / p] (the division
    of a double by an [int]: [p] converted to a double, then the double
    division) when [p > 0], and [efficiency = 0] when [p <= 0].  In the
    mode "weak", [efficiency = speedup]. *)
Theorem efficiency_by_mode (rows : list BenchRow) (ms : list Metric.t) :
  compute_metrics rows = Ok ms ->
  forall m, In m ms ->
    (Metric.mode m = "strong" \/ Metric.mode m = "weak") /\
    (Metric.mode m = "strong" ->
     (0 < Metric.p m ->
      PyFloat.truediv_int (Metric.speedup m) (Metric.p m) = Ok (Metric.efficiency m) /\
      exists y, PyFloat.of_int (Metric.p m) = Ok y /\
                Metric.efficiency m
                = SFdiv PyFloat.prec PyFloat.emax (Metric.speedup m) y) /\
     (Metric.p m <= 0 -> Metric.efficiency m = PyFloat.zero)) /\
    (Metric.mode m = "weak" -> Metric.efficiency m = Metric.speedup m).
Proof.
  intros Hrun. destruct (compute_metrics_Ok rows ms Hrun) as [strong [Hs ->]].
  intros m Hm. apply in_app_or in Hm. destruct Hm as [Hm|Hm].
  - apply strong_metrics_sound in Hs. rewrite Forall_forall in Hs.
    destruct (Hs m Hm) as [r [t1 [_ [_ [Heff Heq]]]]].
    rewrite Heq. simpl. split; [left; reflexivity|]. split; [|discriminate].
    intros _. destruct (efficiency_of_Ok _ _ _ Heff) as [Hpos Hneg]. split.
    + intros Hp. split; [|exact (Hpos Hp)].
      unfold efficiency_of in Heff. rewrite (proj2 (Z.ltb_lt _ _) Hp) in Heff.
      exact Heff.
    + exact Hneg.
  - destruct (weak_table_In rows m Hm) as [b [_ [->|[r [_ ->]]]]]; simpl;
      (split; [right; reflexivity|]); (split; [discriminate|]); reflexivity.
Qed.

(** ** [main] *)

(** C9: when the parser returns no record, [main] ends with
    [SystemExit "No BENCH lines found in input."] without reaching
    [compute_metrics]: it has created the output directory and nothing
    else, no file is written and nothing is printed. *)
Theorem main_aborts_without_records (lines : list string) (outdir : string)
    (matplotlib : bool) (w : World.t) :
  parse_lines lines = Ok [] ->
  main (Some lines) outdir matplotlib w
  = (World.makedirs w outdir, Raise (SystemExit "No BENCH lines found in input.")) /\
  World.files (fst (main (Some lines) outdir matplotlib w)) = World.files w /\
  World.stdout (fst (main (Some lines) outdir matplotlib w)) = World.stdout w.
Proof.
  intros Hparse. unfold main. rewrite Hparse. simpl. repeat split.
Qed.

Lemma main_aborts_without_records_witness :
  parse_lines unmatched_lines = Ok [] /\
  main (Some unmatched_lines) "bench_out" true empty_world
  = (World.makedirs empty_world "bench_out",
     Raise (SystemExit "No BENCH lines found in input.")) /\
  World.files (fst (main (Some unmatched_lines) "bench_out" true empty_world))
  = World.files empty_world /\
  World.stdout (fst (main (Some unmatched_lines) "bench_out" true empty_world))
  = World.stdout empty_world.
Proof.
  split; [vm_compute; reflexivity|].
  apply (main_aborts_without_records unmatched_lines "bench_out" true empty_world).
  vm_compute. reflexivity.
Defined.

(** ** The statements on concrete inputs *)

(** Scenario D: the baseline of the two sequential runs is 9.0. *)
Example scenario_D_baseline : find_baseline scenario_D 100 10 = Ok float_9.
Proof. vm_compute. reflexivity. Qed.

Lemma strong_baseline_is_group_minimum_witness :
  Forall (fun r => PyFloat.is_nan (time_s r) = false) scenario_D /\
  (exists r, In r scenario_D /\ is_sequential r = true /\ n_bats r = 100 /\ iters r = 10) /\
  exists t,
    find_baseline scenario_D 100 10 = Ok t /\
    (exists r, In r scenario_D /\ is_sequential r = true /\ n_bats r = 100 /\ iters r = 10
               /\ time_s r = t) /\
    (forall r, In r scenario_D -> is_sequential r = true -> n_bats r = 100 ->
               iters r = 10 -> PyFloat.leb t (time_s r) = true) /\
    (forall ms m, _strong_metrics scenario_D = Ok ms -> In m ms ->
                  Metric.n_bats m = 100 -> Metric.iters m = 10 ->
                  Metric.T_base_s m = t).
Proof.
  assert (Forall (fun r => PyFloat.is_nan (time_s r) = false) scenario_D) as H1
    by (repeat constructor).
  assert (exists r, In r scenario_D /\ is_sequential r = true /\ n_bats r = 100
                    /\ iters r = 10) as H2
    by (eexists; split; [left; reflexivity | repeat split]).
  split; [exact H1|]. split; [exact H2|].
  exact (strong_baseline_is_group_minimum scenario_D 100 10 H1 H2).
Defined.

(** C2, as stated, fails: the two sequential runs of scenario D give two
    strong metrics with one key, and the strong table is not deduplicated. *)
Lemma compute_metrics_repeats_key :
  exists ms, compute_metrics (rows_of scenario_D_lines) = Ok ms /\
             ~ NoDup (map Metric.key ms).
Proof.
  eexists. split; [vm_compute; reflexivity|].
  intros H. apply NoDup_cons_iff in H. destruct H as [H _].
  apply H. left. reflexivity.
Qed.

(** C3, as stated, fails: a record at [p = 1] with the time 0 is its own
    weak baseline, and its entry has the time 0 and the speedup 1.0. *)
Lemma zero_time_speedup_one :
  exists ms m, compute_metrics (rows_of zero_time_lines) = Ok ms /\ In m ms /\
               PyFloat.eqb (Metric.time_s m) PyFloat.zero = true /\
               Metric.speedup m = PyFloat.one /\
               Metric.speedup m <> PyFloat.zero.
Proof.
  eexists. eexists. split; [vm_compute; reflexivity|].
  split; [left; reflexivity|].
  split; [reflexivity|]. split; [reflexivity | discriminate].
Qed.

Example scenario_A_compute : compute_metrics scenario_A = Ok scenario_A_metrics.
Proof. vm_compute. reflexivity. Qed.

Lemma efficiency_by_mode_witness :
  compute_metrics scenario_A = Ok scenario_A_metrics /\
  In scenario_A_openmp scenario_A_metrics /\
  (Metric.mode scenario_A_openmp = "strong" \/ Metric.mode scenario_A_openmp = "weak") /\
  (Metric.mode scenario_A_openmp = "strong" ->
   (0 < Metric.p scenario_A_openmp ->
    PyFloat.truediv_int (Metric.speedup scenario_A_openmp) (Metric.p scenario_A_openmp)
    = Ok (Metric.efficiency scenario_A_openmp) /\
    exists y, PyFloat.of_int (Metric.p scenario_A_openmp) = Ok y /\
              Metric.efficiency scenario_A_openmp
              = SFdiv PyFloat.prec PyFloat.emax (Metric.speedup scenario_A_openmp) y) /\
   (Metric.p scenario_A_openmp <= 0 ->
    Metric.efficiency scenario_A_openmp = PyFloat.zero)) /\
  (Metric.mode scenario_A_openmp = "weak" ->
   Metric.efficiency scenario_A_openmp = Metric.speedup scenario_A_openmp).
Proof.
  assert (compute_metrics scenario_A = Ok scenario_A_metrics) as H
    by (vm_compute; reflexivity).
  assert (In scenario_A_openmp scenario_A_metrics) as Hm
    by (right; left; reflexivity).
  split; [exact H|]. split; [exact Hm|].
  exact (efficiency_by_mode scenario_A scenario_A_metrics H scenario_A_openmp Hm).
Defined.

(** Scenario A: the strong metric of the shared-memory record has p = 4,
    speedup 4.0 and efficiency 1.0. *)
Example scenario_A_strong_openmp :
  exists m, nth_error scenario_A_metrics 1 = Some m /\
            Metric.mode m = "strong" /\ Metric.version m = "openmp" /\
            Metric.p m = 4 /\
            Metric.speedup m = Text.decimal_to_float 4 0 /\
            Metric.efficiency m = PyFloat.one.
Proof. eexists. split; [reflexivity|]. vm_compute. repeat split. Qed.

Lemma strong_group_without_baseline_dropped_witness :
  (forall r, In r scenario_B -> n_bats r = 100 -> iters r = 10 ->
             is_sequential r = false) /\
  (exists msg, find_baseline scenario_B 100 10 = Raise (SystemExit msg)) /\
  _strong_metrics scenario_B
  = _strong_metrics (filter (fun r => negb (in_group 100 10 r)) scenario_B) /\
  (forall ms m, _strong_metrics scenario_B = Ok ms -> In m ms ->
                ~ (Metric.n_bats m = 100 /\ Metric.iters m = 10)) /\
  (forall msg, _strong_metrics scenario_B <> Raise (SystemExit msg)).
Proof.
  assert (forall r, In r scenario_B -> n_bats r = 100 -> iters r = 10 ->
                    is_sequential r = false) as H.
  { intros r [<-|[<-|[<-|[]]]] Hn Hi; try reflexivity; discriminate Hn. }
  split; [exact H|].
  exact (strong_group_without_baseline_dropped scenario_B 100 10 H).
Defined.

(** Scenario B: the other group is still reported, with its two metrics. *)
Example scenario_B_strong :
  exists ms, _strong_metrics scenario_B = Ok ms /\
             map (fun m => (Metric.version m, Metric.n_bats m)) ms
             = [("sequential", 200); ("openmp", 200)].
Proof. eexists. split; vm_compute; reflexivity. Qed.

Lemma weak_baseline_entry_once_witness :
  In "openmp" (map version scenario_C) /\
  "openmp" <> "sequential" /\
  _weak_baseline scenario_C 10 "openmp" = Some scenario_C_baseline /\
  exists ms,
    _weak_metrics scenario_C = Ok ms /\
    count_occ metric_eq_dec ms
      (Metric.mk "weak" (version scenario_C_baseline) (n_bats scenario_C_baseline)
         (iters scenario_C_baseline) (procs scenario_C_baseline)
         (threads scenario_C_baseline) 1 (time_s scenario_C_baseline)
         (n_bats scenario_C_baseline) (time_s scenario_C_baseline)
         PyFloat.one PyFloat.one) = 1%nat /\
    (forall m, In m ms ->
               Metric.key m
               = ("weak", version scenario_C_baseline, n_bats scenario_C_baseline,
                  iters scenario_C_baseline, procs scenario_C_baseline,
                  threads scenario_C_baseline) ->
               m = Metric.mk "weak" (version scenario_C_baseline)
                     (n_bats scenario_C_baseline) (iters scenario_C_baseline)
                     (procs scenario_C_baseline) (threads scenario_C_baseline) 1
                     (time_s scenario_C_baseline) (n_bats scenario_C_baseline)
                     (time_s scenario_C_baseline) PyFloat.one PyFloat.one) /\
    In scenario_C_baseline scenario_C /\ iters scenario_C_baseline = 10 /\
    p scenario_C_baseline = 1.
Proof.
  assert (In "openmp" (map version scenario_C)) as H1 by (left; reflexivity).
  assert ("openmp" <> "sequential") as H2 by discriminate.
  assert (_weak_baseline scenario_C 10 "openmp" = Some scenario_C_baseline) as H3
    by (vm_compute; reflexivity).
  split; [exact H1|]. split; [exact H2|]. split; [exact H3|].
  exact (weak_baseline_entry_once scenario_C 10 "openmp" scenario_C_baseline H1 H2 H3).
Defined.

(** Scenario C: the baseline is the record of size 100 and every record
    has the speedup and the efficiency 1.0; the weak table has three
    entries, the one of the baseline record once. *)
Example scenario_C_weak :
  exists ms, _weak_metrics scenario_C = Ok ms /\
             map (fun m => (Metric.n_bats m, Metric.p m, Metric.baseline_n_bats m)) ms
             = [(100, 1, 100); (200, 2, 100); (400, 4, 100)] /\
             Forall (fun m => Metric.speedup m = PyFloat.one /\
                              Metric.efficiency m = PyFloat.one) ms.
Proof.
  eexists. split; [vm_compute; reflexivity|]. split; [reflexivity|].
  repeat constructor.
Qed.

(** The first tier on scenario A, the second on scenario C, and a pair with
    no baseline. *)
Example weak_baseline_tiers :
  (exists b, _weak_baseline scenario_A 10 "openmp" = Some b /\
             version b = "sequential") /\
  (exists b, _weak_baseline scenario_C 10 "openmp" = Some b /\
             version b = "openmp" /\ n_bats b = 100) /\
  _weak_baseline scenario_B 10 "mpi" <> None /\
  _weak_baseline (rows_of ["BENCH version=mpi n_bats=8 iters=3 procs=2 threads=1 time_s=1.0"])
    3 "mpi" = None.
Proof.
  split; [eexists; split; vm_compute; reflexivity|].
  split; [eexists; split; [vm_compute; reflexivity | split; reflexivity]|].
  split; [vm_compute; discriminate | vm_compute; reflexivity].
Qed.

(** A version token outside the three known ones is kept as it is by the
    parser and has [p = 1], whatever its [procs] and [threads]. *)
Example unknown_version_parallelism :
  exists r, parse_lines ["BENCH version=cuda n_bats=64 iters=5 procs=3 threads=8 time_s=0.5"]
            = Ok [r] /\
            version r = "cuda" /\ procs r = 3 /\ threads r = 8 /\ p r = 1.
Proof. eexists. split; [vm_compute; reflexivity|]. repeat split. Qed.

(** The division of the speedup by a [p] that is too large for a double
    ends the strong pass with [OverflowError]. *)
Example strong_metrics_overflows :
  _strong_metrics (rows_of huge_threads_lines) = Raise OverflowError.
Proof. vm_compute. reflexivity. Qed.

(** * Further properties of the code *)

(** ** The parser *)

Lemma parse_line_rejected (line : string) (m : Re.Match) :
  Re.re_match BENCH_RE (Text.strip line) = Some m ->
  rejected m ->
  parse_line line = Raise ValueError.
Proof.
  intros Hm Hr.
  destruct (parse_line_cases line) as [[Hn _]|[[row Hl]|[m' [Hm' [_ Hl]]]]].
  - congruence.
  - exfalso. unfold parse_line in Hl. rewrite Hm in Hl.
    destruct (Text.py_int (Re.group m "n_bats")) eqn:E1; simpl in Hl; [|discriminate].
    destruct (Text.py_int (Re.group m "iters")) eqn:E2; simpl in Hl; [|discriminate].
    destruct (Text.py_int (Re.group m "procs")) eqn:E3; simpl in Hl; [|discriminate].
    destruct (Text.py_int (Re.group m "threads")) eqn:E4; simpl in Hl; [|discriminate].
    destruct Hr as [[name [Hn Hlong]]|Hf].
    + apply py_int_too_long in Hlong.
      destruct Hn as [<-|[<-|[<-|[<-|[]]]]]; congruence.
    + rewrite Hf in Hl. discriminate.
  - exact Hl.
Qed.

Lemma parse_loop_rejected (lines : list string) (line : string) (m : Re.Match) :
  In line lines ->
  Re.re_match BENCH_RE (Text.strip line) = Some m ->
  rejected m ->
  forall rows, parse_loop lines rows = Raise ValueError.
Proof.
  intros Hin Hm Hf. induction lines as [|l lines IH]; [destruct Hin|].
  intros rows. simpl.
  destruct (parse_line_cases l) as [[_ Hl]|[[row Hl]|[m' [_ [_ Hl]]]]].
  - rewrite Hl. simpl. destruct Hin as [->|Hin]; [|apply IH, Hin].
    rewrite (parse_line_rejected line m Hm Hf) in Hl. discriminate.
  - rewrite Hl. simpl. destruct Hin as [->|Hin]; [|apply IH, Hin].
    rewrite (parse_line_rejected line m Hm Hf) in Hl. discriminate.
  - rewrite Hl. reflexivity.
Qed.

(** X1: [parse_lines] raises [e] exactly when [e] is [ValueError] and some
    line matches [BENCH_RE] with a field that the constructor of the record
    rejects: an integer token of more than 4300 digits, on which [int()]
    raises, or a [time_s] token that [float()] rejects.  No other line can
    make it raise. *)
Theorem parse_lines_raises_iff (lines : list string) (e : exn) :
  parse_lines lines = Raise e <->
  e = ValueError /\
  exists line m,
    In line lines /\
    Re.re_match BENCH_RE (Text.strip line) = Some m /\
    ((exists name, In name ["n_bats"; "iters"; "procs"; "threads"] /\
                   (Text.max_str_digits < String.length (Re.group m name))%nat)
     \/ Text.py_float (Re.group m "time_s") = Raise ValueError).
Proof.
  assert (forall m,
            rejected m <->
            (exists name, In name ["n_bats"; "iters"; "procs"; "threads"] /\
                          (Text.max_str_digits < String.length (Re.group m name))%nat)
            \/ Text.py_float (Re.group m "time_s") = Raise ValueError) as Hrej.
  { intros m. unfold rejected, Text.too_long.
    split; (intros [[name [Hn Hl]]|H]; [left; exists name; split; [exact Hn|] | right; exact H]).
    - apply Nat.ltb_lt. exact Hl.
    - apply Nat.ltb_lt. exact Hl. }
  split.
  - intros H. destruct (parse_loop_raise lines [] e H) as [He [line [m [Hin [Hm Hr]]]]].
    split; [exact He|]. exists line, m. split; [exact Hin|]. split; [exact Hm|].
    apply Hrej. exact Hr.
  - intros [-> [line [m [Hin [Hm Hf]]]]].
    exact (parse_loop_rejected lines line m Hin Hm (proj2 (Hrej m) Hf) []).
Qed.

(** A line whose [n_bats] token has 4301 digits matches [BENCH_RE], and
    [int()] raises on the token. *)
Example parse_lines_raises_on_long_int :
  line_matches (hd "" long_int_lines) = true /\
  parse_lines long_int_lines = Raise ValueError.
Proof. split; vm_compute; reflexivity. Qed.

Lemma digits_value_ge (t : string) :
  forall acc z, 0 <= acc -> Text.digits_value t acc = Some z -> 0 <= z.
Proof.
  induction t as [|a t IH]; intros acc z Hacc H; cbn [Text.digits_value] in H.
  - injection H as <-. exact Hacc.
  - destruct (Text.is_digit a) eqn:Ea; [|discriminate].
    apply (IH _ _) in H; [exact H|].
    unfold Text.is_digit in Ea. cbv zeta in Ea. apply andb_true_iff in Ea.
    destruct Ea as [Ea _]. apply N.leb_le in Ea.
    unfold Text.digit_value. lia.
Qed.

Lemma py_int_nonneg (t : string) (z : Z) : Text.py_int t = Ok z -> 0 <= z.
Proof.
  unfold Text.py_int. destruct t as [|a t]; [discriminate|].
  destruct (Text.digits_value (String a t) 0) as [z'|] eqn:E; [|discriminate].
  destruct (Text.too_long _); [discriminate|].
  intros [= <-]. exact (digits_value_ge _ 0 z' (Z.le_refl 0) E).
Qed.

Lemma parse_line_well_formed (line : string) (row : BenchRow) :
  parse_line line = Ok (Some row) -> well_formed_row row.
Proof.
  intros H. pose proof (parse_line_valid line row H) as Hv.
  unfold parse_line in H.
  destruct (Re.re_match BENCH_RE (Text.strip line)) as [m|] eqn:Em; [|discriminate].
  destruct (BENCH_RE_groups _ _ Em) as [_ [_ [_ [V1 V2]]]].
  destruct (Text.py_int (Re.group m "n_bats")) as [n|] eqn:En; simpl in H; [|discriminate].
  destruct (Text.py_int (Re.group m "iters")) as [i|] eqn:Ei; simpl in H; [|discriminate].
  destruct (Text.py_int (Re.group m "procs")) as [pr|] eqn:Ep; simpl in H; [|discriminate].
  destruct (Text.py_int (Re.group m "threads")) as [th|] eqn:Et; simpl in H; [|discriminate].
  destruct (Text.py_float (Re.group m "time_s")) as [t|]; simpl in H; [|discriminate].
  injection H as <-. unfold well_formed_row. simpl in *.
  repeat split; try assumption; try (apply Hv);
    eauto using py_int_nonneg.
Qed.

Lemma parse_loop_well_formed (lines : list string) :
  forall rows rows',
    Forall well_formed_row rows ->
    parse_loop lines rows = Ok rows' ->
    Forall well_formed_row rows'.
Proof.
  induction lines as [|line lines IH]; intros rows rows' Hrows Hrun; simpl in Hrun.
  - injection Hrun as <-. exact Hrows.
  - destruct (parse_line line) as [[row|]|e] eqn:El; simpl in Hrun; try discriminate.
    + apply (IH (rows ++ [row]) rows'); [|exact Hrun].
      apply Forall_app. split; [exact Hrows|].
      constructor; [exact (parse_line_well_formed _ _ El) | constructor].
    + exact (IH _ _ Hrows Hrun).
Qed.

(** X2: every record that [parse_lines] returns has a non-empty version
    token without whitespace, four integer fields that are not negative and
    a time that is neither a NaN nor below zero; its parallelism [p] is not
    negative either. *)
Theorem parse_lines_rows_well_formed (lines : list string) (rows : list BenchRow) :
  parse_lines lines = Ok rows ->
  Forall (fun r => well_formed_row r /\ 0 <= p r) rows.
Proof.
  intros H. apply parse_loop_well_formed in H; [|constructor].
  apply Forall_forall. intros r Hr. rewrite Forall_forall in H.
  pose proof (H r Hr) as Hw. split; [exact Hw|].
  destruct Hw as [_ [_ [_ [_ [Hp [Ht _]]]]]]. unfold p.
  destruct (version r =? "openmp")%string; [exact Ht|].
  destruct (version r =? "mpi")%string; [exact Hp | lia].
Qed.

Lemma parse_lines_rows_well_formed_witness :
  parse_lines scenario_A_lines = Ok scenario_A /\
  Forall (fun r => well_formed_row r /\ 0 <= p r) scenario_A.
Proof.
  assert (parse_lines scenario_A_lines = Ok scenario_A) as H
    by (vm_compute; reflexivity).
  split; [exact H|].
  exact (parse_lines_rows_well_formed scenario_A_lines scenario_A H).
Defined.

Lemma parse_loop_acc (lines : list string) :
  forall rows,
    parse_loop lines rows = (r <- parse_loop lines [] ;; Ok (rows ++ r)).
Proof.
  induction lines as [|line lines IH]; intros rows; simpl.
  - rewrite app_nil_r. reflexivity.
  - destruct (parse_line line) as [[row|]|e]; simpl; try reflexivity.
    + rewrite (IH (rows ++ [row])), (IH [row]).
      destruct (parse_loop lines []) as [r|e]; simpl; [|reflexivity].
      rewrite <- app_assoc. reflexivity.
    + apply IH.
Qed.

Lemma parse_loop_app (l1 l2 : list string) :
  forall rows,
    parse_loop (l1 ++ l2) rows = (r1 <- parse_loop l1 rows ;; parse_loop l2 r1).
Proof.
  induction l1 as [|line l1 IH]; intros rows; simpl.
  - reflexivity.
  - destruct (parse_line line) as [[row|]|e]; simpl; try reflexivity; apply IH.
Qed.

(** X3: parsing a text in two parts and appending the records is parsing
    the whole text: the records come in the order of the lines, and the
    whole raises what the first failing part raises. *)
Theorem parse_lines_app (l1 l2 : list string) :
  parse_lines (l1 ++ l2)
  = (r1 <- parse_lines l1 ;; r2 <- parse_lines l2 ;; Ok (r1 ++ r2)).
Proof.
  unfold parse_lines. rewrite parse_loop_app.
  destruct (parse_loop l1 []) as [r1|e]; simpl; [|reflexivity].
  apply parse_loop_acc.
Qed.

Lemma parse_line_unmatched (line : string) :
  line_matches line = false -> parse_line line = Ok None.
Proof.
  unfold line_matches, parse_line.
  destruct (Re.re_match BENCH_RE (Text.strip line)); [discriminate | reflexivity].
Qed.

Lemma parse_line_matched (line : string) :
  line_matches line = true -> parse_line line <> Ok None.
Proof.
  unfold line_matches. intros Hm.
  destruct (parse_line_cases line) as [[Hn _]|[[row Hl]|[m [_ [_ Hl]]]]];
    try (rewrite Hl; discriminate).
  rewrite Hn in Hm. discriminate.
Qed.

Lemma parse_loop_filter (lines : list string) :
  forall rows,
    parse_loop lines rows = parse_loop (filter line_matches lines) rows.
Proof.
  induction lines as [|line lines IH]; intros rows; simpl.
  - reflexivity.
  - destruct (line_matches line) eqn:Em; simpl.
    + destruct (parse_line line) as [[row|]|e]; simpl; try reflexivity; apply IH.
    + rewrite (parse_line_unmatched line Em). simpl. apply IH.
Qed.

Lemma parse_loop_length (lines : list string) :
  forall rows rows',
    parse_loop lines rows = Ok rows' ->
    List.length rows' = (List.length rows + List.length (filter line_matches lines))%nat.
Proof.
  induction lines as [|line lines IH]; intros rows rows' H; simpl in H |- *.
  - injection H as <-. lia.
  - destruct (line_matches line) eqn:Em.
    + pose proof (parse_line_matched line Em) as Hne.
      destruct (parse_line line) as [[row|]|e]; simpl in H; try discriminate.
      * rewrite (IH _ _ H), length_app. simpl. lia.
      * congruence.
    + rewrite (parse_line_unmatched line Em) in H. simpl in H. exact (IH _ _ H).
Qed.

(** X4: the lines that [BENCH_RE] does not match do not count: dropping
    them from the text changes neither the records nor the error, and a
    text that parses gives one record per matching line. *)
Theorem parse_lines_ignores_unmatched (lines : list string) :
  parse_lines lines = parse_lines (filter line_matches lines) /\
  forall rows, parse_lines lines = Ok rows ->
               List.length rows = List.length (filter line_matches lines).
Proof.
  split; [apply parse_loop_filter|].
  intros rows H. apply parse_loop_length in H. exact H.
Qed.

(** *** Whitespace around a line *)

Lemma lstrip_space (ws : string) :
  Re.all_in Re.Space ws = true -> Text.lstrip ws = EmptyString.
Proof.
  induction ws as [|a ws IH]; simpl; [reflexivity|].
  intros H. apply andb_true_iff in H. destruct H as [Ha Hw].
  rewrite Ha. apply IH, Hw.
Qed.

Lemma lstrip_app_space (ws s : string) :
  Re.all_in Re.Space ws = true -> Text.lstrip (ws ++ s)%string = Text.lstrip s.
Proof.
  induction ws as [|a ws IH]; simpl; [reflexivity|].
  intros H. apply andb_true_iff in H. destruct H as [Ha Hw].
  rewrite Ha. apply IH, Hw.
Qed.

Lemma rstrip_space (ws : string) :
  Re.all_in Re.Space ws = true -> Text.rstrip ws = EmptyString.
Proof.
  induction ws as [|a ws IH]; simpl; [reflexivity|].
  intros H. apply andb_true_iff in H. destruct H as [Ha Hw].
  rewrite (IH Hw), Ha. reflexivity.
Qed.

Lemma rstrip_app_space (s ws : string) :
  Re.all_in Re.Space ws = true -> Text.rstrip (s ++ ws)%string = Text.rstrip s.
Proof.
  intros Hw. induction s as [|a s IH]; simpl.
  - apply rstrip_space, Hw.
  - rewrite IH. reflexivity.
Qed.

Lemma strip_padding (ws1 line ws2 : string) :
  Re.all_in Re.Space ws1 = true -> Re.all_in Re.Space ws2 = true ->
  Text.strip (ws1 ++ line ++ ws2)%string = Text.strip line.
Proof.
  intros H1 H2. unfold Text.strip. rewrite (lstrip_app_space ws1 _ H1).
  induction line as [|a line IH]; simpl.
  - rewrite (lstrip_space ws2 H2). reflexivity.
  - destruct (Text.is_space a); [exact IH|].
    change (String a (line ++ ws2)%string) with (String a line ++ ws2)%string.
    apply rstrip_app_space, H2.
Qed.

(** X5: whitespace before and after a line does not count: the line padded
    with whitespace on both sides is parsed as the line itself. *)
Theorem parse_lines_padding (ws1 ws2 line : string) (rest : list string) :
  Re.all_in Re.Space ws1 = true ->
  Re.all_in Re.Space ws2 = true ->
  parse_lines ((ws1 ++ line ++ ws2)%string :: rest) = parse_lines (line :: rest).
Proof.
  intros H1 H2. unfold parse_lines. simpl. unfold parse_line.
  rewrite (strip_padding ws1 line ws2 H1 H2). reflexivity.
Qed.

(** *** The lines of the grammar *)

(** On a run of the class followed by a text that stops it, the greedy
    repetition hands the whole run to the continuation first. *)
Lemma rep_greedy {A : Type} (c : Re.cclass) (t : string) :
  forall (s : string) (n : nat) (k : nat -> string -> option A) (res : A),
    Re.all_in c t = true -> stops c s = true ->
    k (n + String.length t)%nat s = Some res ->
    Re.rep c (t ++ s)%string n k = Some res.
Proof.
  induction t as [|a t IH]; intros s n k res Ht Hs Hk; simpl in *.
  - rewrite Nat.add_0_r in Hk.
    destruct s as [|b s]; simpl; [exact Hk|].
    simpl in Hs. apply negb_true_iff in Hs. rewrite Hs. exact Hk.
  - apply andb_true_iff in Ht. destruct Ht as [Ha Ht]. rewrite Ha.
    rewrite Nat.add_succ_r in Hk.
    rewrite (IH s (S n) k res Ht Hs Hk). reflexivity.
Qed.

Lemma go_Lit_app (l s : string) (pos : nat) (m : Re.Match)
    (k : nat -> string -> Re.Match -> option Re.Match) :
  Re.go (Re.Lit l) pos (l ++ s)%string m k = k (pos + String.length l)%nat s m.
Proof. simpl. rewrite strip_prefix_app. reflexivity. Qed.

Lemma go_Plus_greedy (c : Re.cclass) (t s : string) (pos : nat) (m : Re.Match)
    (k : nat -> string -> Re.Match -> option Re.Match) (res : Re.Match) :
  t <> EmptyString -> Re.all_in c t = true -> stops c s = true ->
  k (pos + String.length t)%nat s m = Some res ->
  Re.go (Re.Plus c) pos (t ++ s)%string m k = Some res.
Proof.
  intros Hne Ht Hs Hk. destruct t as [|a t]; [congruence|].
  simpl in Ht |- *. apply andb_true_iff in Ht. destruct Ht as [Ha Ht]. rewrite Ha.
  apply rep_greedy; [exact Ht | exact Hs | exact Hk].
Qed.

Lemma go_Group_greedy (name : string) (c : Re.cclass) (t s : string) (pos : nat)
    (m : Re.Match) (k : nat -> string -> Re.Match -> option Re.Match)
    (res : Re.Match) :
  t <> EmptyString -> Re.all_in c t = true -> stops c s = true ->
  k (pos + String.length t)%nat s ((name, t) :: m) = Some res ->
  Re.go (Re.Group name (Re.Plus c)) pos (t ++ s)%string m k = Some res.
Proof.
  intros Hne Ht Hs Hk.
  change (Re.go (Re.Plus c) pos (t ++ s)%string m
            (fun pos' s' m' =>
               k pos' s' ((name, substring 0 (pos' - pos) (t ++ s)%string) :: m'))
          = Some res).
  apply go_Plus_greedy; [exact Hne | exact Ht | exact Hs|].
  rewrite substring_prefix. exact Hk.
Qed.

Lemma stops_separator (c : Re.cclass) (w s : string) :
  separator w -> (forall a, Text.is_space a = true -> Re.in_class c a = false) ->
  stops c (w ++ s)%string = true.
Proof.
  intros [Hne Hw] Hc. destruct w as [|a w]; [congruence|].
  simpl in Hw |- *. apply andb_true_iff in Hw. destruct Hw as [Ha _].
  rewrite (Hc a Ha). reflexivity.
Qed.

Lemma space_not_digit (a : ascii) : Text.is_space a = true -> Text.is_digit a = false.
Proof.
  destruct a as [[] [] [] [] [] [] [] []]; vm_compute; congruence.
Qed.

Lemma space_not_digit_or_dot (a : ascii) :
  Text.is_space a = true -> Re.in_class Re.DigitOrDot a = false.
Proof.
  destruct a as [[] [] [] [] [] [] [] []]; vm_compute; congruence.
Qed.

Lemma space_not_nonspace (a : ascii) :
  Text.is_space a = true -> Re.in_class Re.NonSpace a = false.
Proof. simpl. intros ->. reflexivity. Qed.

Lemma all_in_weaken (c c' : Re.cclass) (t : string) :
  (forall a, Re.in_class c a = true -> Re.in_class c' a = true) ->
  Re.all_in c t = true -> Re.all_in c' t = true.
Proof.
  intros Hc. induction t as [|a t IH]; simpl; [reflexivity|].
  intros H. apply andb_true_iff in H. destruct H as [Ha Ht].
  rewrite (Hc a Ha), (IH Ht). reflexivity.
Qed.

Lemma all_in_app (c : Re.cclass) (t1 t2 : string) :
  Re.all_in c (t1 ++ t2)%string = Re.all_in c t1 && Re.all_in c t2.
Proof.
  induction t1 as [|a t1 IH]; simpl; [reflexivity|].
  rewrite IH, andb_assoc. reflexivity.
Qed.

Lemma digits_value_Some_digits (t : string) :
  forall acc z, Text.digits_value t acc = Some z -> Re.all_in Re.Digit t = true.
Proof.
  induction t as [|a t IH]; intros acc z H; cbn [Text.digits_value] in H.
  - reflexivity.
  - simpl. destruct (Text.is_digit a); [|discriminate]. exact (IH _ _ H).
Qed.

Lemma split_dot_spec (s : string) :
  match Text.split_dot s with
  | (i, None) => s = i
  | (i, Some f) => s = (i ++ "." ++ f)%string
  end.
Proof.
  induction s as [|a s IH]; simpl; [reflexivity|].
  destruct (Ascii.eqb a ".") eqn:Ea.
  - apply Ascii.eqb_eq in Ea. subst a. reflexivity.
  - destruct (Text.split_dot s) as [i [f|]]; simpl; rewrite IH at 1; reflexivity.
Qed.

Lemma digit_is_digit_or_dot (a : ascii) :
  Re.in_class Re.Digit a = true -> Re.in_class Re.DigitOrDot a = true.
Proof. simpl. intros ->. reflexivity. Qed.

(** [float()] accepts a token only if it is a non-empty run of digits and
    dots. *)
Lemma py_float_Ok_chars (t : string) (x : float) :
  Text.py_float t = Ok x -> t <> EmptyString /\ Re.all_in Re.DigitOrDot t = true.
Proof.
  unfold Text.py_float. pose proof (split_dot_spec t) as Hs.
  destruct (Text.split_dot t) as [i f].
  destruct (String.length i + String.length _)%nat eqn:El; [discriminate|].
  destruct (Text.digits_value _ 0) as [z|] eqn:Ed; [|discriminate].
  intros _. apply digits_value_Some_digits in Ed. rewrite all_in_app in Ed.
  apply andb_true_iff in Ed. destruct Ed as [Hi Hf].
  destruct f as [f|]; subst t.
  - split; [destruct i; discriminate|].
    rewrite !all_in_app, (all_in_weaken _ _ _ digit_is_digit_or_dot Hi),
      (all_in_weaken _ _ _ digit_is_digit_or_dot Hf). reflexivity.
  - split; [destruct i; simpl in El; [discriminate | discriminate]|].
    exact (all_in_weaken _ _ _ digit_is_digit_or_dot Hi).
Qed.

(** A text that ends with a non-empty run without whitespace is left as it
    is by [rstrip]. *)
Lemma rstrip_nonspace (t : string) :
  t <> EmptyString -> Re.all_in Re.NonSpace t = true ->
  Text.rstrip t = t.
Proof.
  induction t as [|a t IH]; [congruence|].
  intros _ H. simpl in H. apply andb_true_iff in H. destruct H as [Ha Ht].
  apply negb_true_iff in Ha. simpl.
  destruct t as [|b t].
  - simpl. rewrite Ha. reflexivity.
  - rewrite (IH ltac:(discriminate) Ht). reflexivity.
Qed.

Lemma rstrip_app_keep (x y : string) :
  y <> EmptyString -> Text.rstrip y = y -> Text.rstrip (x ++ y)%string = (x ++ y)%string.
Proof.
  intros Hne Hy. induction x as [|a x IH]; simpl; [exact Hy|].
  rewrite IH. destruct (x ++ y)%string eqn:E; [|reflexivity].
  destruct x; simpl in E; [congruence | discriminate].
Qed.

Lemma digit_or_dot_nonspace (a : ascii) :
  Re.in_class Re.DigitOrDot a = true -> Re.in_class Re.NonSpace a = true.
Proof.
  destruct a as [[] [] [] [] [] [] [] []]; vm_compute; congruence.
Qed.

Lemma strip_bench_line (v n i pr th t w1 w2 w3 w4 w5 w6 : string) :
  t <> EmptyString -> Re.all_in Re.DigitOrDot t = true ->
  Text.strip (bench_line v n i pr th t w1 w2 w3 w4 w5 w6)
  = bench_line v n i pr th t w1 w2 w3 w4 w5 w6.
Proof.
  intros Hne Ht. unfold Text.strip, bench_line.
  change (Text.lstrip ("BENCH" ++ ?x)%string) with ("BENCH" ++ x)%string.
  assert (forall x y : string, y <> EmptyString -> (x ++ y)%string <> EmptyString) as Happ.
  { intros x y Hy. destruct x; simpl; [exact Hy | discriminate]. }
  assert (Text.rstrip t = t) as Rt.
  { apply rstrip_nonspace; [exact Hne|].
    exact (all_in_weaken _ _ _ digit_or_dot_nonspace Ht). }
  repeat (apply rstrip_app_keep; [repeat apply Happ; exact Hne|]).
  exact Rt.
Qed.

Lemma go_Seq_Bol (r : Re.regex) (s : string) (m : Re.Match)
    (k : nat -> string -> Re.Match -> option Re.Match) :
  Re.go (Re.Seq Re.Bol r) 0%nat s m k = Re.go r 0%nat s m k.
Proof. reflexivity. Qed.

Lemma go_Seq_Lit (l : string) (r : Re.regex) (s : string) (pos : nat) (m : Re.Match)
    (k : nat -> string -> Re.Match -> option Re.Match) :
  Re.go (Re.Seq (Re.Lit l) r) pos (l ++ s)%string m k
  = Re.go r (pos + String.length l)%nat s m k.
Proof.
  change (Re.go (Re.Lit l) pos (l ++ s)%string m
            (fun pos' s' m' => Re.go r pos' s' m' k)
          = Re.go r (pos + String.length l)%nat s m k).
  apply go_Lit_app.
Qed.

Lemma go_Seq_Plus_greedy (c : Re.cclass) (r : Re.regex) (t s : string) (pos : nat)
    (m : Re.Match) (k : nat -> string -> Re.Match -> option Re.Match)
    (res : Re.Match) :
  t <> EmptyString -> Re.all_in c t = true -> stops c s = true ->
  Re.go r (pos + String.length t)%nat s m k = Some res ->
  Re.go (Re.Seq (Re.Plus c) r) pos (t ++ s)%string m k = Some res.
Proof.
  intros Hne Ht Hs Hk.
  change (Re.go (Re.Plus c) pos (t ++ s)%string m
            (fun pos' s' m' => Re.go r pos' s' m' k) = Some res).
  apply go_Plus_greedy; assumption.
Qed.

Lemma go_Seq_Group_greedy (name : string) (c : Re.cclass) (r : Re.regex)
    (t s : string) (pos : nat) (m : Re.Match)
    (k : nat -> string -> Re.Match -> option Re.Match) (res : Re.Match) :
  t <> EmptyString -> Re.all_in c t = true -> stops c s = true ->
  Re.go r (pos + String.length t)%nat s ((name, t) :: m) k = Some res ->
  Re.go (Re.Seq (Re.Group name (Re.Plus c)) r) pos (t ++ s)%string m k = Some res.
Proof.
  intros Hne Ht Hs Hk.
  change (Re.go (Re.Group name (Re.Plus c)) pos (t ++ s)%string m
            (fun pos' s' m' => Re.go r pos' s' m' k) = Some res).
  apply go_Group_greedy; assumption.
Qed.

Lemma append_empty_r (s : string) : (s ++ "")%string = s.
Proof. induction s as [|a s IH]; simpl; [reflexivity | rewrite IH; reflexivity]. Qed.

(** The groups that [BENCH_RE] gives on a line of its grammar are the
    tokens of the line. *)
Lemma BENCH_RE_bench_line (v n i pr th t w1 w2 w3 w4 w5 w6 : string) :
  v <> EmptyString -> Re.all_in Re.NonSpace v = true ->
  n <> EmptyString -> Re.all_in Re.Digit n = true ->
  i <> EmptyString -> Re.all_in Re.Digit i = true ->
  pr <> EmptyString -> Re.all_in Re.Digit pr = true ->
  th <> EmptyString -> Re.all_in Re.Digit th = true ->
  t <> EmptyString -> Re.all_in Re.DigitOrDot t = true ->
  separator w1 -> separator w2 -> separator w3 ->
  separator w4 -> separator w5 -> separator w6 ->
  Re.re_match BENCH_RE (bench_line v n i pr th t w1 w2 w3 w4 w5 w6)
  = Some [("time_s", t); ("threads", th); ("procs", pr); ("iters", i);
          ("n_bats", n); ("version", v)].
Proof.
  intros Hv1 Hv2 Hn1 Hn2 Hi1 Hi2 Hp1 Hp2 Hh1 Hh2 Ht1 Ht2 S1 S2 S3 S4 S5 S6.
  unfold Re.re_match, BENCH_RE, bench_line. cbn [Re.seq].
  rewrite <- (append_empty_r t) at 1.
  rewrite go_Seq_Bol, go_Seq_Lit.
  apply go_Seq_Plus_greedy; [apply S1 | apply S1 | reflexivity|].
  rewrite go_Seq_Lit.
  apply go_Seq_Group_greedy;
    [exact Hv1 | exact Hv2 | exact (stops_separator _ _ _ S2 space_not_nonspace)|].
  apply go_Seq_Plus_greedy; [apply S2 | apply S2 | reflexivity|].
  rewrite go_Seq_Lit.
  apply go_Seq_Group_greedy;
    [exact Hn1 | exact Hn2 | exact (stops_separator Re.Digit _ _ S3 space_not_digit)|].
  apply go_Seq_Plus_greedy; [apply S3 | apply S3 | reflexivity|].
  rewrite go_Seq_Lit.
  apply go_Seq_Group_greedy;
    [exact Hi1 | exact Hi2 | exact (stops_separator Re.Digit _ _ S4 space_not_digit)|].
  apply go_Seq_Plus_greedy; [apply S4 | apply S4 | reflexivity|].
  rewrite go_Seq_Lit.
  apply go_Seq_Group_greedy;
    [exact Hp1 | exact Hp2 | exact (stops_separator Re.Digit _ _ S5 space_not_digit)|].
  apply go_Seq_Plus_greedy; [apply S5 | apply S5 | reflexivity|].
  rewrite go_Seq_Lit.
  apply go_Seq_Group_greedy;
    [exact Hh1 | exact Hh2 | exact (stops_separator Re.Digit _ _ S6 space_not_digit)|].
  apply go_Seq_Plus_greedy; [apply S6 | apply S6 | reflexivity|].
  rewrite go_Seq_Lit.
  apply go_Seq_Group_greedy; [exact Ht1 | exact Ht2 | reflexivity|].
  reflexivity.
Qed.

(** On an [int_token], [int()] returns. *)
Lemma py_int_token (t : string) : int_token t -> exists z, Text.py_int t = Ok z.
Proof.
  intros [Hne [Hd Hl]].
  destruct (py_int_digits t Hne Hd) as [[Hlong _]|[_ H]]; [|exact H].
  unfold Text.too_long in Hlong. apply Nat.ltb_lt in Hlong. lia.
Qed.

(** On a [time_token], [float()] returns; the token is a non-empty run of
    digits and dots. *)
Lemma split_dot_digits (a : string) :
  Re.all_in Re.Digit a = true ->
  forall rest, Text.split_dot (a ++ String "." rest) = (a, Some rest)
               /\ Text.split_dot a = (a, None).
Proof.
  induction a as [|c a IH]; intros Ha rest; cbn [append Text.split_dot].
  - split; reflexivity.
  - cbn [Re.all_in] in Ha. apply andb_true_iff in Ha. destruct Ha as [Hc Ha].
    assert (Ascii.eqb c "." = false) as ->.
    { destruct (Ascii.eqb c ".") eqn:E; [|reflexivity].
      apply Ascii.eqb_eq in E. subst c. discriminate. }
    destruct (IH Ha rest) as [-> ->]. split; reflexivity.
Qed.

Lemma py_float_token (t : string) :
  time_token t ->
  (exists x, Text.py_float t = Ok x) /\
  t <> EmptyString /\ Re.all_in Re.DigitOrDot t = true.
Proof.
  intros [[Hne Hd]|[a [b [-> [Ha [Hb Hne]]]]]].
  - split; [|split; [exact Hne | exact (all_in_weaken _ _ _ digit_is_digit_or_dot Hd)]].
    unfold Text.py_float.
    rewrite (proj2 (split_dot_digits t Hd EmptyString)).
    rewrite append_empty_r, Nat.add_0_r.
    destruct (String.length t) eqn:El; [destruct t; [congruence | discriminate]|].
    destruct (digits_value_digits t Hd 0) as [z ->]. eexists. reflexivity.
  - split; [|split].
    + unfold Text.py_float. cbn [append].
      rewrite (proj1 (split_dot_digits a Ha b)).
      assert (Re.all_in Re.Digit (a ++ b) = true) as Hab
        by (rewrite all_in_app, Ha, Hb; reflexivity).
      destruct (String.length a + String.length b)%nat eqn:El.
      * exfalso. apply Hne. destruct a; [destruct b; [reflexivity|discriminate]|discriminate].
      * destruct (digits_value_digits (a ++ b) Hab 0) as [z ->]. eexists. reflexivity.
    + destruct a; discriminate.
    + rewrite !all_in_app, (all_in_weaken _ _ _ digit_is_digit_or_dot Ha),
        (all_in_weaken _ _ _ digit_is_digit_or_dot Hb). reflexivity.
Qed.

(** X6: every line of the grammar gives its record.  For a version token
    that is non-empty and without whitespace, four integer tokens that are
    non-empty runs of at most 4300 digits, a time token made of digits with
    at most one dot and at least one digit, and non-empty runs of
    whitespace between the fields, [parse_lines] returns one record: the
    version token, what [int()] gives on the four integer tokens and what
    [float()] gives on the time token.  No such line is skipped or
    rejected, and the fields are not mixed up. *)
Theorem parse_lines_bench_line (v n i pr th t w1 w2 w3 w4 w5 w6 : string) :
  v <> EmptyString -> Re.all_in Re.NonSpace v = true ->
  int_token n -> int_token i -> int_token pr -> int_token th ->
  time_token t ->
  separator w1 -> separator w2 -> separator w3 ->
  separator w4 -> separator w5 -> separator w6 ->
  exists (nz iz pz tz : Z) (x : float),
    Text.py_int n = Ok nz /\ Text.py_int i = Ok iz /\
    Text.py_int pr = Ok pz /\ Text.py_int th = Ok tz /\
    Text.py_float t = Ok x /\
    parse_lines [bench_line v n i pr th t w1 w2 w3 w4 w5 w6]
    = Ok [mkBenchRow v nz iz pz tz x].
Proof.
  intros Hv1 Hv2 Hn Hi Hp Hh Ht S1 S2 S3 S4 S5 S6.
  destruct (py_int_token n Hn) as [nz En].
  destruct (py_int_token i Hi) as [iz Ei].
  destruct (py_int_token pr Hp) as [pz Ep].
  destruct (py_int_token th Hh) as [tz Eh].
  destruct (py_float_token t Ht) as [[x Ex] [Ht1 Ht2]].
  exists nz, iz, pz, tz, x. repeat (split; [assumption|]).
  unfold parse_lines. cbn [parse_loop]. unfold parse_line.
  rewrite (strip_bench_line v n i pr th t w1 w2 w3 w4 w5 w6 Ht1 Ht2).
  rewrite (BENCH_RE_bench_line v n i pr th t w1 w2 w3 w4 w5 w6);
    try assumption; try apply Hn; try apply Hi; try apply Hp; try apply Hh.
  cbn [Re.group String.eqb Ascii.eqb Bool.eqb].
  rewrite En, Ei, Ep, Eh, Ex. reflexivity.
Qed.

Lemma parse_lines_bench_line_witness :
  exists (nz iz pz tz : Z) (x : float),
    Text.py_int "2000" = Ok nz /\ Text.py_int "2000" = Ok iz /\
    Text.py_int "1" = Ok pz /\ Text.py_int "4" = Ok tz /\
    Text.py_float "3.890662" = Ok x /\
    parse_lines [bench_line "openmp" "2000" "2000" "1" "4" "3.890662"
                   " " " " " " " " " " " "]
    = Ok [mkBenchRow "openmp" nz iz pz tz x].
Proof.
  assert (forall t, t <> EmptyString -> Re.all_in Re.Digit t = true ->
                    (String.length t <=? Text.max_str_digits)%nat = true ->
                    int_token t) as Hint.
  { intros t H1 H2 H3. split; [exact H1|]. split; [exact H2|].
    apply Nat.leb_le. exact H3. }
  apply (parse_lines_bench_line "openmp" "2000" "2000" "1" "4" "3.890662"
           " " " " " " " " " " " ");
    try (apply Hint; [discriminate | reflexivity | vm_compute; reflexivity]);
    try discriminate; try reflexivity;
    try (split; [discriminate | reflexivity]).
  right. exists "3", "890662". repeat split; discriminate.
Defined.

Lemma parse_lines_padding_witness :
  parse_lines (("  " ++ "BENCH version=mpi n_bats=8 iters=3 procs=2 threads=1 time_s=1.0"
                ++ String "009" (String "010" ""))%string :: ["noise"])
  = parse_lines ["BENCH version=mpi n_bats=8 iters=3 procs=2 threads=1 time_s=1.0"; "noise"].
Proof.
  apply (parse_lines_padding "  " (String "009" (String "010" ""))); reflexivity.
Defined.

(** ** The strong table *)

(** X7: the strong table reports exactly the records whose size has a
    sequential record, the sequential ones included, one metric each and in
    the order of the input; each metric has the mode "strong", the size of
    its record as baseline size and the parallelism [p] of its record. *)
Theorem strong_table_rows (rows : list BenchRow) (ms : list Metric.t) :
  _strong_metrics rows = Ok ms ->
  map row_of_metric ms
  = filter (fun r => existsb (seq_in_group (n_bats r) (iters r)) rows) rows /\
  Forall (fun m => Metric.mode m = "strong" /\
                   Metric.baseline_n_bats m = Metric.n_bats m /\
                   Metric.p m = p (row_of_metric m)) ms.
Proof.
  intros H. split.
  - unfold _strong_metrics in H.
    destruct (strong_baselines_spec rows) as [bl [Hb Hbl]]. rewrite Hb in H.
    simpl in H. rewrite (strong_loop_rows bl rows [] ms H). simpl.
    apply filter_ext. intros r. apply has_baseline_iff, Hbl.
  - apply strong_metrics_sound in H. rewrite Forall_forall in H |- *.
    intros m Hm. destruct (H m Hm) as [r [t1 [_ [_ [_ Heq]]]]].
    rewrite Heq. simpl. auto.
Qed.

Lemma strong_table_rows_witness :
  _strong_metrics scenario_B = Ok (strong_of scenario_B) /\
  map row_of_metric (strong_of scenario_B)
  = filter (fun r => existsb (seq_in_group (n_bats r) (iters r)) scenario_B) scenario_B /\
  Forall (fun m => Metric.mode m = "strong" /\
                   Metric.baseline_n_bats m = Metric.n_bats m /\
                   Metric.p m = p (row_of_metric m)) (strong_of scenario_B).
Proof.
  assert (_strong_metrics scenario_B = Ok (strong_of scenario_B)) as H
    by (vm_compute; reflexivity).
  split; [exact H|].
  exact (strong_table_rows scenario_B (strong_of scenario_B) H).
Defined.

(** ** When the division by [p] overflows *)

Lemma digits2_pos_upper (m : positive) : Zpos m < 2 ^ Zpos (digits2_pos m).
Proof.
  induction m as [m IH|m IH|]; cbn [digits2_pos].
  - rewrite Pos2Z.inj_succ, Z.pow_succ_r by lia. lia.
  - rewrite Pos2Z.inj_succ, Z.pow_succ_r by lia. lia.
  - simpl. lia.
Qed.

Lemma Zdigits2_le (m k : Z) : 0 < m -> 0 <= k -> m < 2 ^ k -> Zdigits2 m <= k.
Proof.
  intros Hm Hk Hlt. destruct m as [|q|q]; try lia. simpl.
  pose proof (digits2_pos_lower q) as Hlow.
  destruct (Z_le_gt_dec (Zpos (digits2_pos q)) k) as [Hle|Hgt]; [exact Hle|].
  assert (2 ^ k <= 2 ^ (Zpos (digits2_pos q) - 1)) by (apply Z.pow_le_mono_r; lia).
  lia.
Qed.

Lemma shr_1_lower (y : shr_record) :
  0 <= shr_m y -> 2 * shr_m (shr_1 y) <= shr_m y.
Proof.
  destruct y as [m r s]. simpl.
  destruct m as [|[q|q|]|q]; simpl; intros H; lia.
Qed.

Lemma round_nearest_even_le (m : Z) (l : location) : round_nearest_even m l <= m + 1.
Proof.
  destruct l as [|[]]; simpl; try lia. destruct (Z.even m); lia.
Qed.

(** Shifting to the canonical exponent: the exponent reached and a bound
    on the size of the mantissa left. *)
Lemma shr_fexp_top (m e : Z) (l : location) :
  0 < m -> emin PyFloat.prec PyFloat.emax <= e ->
  0 < shr_m (fst (shr_fexp PyFloat.prec PyFloat.emax m e l)) /\
  snd (shr_fexp PyFloat.prec PyFloat.emax m e l)
  = Z.max e (fexp PyFloat.prec PyFloat.emax (Zdigits2 m + e)) /\
  Zdigits2 (shr_m (fst (shr_fexp PyFloat.prec PyFloat.emax m e l)))
  + snd (shr_fexp PyFloat.prec PyFloat.emax m e l) <= Zdigits2 m + e.
Proof.
  intros Hm He. unfold shr_fexp.
  destruct m as [|q|q]; try lia. cbn [Zdigits2].
  pose proof (digits2_pos_lower q) as Hd.
  pose proof (digits2_pos_upper q) as Hu.
  set (d := Zpos (digits2_pos q)) in *.
  assert (fexp PyFloat.prec PyFloat.emax (d + e) - e <= d - 1) as Hn.
  { unfold fexp, emin, PyFloat.prec, PyFloat.emax in *. lia. }
  remember (fexp PyFloat.prec PyFloat.emax (d + e) - e) as n eqn:En.
  destruct n as [|n|n]; unfold shr; cbn [fst snd].
  - rewrite shr_record_of_loc_m. cbn [Zdigits2]. fold d. lia.
  - assert (0 <= shr_m (iter_pos shr_1 n (shr_record_of_loc (Zpos q) l)) /\
            Zpos q < 2 ^ (0 + Zpos n)
                     * (shr_m (iter_pos shr_1 n (shr_record_of_loc (Zpos q) l)) + 1) /\
            2 ^ (0 + Zpos n)
            * shr_m (iter_pos shr_1 n (shr_record_of_loc (Zpos q) l)) <= Zpos q)
      as [H0 [H1 H2]].
    { apply (iter_pos_inv shr_1
               (fun k z => 0 <= shr_m z /\ Zpos q < 2 ^ k * (shr_m z + 1)
                           /\ 2 ^ k * shr_m z <= Zpos q)).
      - intros k z Hk [Hz0 [Hz1 Hz2]].
        destruct (shr_1_bounds z Hz0) as [B0 B1].
        pose proof (shr_1_lower z Hz0) as B2.
        split; [exact B0|]. rewrite Z.pow_add_r by lia.
        change (2 ^ 1) with 2. assert (0 < 2 ^ k) by (apply Z.pow_pos_nonneg; lia).
        split; nia.
      - lia.
      - rewrite shr_record_of_loc_m. change (2 ^ 0) with 1. lia. }
    rewrite Z.add_0_l in H1, H2.
    set (s := shr_m (iter_pos shr_1 n (shr_record_of_loc (Zpos q) l))) in *.
    assert (2 ^ Zpos n <= 2 ^ (d - 1)) as Hp by (apply Z.pow_le_mono_r; lia).
    assert (0 < 2 ^ Zpos n) as Hpos by (apply Z.pow_pos_nonneg; lia).
    assert (0 < s) as Hs by nia.
    split; [exact Hs|]. split; [lia|].
    assert (s < 2 ^ (d - Zpos n)) as Hlt.
    { assert (2 ^ d = 2 ^ Zpos n * 2 ^ (d - Zpos n)) as Hsplit
        by (rewrite <- Z.pow_add_r by lia; f_equal; lia).
      nia. }
    pose proof (Zdigits2_le s (d - Zpos n) Hs ltac:(lia) Hlt). lia.
  - rewrite shr_record_of_loc_m. cbn [Zdigits2]. fold d. lia.
Qed.

(** Rounding a positive mantissa below 2^1023 gives a finite double. *)
Lemma binary_round_aux_finite (sx : bool) (m e : Z) (l : location) :
  0 < m -> emin PyFloat.prec PyFloat.emax <= e ->
  Zdigits2 m + e <= 1023 -> e <= 971 ->
  exists m' e', binary_round_aux PyFloat.prec PyFloat.emax sx m e l
                = S754_finite sx m' e'.
Proof.
  intros Hm He Htop Hle. unfold binary_round_aux.
  destruct (shr_fexp_top m e l Hm He) as [H1 [E1 T1]].
  destruct (shr_fexp PyFloat.prec PyFloat.emax m e l) as [mrs' e'].
  simpl in H1, E1, T1.
  set (m1 := round_nearest_even (shr_m mrs') (loc_of_shr_record mrs')).
  pose proof (round_nearest_even_ge (shr_m mrs') (loc_of_shr_record mrs')) as G.
  pose proof (round_nearest_even_le (shr_m mrs') (loc_of_shr_record mrs')) as L.
  fold m1 in G, L.
  assert (emin PyFloat.prec PyFloat.emax <= e') as He'
    by (rewrite E1; lia).
  assert (Zdigits2 m1 <= Zdigits2 (shr_m mrs') + 1) as Hd1.
  { destruct (shr_m mrs') as [|s|s] eqn:Es; try lia.
    pose proof (digits2_pos_upper s) as Hu. simpl Zdigits2.
    apply Zdigits2_le; [lia | lia|].
    rewrite Z.pow_add_r by lia. change (2 ^ 1) with 2. lia. }
  destruct (shr_fexp_top m1 e' loc_Exact ltac:(lia) He') as [H2 [E2 _]].
  destruct (shr_fexp PyFloat.prec PyFloat.emax m1 e' loc_Exact) as [mrs'' e''].
  simpl in H2, E2.
  destruct (shr_m mrs'') as [|q|q]; try lia.
  assert (e'' <= 971) as Hfin.
  { rewrite E2, E1.
    unfold fexp, emin, PyFloat.prec, PyFloat.emax in *. lia. }
  unfold PyFloat.emax, PyFloat.prec.
  rewrite (proj2 (Z.leb_le e'' (1024 - 53)) ltac:(lia)).
  eexists. eexists. reflexivity.
Qed.

Lemma digits2_pos_iter_xO (q n : positive) :
  digits2_pos (Pos.iter xO q n) = (digits2_pos q + n)%positive.
Proof.
  induction n as [|n IH] using Pos.peano_ind.
  - simpl. rewrite Pos.add_1_r. reflexivity.
  - rewrite Pos.iter_succ. cbn [digits2_pos]. rewrite IH, Pos.add_succ_r. reflexivity.
Qed.

(** [float(n)] succeeds for every positive [int] below 2^1023. *)
Lemma of_int_below_2_1023 (n : Z) :
  0 < n -> n < 2 ^ 1023 -> exists y, PyFloat.of_int n = Ok y.
Proof.
  intros Hn Hlt. unfold PyFloat.of_int.
  destruct n as [|q|q]; try lia. simpl binary_normalize.
  assert (exists m' e', binary_round PyFloat.prec PyFloat.emax false q 0
                        = S754_finite false m' e') as [m' [e' ->]];
    [|eexists; reflexivity].
  pose proof (Zdigits2_le (Zpos q) 1023 Hn ltac:(lia) Hlt) as Hd. simpl in Hd.
  unfold binary_round, shl_align.
  destruct (fexp PyFloat.prec PyFloat.emax (Zpos (digits2_pos q) + 0) - 0)
    as [|dd|dd] eqn:Ed.
  - apply binary_round_aux_finite; simpl Zdigits2;
      unfold fexp, emin, PyFloat.prec, PyFloat.emax in *; lia.
  - apply binary_round_aux_finite; simpl Zdigits2;
      unfold fexp, emin, PyFloat.prec, PyFloat.emax in *; lia.
  - apply binary_round_aux_finite; simpl Zdigits2;
      try rewrite digits2_pos_iter_xO;
      unfold fexp, emin, PyFloat.prec, PyFloat.emax in *; lia.
Qed.

Lemma efficiency_of_total (s : float) (par : Z) :
  (0 < par -> exists y, PyFloat.of_int par = Ok y) ->
  exists eff, efficiency_of s par = Ok eff.
Proof.
  intros H. unfold efficiency_of, PyFloat.truediv_int, PyFloat.truediv.
  destruct (0 <? par) eqn:E; [|eexists; reflexivity].
  apply Z.ltb_lt in E. destruct (H E) as [y Hy]. rewrite Hy. simpl.
  rewrite (of_int_pos_not_zero par y E Hy). eexists. reflexivity.
Qed.

Lemma strong_loop_total (bl : Py.dict (Z * Z) float) (rows : list BenchRow) :
  (forall r, In r rows -> has_baseline bl r = true -> 0 < p r ->
             exists y, PyFloat.of_int (p r) = Ok y) ->
  forall out, exists ms, Py.for_each rows (strong_step bl) out = Ok ms.
Proof.
  induction rows as [|r rows IH]; intros H out; simpl.
  - eexists. reflexivity.
  - assert (forall out0, exists ms, Py.for_each rows (strong_step bl) out0 = Ok ms)
      as IH' by (apply IH; intros r' Hr'; apply H; right; exact Hr').
    pose proof (H r (or_introl eq_refl)) as Hr. unfold has_baseline in Hr.
    unfold strong_step.
    destruct (Py.dict_get pair_eqb bl (n_bats r, iters r)) as [t1|]; simpl.
    + rewrite speedup_of_ok. simpl.
      destruct (efficiency_of_total (speedup_val t1 (time_s r)) (p r) (Hr eq_refl))
        as [eff ->].
      simpl. apply IH'.
    + apply IH'.
Qed.

Lemma strong_loop_Ok_inv (bl : Py.dict (Z * Z) float) (rows : list BenchRow) :
  forall out ms,
    Py.for_each rows (strong_step bl) out = Ok ms ->
    forall r, In r rows -> has_baseline bl r = true -> 0 < p r ->
              exists y, PyFloat.of_int (p r) = Ok y.
Proof.
  induction rows as [|r0 rows IH]; intros out ms H r Hr Hb Hp; [destruct Hr|].
  simpl in H. destruct (strong_step bl out r0) as [out1|e] eqn:Es; simpl in H;
    [|discriminate].
  destruct Hr as [->|Hr]; [|exact (IH _ _ H r Hr Hb Hp)].
  unfold strong_step in Es. unfold has_baseline in Hb.
  destruct (Py.dict_get pair_eqb bl (n_bats r, iters r)) as [t1|]; [|discriminate].
  rewrite speedup_of_ok in Es. simpl in Es.
  destruct (efficiency_of _ (p r)) as [eff|] eqn:Ee; simpl in Es; [|discriminate].
  destruct (efficiency_of_Ok _ _ _ Ee) as [Hpos _].
  destruct (Hpos Hp) as [y [Hy _]]. exists y. exact Hy.
Qed.

Lemma compute_metrics_Ok_iff (rows : list BenchRow) :
  (exists ms, compute_metrics rows = Ok ms) <->
  (forall r, In r rows ->
             existsb (seq_in_group (n_bats r) (iters r)) rows = true ->
             0 < p r -> exists y, PyFloat.of_int (p r) = Ok y).
Proof.
  unfold compute_metrics, _strong_metrics. rewrite weak_metrics_ok.
  destruct (strong_baselines_spec rows) as [bl [-> Hbl]]. simpl. split.
  - intros [ms Hms] r Hr Hb Hp.
    destruct (Py.for_each rows (strong_step bl) []) as [strong|e] eqn:Es;
      simpl in Hms; [|discriminate].
    apply (strong_loop_Ok_inv bl rows [] strong Es r Hr); [|exact Hp].
    rewrite (has_baseline_iff rows bl r Hbl). exact Hb.
  - intros H.
    destruct (strong_loop_total bl rows) with (out := @nil Metric.t) as [strong ->].
    + intros r Hr Hb. apply (H r Hr).
      rewrite <- (has_baseline_iff rows bl r Hbl). exact Hb.
    + simpl. eexists. reflexivity.
Qed.

(** X8: [compute_metrics] returns normally exactly when [float(p)]
    succeeds for every record that has a positive [p] and a sequential
    record of its size; when it raises, it raises [OverflowError], from the
    strong pass: the weak pass cannot raise. *)
Theorem compute_metrics_succeeds_iff (rows : list BenchRow) :
  ((exists ms, compute_metrics rows = Ok ms) <->
   (forall r, In r rows ->
              existsb (seq_in_group (n_bats r) (iters r)) rows = true ->
              0 < p r -> exists y, PyFloat.of_int (p r) = Ok y)) /\
  (forall e, compute_metrics rows = Raise e ->
             e = OverflowError /\ _strong_metrics rows = Raise OverflowError) /\
  (exists weak, _weak_metrics rows = Ok weak).
Proof.
  split; [apply compute_metrics_Ok_iff|]. split.
  - intros e H. pose proof (compute_metrics_raise rows e H) as ->.
    split; [reflexivity|].
    unfold compute_metrics in H.
    destruct (_strong_metrics rows) as [strong|e'] eqn:Es; simpl in H.
    + rewrite weak_metrics_ok in H. discriminate.
    + rewrite (strong_metrics_overflow rows e' Es). reflexivity.
  - eexists. apply weak_metrics_ok.
Qed.

(** X9: when every record has a parallelism below 2^1023,
    [compute_metrics] returns the strong table followed by the weak table:
    the [OverflowError] of the division by [p] needs a count of threads or
    processes of more than 300 digits. *)
Theorem compute_metrics_total_below (rows : list BenchRow) :
  (forall r, In r rows -> p r < 2 ^ 1023) ->
  exists strong weak,
    _strong_metrics rows = Ok strong /\ _weak_metrics rows = Ok weak /\
    compute_metrics rows = Ok (strong ++ weak).
Proof.
  intros H.
  destruct (proj2 (compute_metrics_Ok_iff rows)) as [ms Hms].
  { intros r Hr _ Hp. apply of_int_below_2_1023; [exact Hp | exact (H r Hr)]. }
  destruct (compute_metrics_Ok rows ms Hms) as [strong [Hs ->]].
  exists strong, (dedup (weak_out_list rows)).
  split; [exact Hs|]. split; [apply weak_metrics_ok | exact Hms].
Qed.

Lemma compute_metrics_total_below_witness :
  (forall r, In r scenario_A -> p r < 2 ^ 1023) /\
  exists strong weak,
    _strong_metrics scenario_A = Ok strong /\ _weak_metrics scenario_A = Ok weak /\
    compute_metrics scenario_A = Ok (strong ++ weak).
Proof.
  assert (forall r, In r scenario_A -> p r < 2 ^ 1023) as H.
  { intros r [<-|[<-|[]]]; reflexivity. }
  split; [exact H|].
  exact (compute_metrics_total_below scenario_A H).
Defined.

(** ** The weak baseline and the weak table *)

(** [min] with a key returns the first element with the least key: the
    elements before it have a larger key. *)
Lemma min_from_split {A : Type} (key : A -> Z) (xs : list A) :
  forall (pre : list A) (best : A) (mid : list A),
    (forall x, In x pre -> key best < key x) ->
    (forall x, In x mid -> key best <= key x) ->
    exists l1 l2,
      pre ++ best :: mid ++ xs = l1 ++ Py.min_from Z.ltb key best xs :: l2 /\
      (forall x, In x l1 -> key (Py.min_from Z.ltb key best xs) < key x) /\
      (forall x, In x l2 -> key (Py.min_from Z.ltb key best xs) <= key x).
Proof.
  induction xs as [|x xs IH]; intros pre best mid Hpre Hmid; simpl.
  - exists pre, mid. rewrite app_nil_r. auto.
  - destruct (key x <? key best) eqn:E.
    + apply Z.ltb_lt in E.
      destruct (IH (pre ++ best :: mid) x []) as [l1 [l2 [Heq H]]].
      * intros y Hy. apply in_app_or in Hy. destruct Hy as [Hy|[<-|Hy]].
        -- specialize (Hpre y Hy). lia.
        -- exact E.
        -- specialize (Hmid y Hy). lia.
      * intros y [].
      * exists l1, l2. split; [|exact H].
        rewrite <- Heq. simpl. rewrite <- app_assoc. reflexivity.
    + apply Z.ltb_ge in E.
      destruct (IH pre best (mid ++ [x])) as [l1 [l2 [Heq H]]].
      * exact Hpre.
      * intros y Hy. apply in_app_or in Hy. destruct Hy as [Hy|[<-|[]]].
        -- exact (Hmid y Hy).
        -- exact E.
      * exists l1, l2. split; [|exact H].
        rewrite <- Heq. rewrite <- app_assoc. reflexivity.
Qed.

Lemma py_min_first {A : Type} (key : A -> Z) (xs : list A) (a : A) :
  Py.py_min Z.ltb key xs = Some a ->
  exists l1 l2, xs = l1 ++ a :: l2 /\
                (forall x, In x l1 -> key a < key x) /\
                (forall x, In x l2 -> key a <= key x).
Proof.
  destruct xs as [|x xs]; simpl; [discriminate|].
  intros [= <-].
  destruct (min_from_split key xs [] x []) as [l1 [l2 [Heq H]]];
    try (intros y []).
  exists l1, l2. split; [exact Heq | exact H].
Qed.

Lemma filter_split {A : Type} (f : A -> bool) (l : list A) :
  forall l1' a l2',
    filter f l = l1' ++ a :: l2' ->
    exists l1 l2, l = l1 ++ a :: l2 /\ filter f l1 = l1' /\ filter f l2 = l2'.
Proof.
  induction l as [|x l IH]; intros l1' a l2' H; simpl in H.
  - destruct l1'; discriminate.
  - destruct (f x) eqn:E.
    + destruct l1' as [|y l1'].
      * injection H as <- H. exists [], l. simpl. auto.
      * injection H as <- H. destruct (IH _ _ _ H) as [l1 [l2 [-> [H1 H2]]]].
        exists (x :: l1), l2. simpl. rewrite E, H1. auto.
    + destruct (IH _ _ _ H) as [l1 [l2 [-> [H1 H2]]]].
      exists (x :: l1), l2. simpl. rewrite E. auto.
Qed.

(** X10: among the records that tie for the least [n_bats], the weak
    baseline is the first one of the input: every record before it with
    its version, the iteration count of the pair and [p = 1] has a strictly
    larger [n_bats]. *)
Theorem weak_baseline_first_minimum (rows : list BenchRow) (i : Z) (v : string)
    (b : BenchRow) :
  _weak_baseline rows i v = Some b ->
  exists l1 l2,
    rows = l1 ++ b :: l2 /\
    forall r, In r l1 -> iters r = i -> version r = version b -> p r = 1 ->
              n_bats b < n_bats r.
Proof.
  rewrite weak_baseline_unfold.
  destruct (filter (seq_tierb i) rows) as [|r0 l0] eqn:Eseq.
  - destruct (filter (same_tierb i v) rows) as [|r1 l1'] eqn:Esame; [discriminate|].
    intros H. destruct (py_min_first n_bats _ _ H) as [m1 [m2 [Heq [Hlt _]]]].
    assert (In b (filter (same_tierb i v) rows)) as Hb
      by (rewrite Esame, Heq; apply in_elt).
    apply filter_In in Hb. destruct Hb as [_ Hb]. apply same_tierb_spec in Hb.
    rewrite <- Esame in Heq.
    destruct (filter_split _ _ _ _ _ Heq) as [l1 [l2 [-> [F1 _]]]].
    exists l1, l2. split; [reflexivity|].
    intros r Hr Hi Hv Hp. apply Hlt. rewrite <- F1. apply filter_In.
    split; [exact Hr|]. apply same_tierb_spec. unfold same_tier in *.
    destruct Hb as [_ [Hvb _]]. repeat split; congruence.
  - intros H. destruct (py_min_first n_bats _ _ H) as [m1 [m2 [Heq [Hlt _]]]].
    assert (In b (filter (seq_tierb i) rows)) as Hb
      by (rewrite Eseq, Heq; apply in_elt).
    apply filter_In in Hb. destruct Hb as [_ Hb]. apply seq_tierb_spec in Hb.
    rewrite <- Eseq in Heq.
    destruct (filter_split _ _ _ _ _ Heq) as [l1 [l2 [-> [F1 _]]]].
    exists l1, l2. split; [reflexivity|].
    intros r Hr Hi Hv Hp. apply Hlt. rewrite <- F1. apply filter_In.
    split; [exact Hr|]. apply seq_tierb_spec. unfold seq_tier in *.
    destruct Hb as [_ [Hvb _]]. repeat split; congruence.
Qed.

Lemma weak_baseline_first_minimum_witness :
  _weak_baseline tie_rows 10 "openmp" = Some tie_baseline /\
  exists l1 l2,
    tie_rows = l1 ++ tie_baseline :: l2 /\
    forall r, In r l1 -> iters r = 10 -> version r = version tie_baseline ->
              p r = 1 -> n_bats tie_baseline < n_bats r.
Proof.
  assert (_weak_baseline tie_rows 10 "openmp" = Some tie_baseline) as H
    by (vm_compute; reflexivity).
  split; [exact H|].
  exact (weak_baseline_first_minimum tie_rows 10 "openmp" tie_baseline H).
Defined.

(** X11: with a sequential record at [p = 1] for an iteration count, every
    version gets the same weak baseline, a sequential record, and all the
    metrics of the weak table with that iteration count carry its time and
    its size as baseline. *)
Theorem weak_baseline_shared (rows : list BenchRow) (i : Z) :
  (exists r, In r rows /\ seq_tier i r) ->
  exists b,
    version b = "sequential" /\
    (forall v, _weak_baseline rows i v = Some b) /\
    forall ms m, _weak_metrics rows = Ok ms -> In m ms -> Metric.iters m = i ->
                 Metric.T_base_s m = time_s b /\ Metric.baseline_n_bats m = n_bats b.
Proof.
  intros Hseq.
  destruct (_weak_baseline rows i "") as [b|] eqn:Hb.
  - assert (forall v, _weak_baseline rows i v = Some b) as Hall
      by (intros v; rewrite <- Hb; apply weak_baseline_seq_indep, Hseq).
    destruct (weak_baseline_Some _ _ _ _ Hb) as [_ [_ [_ [[Hv _]|[_ Hno]]]]].
    + exists b. split; [exact Hv|]. split; [exact Hall|].
      intros ms m Hrun Hm Hi. rewrite weak_metrics_ok in Hrun. injection Hrun as <-.
      apply dedup_In in Hm. apply weak_out_list_In in Hm.
      destruct Hm as [i' [v' [_ [_ Hm]]]]. apply pair_out_In in Hm.
      destruct Hm as [_ [b' [Hb' Hm]]].
      assert (i' = i) as ->.
      { destruct (weak_baseline_Some _ _ _ _ Hb') as [_ [Hi' _]].
        destruct Hm as [->|[r [_ [Hir [_ ->]]]]]; simpl in Hi; congruence. }
      rewrite Hall in Hb'. injection Hb' as <-.
      destruct Hm as [->|[r [_ [_ [_ ->]]]]]; simpl; auto.
    + destruct Hseq as [r [Hr Hs]]. destruct (Hno r Hr Hs).
  - pose proof (weak_baseline_cases rows i "") as C. rewrite Hb in C.
    destruct Hseq as [r [Hr Hs]]. destruct C as [Hno _]. destruct (Hno r Hr Hs).
Qed.

Lemma weak_baseline_shared_witness :
  (exists r, In r scenario_A /\ seq_tier 10 r) /\
  exists b,
    version b = "sequential" /\
    (forall v, _weak_baseline scenario_A 10 v = Some b) /\
    forall ms m, _weak_metrics scenario_A = Ok ms -> In m ms -> Metric.iters m = 10 ->
                 Metric.T_base_s m = time_s b /\ Metric.baseline_n_bats m = n_bats b.
Proof.
  assert (exists r, In r scenario_A /\ seq_tier 10 r) as H.
  { eexists. split; [left; reflexivity|]. repeat split. }
  split; [exact H|].
  exact (weak_baseline_shared scenario_A 10 H).
Defined.

Lemma flat_map_nil {A B : Type} (f : A -> list B) (l : list A) :
  flat_map f l = [] <-> forall x, In x l -> f x = [].
Proof.
  induction l as [|a l IH]; simpl.
  - split; [intros _ x [] | reflexivity].
  - split.
    + intros H. apply app_eq_nil in H. destruct H as [Ha Hl].
      intros x [<-|Hx]; [exact Ha | exact (proj1 IH Hl x Hx)].
    + intros H. rewrite (H a (or_introl eq_refl)).
      apply IH. intros x Hx. apply H. right; exact Hx.
Qed.

Lemma dedup_nil (out : list Metric.t) : dedup out = [] <-> out = [].
Proof.
  split.
  - intros H. destruct out as [|m out]; [reflexivity|].
    destruct (dedup_complete (m :: out) m (or_introl eq_refl)) as [m' [Hm' _]].
    rewrite H in Hm'. destruct Hm'.
  - intros ->. reflexivity.
Qed.

Lemma pair_out_nil (rows : list BenchRow) (i : Z) (v : string) :
  pair_out rows i v = [] <-> (v <> "sequential" -> _weak_baseline rows i v = None).
Proof.
  unfold pair_out. destruct (v =? "sequential")%string eqn:Ev.
  - apply String.eqb_eq in Ev. split; [intros _ H; destruct (H Ev) | reflexivity].
  - apply String.eqb_neq in Ev.
    destruct (_weak_baseline rows i v) as [b|].
    + split.
      * intros H. apply app_eq_nil in H. destruct H as [_ H]. discriminate.
      * intros H. specialize (H Ev). discriminate.
    + split; reflexivity.
Qed.

(** X12: the weak table is empty exactly when no pair of an iteration count
    and a version other than "sequential" of the data has a baseline; in
    particular it is empty when all the records are sequential. *)
Theorem weak_table_empty_iff (rows : list BenchRow) :
  (_weak_metrics rows = Ok [] <->
   forall i v, In i (map iters rows) -> In v (map version rows) ->
               v <> "sequential" -> _weak_baseline rows i v = None) /\
  (Forall (fun r => version r = "sequential") rows -> _weak_metrics rows = Ok []).
Proof.
  assert (_weak_metrics rows = Ok [] <->
          forall i v, In i (map iters rows) -> In v (map version rows) ->
                      v <> "sequential" -> _weak_baseline rows i v = None) as Hiff.
  { rewrite weak_metrics_ok. split.
    - intros [= H]. apply (proj1 (dedup_nil _)) in H. unfold weak_out_list in H.
      intros i v Hi Hv Hvs.
      apply (proj2 (sorted_set_In Z.compare Z_compare_eq _ _)) in Hi.
      apply (proj2 (sorted_set_In String.compare string_compare_eq _ _)) in Hv.
      pose proof (proj1 (flat_map_nil _ _) H i Hi) as H1.
      pose proof (proj1 (flat_map_nil _ _) H1 v Hv) as H2.
      exact (proj1 (pair_out_nil rows i v) H2 Hvs).
    - intros H. f_equal. apply dedup_nil. unfold weak_out_list.
      apply flat_map_nil. intros i Hi. apply flat_map_nil. intros v Hv.
      apply pair_out_nil. intros Hvs.
      apply (proj1 (sorted_set_In Z.compare Z_compare_eq _ _)) in Hi.
      apply (proj1 (sorted_set_In String.compare string_compare_eq _ _)) in Hv.
      exact (H i v Hi Hv Hvs). }
  split; [exact Hiff|].
  intros Hall. apply Hiff. intros i v _ Hv Hvs.
  apply in_map_iff in Hv. destruct Hv as [r [Hr Hin]].
  rewrite Forall_forall in Hall. rewrite (Hall r Hin) in Hr. congruence.
Qed.

(** X13: the weak table holds a metric of the version "sequential" only as
    the entry of a baseline record: it is then the entry of a sequential
    record of the input, with [p = 1], the speedup 1.0 and its own time and
    size as baseline. *)
Theorem weak_table_sequential_entries (rows : list BenchRow) (ms : list Metric.t)
    (m : Metric.t) :
  _weak_metrics rows = Ok ms -> In m ms -> Metric.version m = "sequential" ->
  exists b, In b rows /\ version b = "sequential" /\ m = baseline_metric b /\
            Metric.speedup m = PyFloat.one /\ Metric.p m = 1 /\
            Metric.T_base_s m = Metric.time_s m /\
            Metric.baseline_n_bats m = Metric.n_bats m.
Proof.
  intros Hrun Hm Hv. rewrite weak_metrics_ok in Hrun. injection Hrun as <-.
  apply dedup_In in Hm. apply weak_out_list_In in Hm.
  destruct Hm as [i [v [_ [_ Hm]]]]. apply pair_out_In in Hm.
  destruct Hm as [Hvs [b [Hb [->|[r [_ [_ [Hvr ->]]]]]]]].
  - destruct (weak_baseline_Some _ _ _ _ Hb) as [Hin _].
    exists b. simpl in Hv. simpl. repeat split; assumption.
  - simpl in Hv. congruence.
Qed.

Lemma weak_table_sequential_entries_witness :
  exists m,
    _weak_metrics scenario_A = Ok (weak_of scenario_A) /\
    In m (weak_of scenario_A) /\ Metric.version m = "sequential" /\
    exists b, In b scenario_A /\ version b = "sequential" /\ m = baseline_metric b /\
              Metric.speedup m = PyFloat.one /\ Metric.p m = 1 /\
              Metric.T_base_s m = Metric.time_s m /\
              Metric.baseline_n_bats m = Metric.n_bats m.
Proof.
  exists (baseline_metric (hd (mkBenchRow "" 0 0 0 0 PyFloat.zero) scenario_A)).
  assert (_weak_metrics scenario_A = Ok (weak_of scenario_A)) as H
    by (vm_compute; reflexivity).
  assert (In (baseline_metric (hd (mkBenchRow "" 0 0 0 0 PyFloat.zero) scenario_A))
             (weak_of scenario_A)) as Hin
    by (right; left; reflexivity).
  split; [exact H|]. split; [exact Hin|]. split; [reflexivity|].
  exact (weak_table_sequential_entries scenario_A (weak_of scenario_A) _ H Hin eq_refl).
Defined.

(** *** The order of the weak table *)

Lemma dict_In_get {K V : Type} (eqb : K -> K -> bool)
    (eqb_spec : forall a b, eqb a b = true <-> a = b)
    (d : Py.dict K V) (k : K) (v : V) :
  NoDup (map fst d) -> In (k, v) d -> Py.dict_get eqb d k = Some v.
Proof.
  induction d as [|[k0 v0] d IH]; simpl; intros Hnd Hin; [destruct Hin|].
  apply NoDup_cons_iff in Hnd. destruct Hnd as [Hk0 Hnd].
  destruct Hin as [[= -> ->]|Hin].
  - rewrite (proj2 (eqb_spec k k) eq_refl). reflexivity.
  - destruct (eqb k0 k) eqn:E; [|exact (IH Hnd Hin)].
    apply eqb_spec in E. subst k0. exfalso. apply Hk0.
    apply in_map_iff. exists (k, v). auto.
Qed.

Lemma filter_filter_and {A : Type} (f g : A -> bool) (l : list A) :
  filter f (filter g l) = filter (fun x => g x && f x) l.
Proof.
  induction l as [|x l IH]; simpl; [reflexivity|].
  destruct (g x); simpl; [|exact IH].
  destruct (f x); rewrite IH; reflexivity.
Qed.

(** Adding a key to the keys seen so far. *)
Lemma uniq_step_keys (d : Py.dict (string * string * Z * Z * Z * Z) Metric.t)
    (m : Metric.t) :
  map fst (uniq_step d m) =
  if existsb (fun k0 => Metric.key_eqb k0 (Metric.key m)) (map fst d)
  then map fst d else map fst d ++ [Metric.key m].
Proof. apply dict_set_keys. Qed.

Lemma uniq_fold_keys (out : list Metric.t) :
  forall d,
    map fst (fold_left uniq_step out d) =
    map fst d
    ++ filter (fun k => negb (existsb (fun k0 => Metric.key_eqb k0 k) (map fst d)))
              (first_occurrences (map Metric.key out)).
Proof.
  induction out as [|m out IH]; intros d; simpl.
  - rewrite app_nil_r. reflexivity.
  - rewrite IH, uniq_step_keys. cbn [map first_occurrences filter].
    destruct (existsb (fun k0 => Metric.key_eqb k0 (Metric.key m)) (map fst d)) eqn:E;
      cbn [negb].
    + f_equal. rewrite filter_filter_absorb; [reflexivity|].
      intros k _ Hk. apply negb_true_iff in Hk. apply negb_true_iff.
      destruct (Metric.key_eqb (Metric.key m) k) eqn:Ek; [|exact Ek].
      apply key_eqb_spec in Ek. subst k. congruence.
    + rewrite <- app_assoc. cbn [app]. do 2 f_equal.
      rewrite filter_filter_and. apply filter_ext. intros k.
      rewrite existsb_app. cbn [existsb]. rewrite orb_false_r, negb_orb.
      apply andb_comm.
Qed.

(** X14: the weak table lists the keys of [out] in the order in which each
    was first emitted, and for each key it holds the entry that was emitted
    last. *)
Theorem weak_table_order (rows : list BenchRow) :
  exists out ms,
    weak_out rows = Ok out /\ _weak_metrics rows = Ok ms /\
    map Metric.key ms = first_occurrences (map Metric.key out) /\
    forall m, In m ms -> last_with (Metric.key m) out = Some m.
Proof.
  exists (weak_out_list rows), (dedup (weak_out_list rows)).
  split; [apply weak_out_ok|]. split; [apply weak_metrics_ok|]. split.
  - rewrite dedup_keys, uniq_fold_keys. simpl.
    induction (first_occurrences _) as [|k l IH]; simpl; congruence.
  - intros m Hm. unfold dedup, Py.values in Hm. fold uniq_step in Hm.
    apply in_map_iff in Hm. destruct Hm as [[k v] [Hv Hin]]. simpl in Hv. subst v.
    pose proof (uniq_fold_entries (weak_out_list rows) [] (fun _ _ H => match H with end)
                  k m Hin) as [Hk _].
    pose proof (dict_In_get Metric.key_eqb key_eqb_spec _ k m
                  (uniq_fold_NoDup (weak_out_list rows) [] (NoDup_nil _)) Hin) as Hget.
    rewrite uniq_fold_get in Hget. subst k.
    destruct (last_with (Metric.key m) (weak_out_list rows)); [exact Hget|discriminate].
Qed.

(** X15: every record of a version other than "sequential" whose pair has a
    baseline is represented in the weak table: the table holds one entry
    with the key of the record, which is the entry of the baseline record
    or the metric, against that baseline, of a record with the same key. *)
Theorem weak_table_covers_candidates (rows : list BenchRow) (r b : BenchRow) :
  In r rows -> version r <> "sequential" ->
  _weak_baseline rows (iters r) (version r) = Some b ->
  exists ms m,
    _weak_metrics rows = Ok ms /\ In m ms /\
    Metric.key m = ("weak", version r, n_bats r, iters r, procs r, threads r) /\
    (m = baseline_metric b \/
     exists r', In r' rows /\ m = weak_metric b r') /\
    forall m', In m' ms -> Metric.key m' = Metric.key m -> m' = m.
Proof.
  intros Hr Hv Hb.
  exists (dedup (weak_out_list rows)).
  assert (In (weak_metric b r) (weak_out_list rows)) as Hout.
  { apply weak_out_list_In. exists (iters r), (version r).
    split; [apply in_map, Hr|]. split; [apply in_map, Hr|].
    apply pair_out_In. split; [exact Hv|]. exists b. split; [exact Hb|].
    right. exists r. auto. }
  destruct (dedup_complete _ _ Hout) as [m [Hm Hk]].
  exists m. split; [apply weak_metrics_ok|]. split; [exact Hm|].
  split; [exact Hk|]. split.
  - pose proof (dedup_In _ _ Hm) as Hm'. apply weak_out_list_In in Hm'.
    destruct Hm' as [i' [v' [_ [_ Hp]]]]. apply pair_out_In in Hp.
    destruct Hp as [Hvs [b' [Hb' [->|[r' [Hr' [Hi' [Hv' ->]]]]]]]].
    + left. f_equal. unfold Metric.key in Hk. simpl in Hk.
      injection Hk as Hkv _ Hki _ _.
      destruct (weak_baseline_Some _ _ _ _ Hb') as [_ [Hib [_ [[Hs _]|[Hvb _]]]]].
      * congruence.
      * assert (i' = iters r) as -> by congruence.
        assert (v' = version r) as -> by congruence. congruence.
    + right. exists r'. split; [exact Hr'|].
      unfold Metric.key in Hk. simpl in Hk. injection Hk as Hkv _ Hki _ _.
      assert (i' = iters r) as -> by congruence.
      assert (v' = version r) as -> by congruence.
      rewrite Hb in Hb'. injection Hb' as <-. reflexivity.
  - intros m' Hm' Hk'.
    exact (NoDup_map_inj Metric.key _ m' m (dedup_NoDup _) Hm' Hm Hk').
Qed.

Lemma weak_table_covers_candidates_witness :
  exists ms m,
    _weak_metrics tie_rows = Ok ms /\ In m ms /\
    Metric.key m
    = ("weak", version tie_baseline, n_bats tie_baseline, iters tie_baseline,
       procs tie_baseline, threads tie_baseline) /\
    (m = baseline_metric tie_baseline \/
     exists r', In r' tie_rows /\ m = weak_metric tie_baseline r') /\
    forall m', In m' ms -> Metric.key m' = Metric.key m -> m' = m.
Proof.
  apply (weak_table_covers_candidates tie_rows tie_baseline tie_baseline).
  - right. left. reflexivity.
  - discriminate.
  - vm_compute. reflexivity.
Defined.

(** ** The groups of [try_plot] *)

Lemma plot_key_eqb_spec (a b : plot_key) : plot_key_eqb a b = true <-> a = b.
Proof.
  destruct a as [[[m1 v1] n1] i1], b as [[[m2 v2] n2] i2]. unfold plot_key_eqb.
  rewrite !andb_true_iff, !String.eqb_eq, !Z.eqb_eq.
  split; [intros [[[-> ->] ->] ->]; reflexivity | intros [= -> -> -> ->]; auto].
Qed.

Lemma group_add_keys (g : Py.dict plot_key (list Metric.t)) (m : Metric.t) :
  map fst (group_add g m) =
  if existsb (fun k0 => plot_key_eqb k0 (plot_key_of m)) (map fst g)
  then map fst g else map fst g ++ [plot_key_of m].
Proof.
  unfold group_add. fold (plot_key_of m).
  destruct (Py.dict_get plot_key_eqb g (plot_key_of m)); apply dict_set_keys.
Qed.

Lemma group_fold_keys (metrics : list Metric.t) :
  forall g,
    map fst (fold_left group_add metrics g) =
    map fst g
    ++ filter (fun k => negb (existsb (fun k0 => plot_key_eqb k0 k) (map fst g)))
              (first_plot_keys (map plot_key_of metrics)).
Proof.
  induction metrics as [|m metrics IH]; intros g; simpl.
  - rewrite app_nil_r. reflexivity.
  - rewrite IH, group_add_keys. cbn [map first_plot_keys filter].
    destruct (existsb (fun k0 => plot_key_eqb k0 (plot_key_of m)) (map fst g)) eqn:E;
      cbn [negb].
    + f_equal. rewrite filter_filter_absorb; [reflexivity|].
      intros k _ Hk. apply negb_true_iff in Hk. apply negb_true_iff.
      destruct (plot_key_eqb (plot_key_of m) k) eqn:Ek; [|exact Ek].
      apply plot_key_eqb_spec in Ek. subst k. congruence.
    + rewrite <- app_assoc. cbn [app]. do 2 f_equal.
      rewrite filter_filter_and. apply filter_ext. intros k.
      rewrite existsb_app. cbn [existsb]. rewrite orb_false_r, negb_orb.
      apply andb_comm.
Qed.

Lemma group_add_members (g : Py.dict plot_key (list Metric.t)) (m : Metric.t)
    (key : plot_key) :
  group_members (group_add g m) key =
  group_members g key ++ (if plot_key_eqb (plot_key_of m) key then [m] else []).
Proof.
  unfold group_members, group_add. fold (plot_key_of m).
  destruct (Py.dict_get plot_key_eqb g (plot_key_of m)) as [ms|] eqn:Eg;
    rewrite (dict_get_set plot_key_eqb plot_key_eqb_spec);
    destruct (plot_key_eqb (plot_key_of m) key) eqn:Ek.
  - apply plot_key_eqb_spec in Ek. subst key. rewrite Eg. reflexivity.
  - rewrite app_nil_r. reflexivity.
  - apply plot_key_eqb_spec in Ek. subst key. rewrite Eg. reflexivity.
  - rewrite app_nil_r. reflexivity.
Qed.

Lemma group_fold_members (metrics : list Metric.t) (key : plot_key) :
  forall g,
    group_members (fold_left group_add metrics g) key =
    group_members g key
    ++ filter (fun m => plot_key_eqb (plot_key_of m) key) metrics.
Proof.
  induction metrics as [|m metrics IH]; intros g; cbn [fold_left filter].
  - rewrite app_nil_r. reflexivity.
  - rewrite IH, group_add_members, <- app_assoc.
    destruct (plot_key_eqb (plot_key_of m) key); reflexivity.
Qed.

Lemma group_fold_NoDup (metrics : list Metric.t) :
  forall g, NoDup (map fst g) -> NoDup (map fst (fold_left group_add metrics g)).
Proof.
  induction metrics as [|m metrics IH]; intros g Hg; simpl; [exact Hg|].
  apply IH. unfold group_add.
  destruct (Py.dict_get plot_key_eqb g _);
    apply (dict_set_NoDup plot_key_eqb plot_key_eqb_spec), Hg.
Qed.

Lemma group_fold_nonempty (metrics : list Metric.t) :
  forall g,
    (forall key ms, In (key, ms) g -> ms <> []) ->
    forall key ms, In (key, ms) (fold_left group_add metrics g) -> ms <> [].
Proof.
  induction metrics as [|m metrics IH]; intros g Hg; simpl; [exact Hg|].
  apply IH. intros key ms Hin. unfold group_add in Hin.
  destruct (Py.dict_get plot_key_eqb g _) as [ms0|];
    apply (dict_set_In plot_key_eqb plot_key_eqb_spec) in Hin;
    destruct Hin as [Hin|[= _ ->]]; try exact (Hg _ _ Hin).
  - destruct ms0; discriminate.
  - discriminate.
Qed.

Lemma insert_sorted_not_nil {A : Type} (cmp : A -> A -> comparison) (x : A)
    (l : list A) :
  Py.insert_sorted cmp x l <> [].
Proof. destruct l as [|y l]; simpl; [|destruct (cmp x y)]; discriminate. Qed.

(** The set of the parallelisms of a non-empty group is not empty: the test
    [len({...}) < 1] fails. *)
Lemma distinct_p_guard (ms : list Metric.t) :
  ms <> [] ->
  (List.length (Py.sorted_set Z.compare (map Metric.p ms)) <? 1)%nat = false.
Proof.
  destruct ms as [|m ms]; [congruence|]. intros _.
  unfold Py.sorted_set. cbn [map fold_right].
  pose proof (insert_sorted_not_nil Z.compare (Metric.p m)
                (fold_right (Py.insert_sorted Z.compare) [] (map Metric.p ms))) as H.
  destruct (Py.insert_sorted _ _ _); [congruence | reflexivity].
Qed.

(** X16: [try_plot] groups the metrics by (mode, version, n_bats, iters):
    the keys of [groups] are the keys of the metrics in the order in which
    each first occurs, and every group holds the metrics of its key, in
    their order.  No group is empty, so the test [len({p}) < 1] of the
    plotting loop is false for every group: a group is skipped only for
    the version "sequential", and a group of a single point is not
    skipped. *)
Theorem plot_groups_by_key (metrics : list Metric.t) :
  let groups := fold_left group_add metrics [] in
  map fst groups = first_plot_keys (map plot_key_of metrics) /\
  NoDup (map fst groups) /\
  (forall m, In m metrics ->
             exists ms, In (plot_key_of m, ms) groups /\ In m ms) /\
  (forall key ms, In (key, ms) groups ->
     ms = filter (fun m => plot_key_eqb (plot_key_of m) key) metrics /\
     ms <> [] /\
     (List.length (Py.sorted_set Z.compare (map Metric.p ms)) <? 1)%nat = false).
Proof.
  intros groups.
  assert (forall key ms, In (key, ms) groups -> ms <> []) as Hne.
  { apply group_fold_nonempty. intros key ms []. }
  assert (NoDup (map fst groups)) as Hnd
    by apply (group_fold_NoDup metrics [] (NoDup_nil _)).
  assert (forall key ms, In (key, ms) groups ->
            ms = filter (fun m => plot_key_eqb (plot_key_of m) key) metrics) as Hms.
  { intros key ms Hin.
    pose proof (dict_In_get plot_key_eqb plot_key_eqb_spec groups key ms Hnd Hin)
      as Hget.
    pose proof (group_fold_members metrics key []) as Hm.
    fold groups in Hm. unfold group_members in Hm. rewrite Hget in Hm.
    simpl in Hm. exact Hm. }
  split; [|split; [exact Hnd|split]].
  - unfold groups. rewrite group_fold_keys. simpl.
    induction (first_plot_keys _) as [|k l IH]; simpl; congruence.
  - intros m Hm.
    pose proof (group_fold_members metrics (plot_key_of m) []) as Hg.
    fold groups in Hg.
    change (group_members [] (plot_key_of m)) with (@nil Metric.t) in Hg.
    cbn [app] in Hg. unfold group_members in Hg.
    assert (In m (filter (fun m0 => plot_key_eqb (plot_key_of m0) (plot_key_of m))
                         metrics)) as Hf.
    { apply filter_In. split; [exact Hm | apply plot_key_eqb_spec; reflexivity]. }
    destruct (Py.dict_get plot_key_eqb groups (plot_key_of m)) as [ms|] eqn:Eg.
    + exists ms. split.
      * apply (dict_get_In plot_key_eqb plot_key_eqb_spec). exact Eg.
      * rewrite Hg. exact Hf.
    + rewrite <- Hg in Hf. destruct Hf.
  - intros key ms Hin. split; [exact (Hms key ms Hin)|]. split.
    + exact (Hne key ms Hin).
    + apply distinct_p_guard. exact (Hne key ms Hin).
Qed.

(** ** What [main] leaves behind when the computation fails *)

Lemma compute_metrics_nil : compute_metrics [] = Ok [].
Proof. reflexivity. Qed.

(** X17: when the input has been read and [parse_lines] or
    [compute_metrics] raises, [main] ends with that exception, which is
    [ValueError] from the parser or [OverflowError] from the metrics,
    before the table is opened: the output directory has been created, no
    file is written and nothing is printed.  One rejected line or one
    count too large for a double leaves no table at all. *)
Theorem main_aborts_on_error (lines : list string) (outdir : string)
    (matplotlib : bool) (w : World.t) (e : exn) :
  (parse_lines lines = Raise e \/
   exists rows, parse_lines lines = Ok rows /\ compute_metrics rows = Raise e) ->
  main (Some lines) outdir matplotlib w = (World.makedirs w outdir, Raise e) /\
  (parse_lines lines = Raise e -> e = ValueError) /\
  (parse_lines lines <> Raise e -> e = OverflowError) /\
  World.files (fst (main (Some lines) outdir matplotlib w)) = World.files w /\
  World.stdout (fst (main (Some lines) outdir matplotlib w)) = World.stdout w.
Proof.
  intros H.
  assert (main (Some lines) outdir matplotlib w = (World.makedirs w outdir, Raise e))
    as Hmain.
  { unfold main. destruct H as [->|[rows [-> Hc]]]; [reflexivity|].
    destruct rows as [|r rows]; [rewrite compute_metrics_nil in Hc; discriminate|].
    rewrite Hc. reflexivity. }
  rewrite Hmain. split; [reflexivity|]. split; [|split; [|split; reflexivity]].
  - intros Hp. apply (parse_lines_raise lines e Hp).
  - intros Hp. destruct H as [H|[rows [_ Hc]]]; [contradiction|].
    exact (compute_metrics_raise rows e Hc).
Qed.

Lemma main_aborts_on_error_witness :
  (exists rows, parse_lines huge_threads_lines = Ok rows /\
                compute_metrics rows = Raise OverflowError) /\
  main (Some huge_threads_lines) "bench_out" false empty_world
  = (World.makedirs empty_world "bench_out", Raise OverflowError) /\
  World.files (fst (main (Some huge_threads_lines) "bench_out" false empty_world))
  = World.files empty_world /\
  World.stdout (fst (main (Some huge_threads_lines) "bench_out" false empty_world))
  = World.stdout empty_world.
Proof.
  assert (exists rows, parse_lines huge_threads_lines = Ok rows /\
                       compute_metrics rows = Raise OverflowError) as H
    by (eexists; split; vm_compute; reflexivity).
  split; [exact H|].
  destruct (main_aborts_on_error huge_threads_lines "bench_out" false empty_world
              OverflowError (or_intror H)) as [H1 [_ [_ [H2 H3]]]].
  split; [exact H1|]. split; [exact H2 | exact H3].
Defined.

(** ** The fastest sequential run in the strong table *)

(** A finite double that is not zero, divided by itself, is 1.0. *)
Lemma SFdiv_self (s : bool) (m : positive) (e : Z) :
  SFdiv PyFloat.prec PyFloat.emax (S754_finite s m e) (S754_finite s m e)
  = PyFloat.one.
Proof.
  unfold SFdiv, SFdiv_core_binary.
  replace (Zdigits2 (Zpos m) + e - (Zdigits2 (Zpos m) + e)) with 0 by lia.
  replace (e - e) with 0 by lia.
  change (Z.min (fexp PyFloat.prec PyFloat.emax 0) 0) with (-53).
  change (0 - -53) with 53. cbv iota.
  rewrite Z.shiftl_mul_pow2 by lia.
  destruct (Z.div_eucl (Zpos m * 2 ^ 53) (Zpos m)) as [q r] eqn:E.
  assert (q = Zpos m * 2 ^ 53 / Zpos m) as Hq by (unfold Z.div; rewrite E; reflexivity).
  assert (r = (Zpos m * 2 ^ 53) mod Zpos m) as Hr
    by (unfold Z.modulo; rewrite E; reflexivity).
  rewrite Z.mul_comm, Z.div_mul in Hq by lia.
  rewrite Z.mul_comm, Z.mod_mul in Hr by lia.
  subst q r.
  assert (new_location (Zpos m) 0 = loc_Exact) as ->
    by (unfold new_location; destruct (Z.even (Zpos m)); reflexivity).
  destruct s; vm_compute; reflexivity.
Qed.

(** The second loop keeps what it has and adds the metric of every record
    whose size has a baseline. *)
Lemma strong_loop_In (bl : Py.dict (Z * Z) float) (rows : list BenchRow) :
  forall out ms,
    Py.for_each rows (strong_step bl) out = Ok ms ->
    (forall m, In m out -> In m ms) /\
    forall r t1,
      In r rows -> Py.dict_get pair_eqb bl (n_bats r, iters r) = Some t1 ->
      exists eff,
        efficiency_of (speedup_val t1 (time_s r)) (p r) = Ok eff /\
        In (Metric.mk "strong" (version r) (n_bats r) (iters r) (procs r) (threads r)
              (p r) (time_s r) (n_bats r) t1 (speedup_val t1 (time_s r)) eff) ms.
Proof.
  induction rows as [|r0 rows IH]; intros out ms H.
  - simpl in H. injection H as <-. split; [auto | intros r t1 []].
  - simpl in H. destruct (strong_step bl out r0) as [out1|e] eqn:Es; simpl in H;
      [|discriminate].
    destruct (IH _ _ H) as [Hkeep Hrows].
    assert (forall m, In m out -> In m out1) as Hout.
    { intros m Hm. unfold strong_step in Es.
      destruct (Py.dict_get pair_eqb bl (n_bats r0, iters r0)) as [t|].
      - rewrite speedup_of_ok in Es. simpl in Es.
        destruct (efficiency_of _ _); simpl in Es; [|discriminate].
        injection Es as <-. apply in_or_app. left. exact Hm.
      - injection Es as <-. exact Hm. }
    split; [intros m Hm; apply Hkeep, Hout, Hm|].
    intros r t1 [<-|Hr] Ht; [|exact (Hrows r t1 Hr Ht)].
    unfold strong_step in Es. rewrite Ht in Es.
    rewrite speedup_of_ok in Es. simpl in Es.
    destruct (efficiency_of _ _) as [eff|]; simpl in Es; [|discriminate].
    injection Es as <-. exists eff. split; [reflexivity|].
    apply Hkeep, in_or_app. right. left. reflexivity.
Qed.

(** X18: a sequential record whose time is the baseline of its size, the
    fastest sequential run of that size, is reported in the strong table
    with the speedup 1.0 and the efficiency 1.0, when its time is finite
    and above zero. *)
Theorem strong_baseline_record_unit (rows : list BenchRow) (ms : list Metric.t)
    (r : BenchRow) (m : positive) (e : Z) :
  _strong_metrics rows = Ok ms ->
  In r rows -> version r = "sequential" ->
  find_baseline rows (n_bats r) (iters r) = Ok (time_s r) ->
  time_s r = S754_finite false m e ->
  In (Metric.mk "strong" "sequential" (n_bats r) (iters r) (procs r) (threads r)
        1 (time_s r) (n_bats r) (time_s r) PyFloat.one PyFloat.one) ms.
Proof.
  intros Hms Hr Hv Hb Ht. unfold _strong_metrics in Hms.
  destruct (strong_baselines_spec rows) as [bl [Hbl Hget]].
  rewrite Hbl in Hms. simpl in Hms.
  destruct (strong_loop_In bl rows [] ms Hms) as [_ Hrows].
  assert (Py.dict_get pair_eqb bl (n_bats r, iters r) = Some (time_s r)) as Hkey.
  { rewrite Hget. unfold baseline_entry. simpl. rewrite Hb. reflexivity. }
  destruct (Hrows r (time_s r) Hr Hkey) as [eff [He Hin]].
  assert (p r = 1) as Hp by (unfold p; rewrite Hv; reflexivity).
  assert (speedup_val (time_s r) (time_s r) = PyFloat.one) as Hs.
  { unfold speedup_val. rewrite Ht. cbn [PyFloat.gtb PyFloat.zero SFltb SFcompare].
    apply SFdiv_self. }
  rewrite Hs, Hp in He, Hin. rewrite Hv in Hin.
  assert (eff = PyFloat.one) as ->
    by (vm_compute in He; injection He as <-; reflexivity).
  exact Hin.
Qed.

Lemma strong_baseline_record_unit_witness :
  find_baseline scenario_D 100 10 = Ok float_9 /\
  In (Metric.mk "strong" "sequential" 100 10 1 1 1 float_9 100 float_9
        PyFloat.one PyFloat.one)
     (strong_of scenario_D).
Proof.
  split; [vm_compute; reflexivity|].
  pose (r := mkBenchRow "sequential" 100 10 1 1 float_9).
  apply (strong_baseline_record_unit scenario_D (strong_of scenario_D) r
           5066549580791808 (-49)).
  - vm_compute. reflexivity.
  - vm_compute. tauto.
  - reflexivity.
  - vm_compute. reflexivity.
  - vm_compute. reflexivity.
Defined.
